(** * dex-bot: the market maker strategy (src/strategies/marketmaker.js)

    A shallow embedding of the grid price/quantity computation, the
    open-order reconciliation and the per-pair strategy loop, together with
    the parts of the JavaScript run time they rest on: IEEE binary64
    numbers, bignumber.js decimals and the conversions between the two. *)

From Stdlib Require Import ZArith NArith QArith Qround Qpower Qfield Lqa Lia.
From Stdlib Require Import List Bool String Ascii.
From Stdlib Require Import Floats.SpecFloat.
Import ListNotations.
Local Open Scope Z_scope.

(** ** JavaScript numbers

    A JS number is an IEEE 754 binary64 value.  [spec_float] is the
    Standard Library's specification of such values; the operations are
    taken at precision 53 and maximal exponent 1024. *)

Module Number.

Definition prec : Z := 53.
Definition emax : Z := 1024.

Definition t := spec_float.

(** [x / y] *)
Definition div (x y : t) : t := SFdiv prec emax x y.

(** The number nearest to an integer (an integer literal, or an integer
    result below 2^53, which is exact). *)
Definition ofZ (z : Z) : t := binary_normalize prec emax z 0 false.

(** The number nearest to [n / d], for positive [n] and [d]: round to
    nearest, ties to even. *)
Definition ofRatio (s : bool) (n d : positive) : t :=
  SFdiv prec emax (S754_finite s n 0) (S754_finite false d 0).

End Number.

(** ** bignumber.js

    A BigNumber is NaN, an infinity, or a signed decimal [+- c * 10^e].
    bignumber.js keeps the coefficient as an array of digits without
    trailing zeros; the model keeps it as a natural number and compares
    decimals by value.  The exponent limits (+-1e9) are far outside anything
    a binary64 input can produce here and are not modelled. *)

Inductive BigNumber : Type :=
| BN_NaN
| BN_Infinity (s : bool)
| BN_finite (s : bool) (c : N) (e : Z).

(** The rounding modes the strategy uses (BN.ROUND_UP = 0, away from zero;
    BN.ROUND_DOWN = 1, towards zero; BN.ROUND_HALF_UP = 4, the default
    ROUNDING_MODE, nearest with ties away from zero). *)
Inductive RoundingMode : Type := ROUND_UP | ROUND_DOWN | ROUND_HALF_UP.

(** bignumber.js default configuration. *)
Definition DECIMAL_PLACES : Z := 20.
Definition ROUNDING_MODE : RoundingMode := ROUND_HALF_UP.

(** [10^k], and 1 for a negative [k]. *)
Definition pow10 (k : Z) : positive :=
  match k with
  | Zpos p => Pos.pow 10 p
  | _ => 1%positive
  end.

Definition BN_signed (s : bool) (c : N) : Z :=
  if s then - Z.of_N c else Z.of_N c.

Definition BN_of_signed (z : Z) (szero : bool) (e : Z) : BigNumber :=
  BN_finite (if z =? 0 then szero else z <? 0) (Z.abs_N z) e.

Definition BN_ofZ (z : Z) : BigNumber := BN_of_signed z false 0.

(** How a magnitude [q] with remainder [r] out of [d] is bumped. *)
Definition round_bump (rm : RoundingMode) (q r d : N) : N :=
  match rm with
  | ROUND_UP => if (r =? 0)%N then q else N.succ q
  | ROUND_DOWN => q
  | ROUND_HALF_UP => if (d <=? 2 * r)%N then N.succ q else q
  end.

(** [x.decimalPlaces(dp, rm)]: round to [dp] decimal places. *)
Definition BN_decimalPlaces (x : BigNumber) (dp : nat) (rm : RoundingMode)
  : BigNumber :=
  match x with
  | BN_finite s c e =>
      if (- Z.of_nat dp <=? e) then x
      else
        let d := Npos (pow10 (- Z.of_nat dp - e)) in
        BN_finite s (round_bump rm (c / d) (c mod d) d) (- Z.of_nat dp)
  | _ => x
  end.

(** [x.plus(y)]: exact. *)
Definition BN_plus (x y : BigNumber) : BigNumber :=
  match x, y with
  | BN_NaN, _ | _, BN_NaN => BN_NaN
  | BN_Infinity sx, BN_Infinity sy => if Bool.eqb sx sy then x else BN_NaN
  | BN_Infinity _, _ => x
  | _, BN_Infinity _ => y
  | BN_finite sx cx ex, BN_finite sy cy ey =>
      let e := Z.min ex ey in
      BN_of_signed (BN_signed sx cx * Zpos (pow10 (ex - e))
                    + BN_signed sy cy * Zpos (pow10 (ey - e)))
                   (sx && sy) e
  end.

(** [x.times(y)]: exact. *)
Definition BN_times (x y : BigNumber) : BigNumber :=
  match x, y with
  | BN_NaN, _ | _, BN_NaN => BN_NaN
  | BN_Infinity sx, BN_Infinity sy => BN_Infinity (xorb sx sy)
  | BN_Infinity sx, BN_finite sy cy _ =>
      if (cy =? 0)%N then BN_NaN else BN_Infinity (xorb sx sy)
  | BN_finite sx cx _, BN_Infinity sy =>
      if (cx =? 0)%N then BN_NaN else BN_Infinity (xorb sx sy)
  | BN_finite sx cx ex, BN_finite sy cy ey =>
      BN_finite (xorb sx sy) (cx * cy) (ex + ey)
  end.

(** [x.dividedBy(y)]: the quotient rounded to DECIMAL_PLACES places with
    ROUNDING_MODE. *)
Definition BN_dividedBy (x y : BigNumber) : BigNumber :=
  match x, y with
  | BN_NaN, _ | _, BN_NaN => BN_NaN
  | BN_Infinity _, BN_Infinity _ => BN_NaN
  | BN_Infinity sx, BN_finite sy _ _ => BN_Infinity (xorb sx sy)
  | BN_finite sx _ _, BN_Infinity sy => BN_finite (xorb sx sy) 0 0
  | BN_finite sx cx ex, BN_finite sy cy ey =>
      if (cy =? 0)%N then
        if (cx =? 0)%N then BN_NaN else BN_Infinity (xorb sx sy)
      else if (cx =? 0)%N then BN_finite (xorb sx sy) 0 0
      else
        let k := ex - ey + DECIMAL_PLACES in
        let num := (cx * Npos (pow10 k))%N in
        let den := (cy * Npos (pow10 (- k)))%N in
        BN_finite (xorb sx sy)
                  (round_bump ROUNDING_MODE (num / den) (num mod den) den)
                  (- DECIMAL_PLACES)
  end.

(** ** Between numbers and BigNumbers *)

(** Reading a decimal as a number ([Number(string)], unary plus,
    [Math.max] on one argument): the nearest binary64 value. *)
Definition decimal_toNumber (s : bool) (c : positive) (e : Z) : Number.t :=
  if 0 <=? e
  then binary_normalize Number.prec Number.emax
         (BN_signed s (Npos c) * Zpos (pow10 e)) 0 false
  else Number.ofRatio s c (pow10 (- e)).

(** [x.valueOf()] read back by [ToNumber]: what [+x] and [Math.max(x)]
    give for a BigNumber [x]. *)
Definition BN_toNumber (x : BigNumber) : Number.t :=
  match x with
  | BN_NaN => S754_nan
  | BN_Infinity s => S754_infinity s
  | BN_finite s N0 _ => S754_zero s
  | BN_finite s (Npos c) e => decimal_toNumber s c e
  end.

(** Printing a number (Number::toString): the decimal [s * 10^t] with
    the fewest digits [k] that reads back as the same number; among several
    the one closest to the number, the even one on a tie. *)
Section ShortestDecimal.

(** The number is [n / d], positive. *)
Variables (x : Number.t) (n d : positive).

(** The number of decimal digits of a positive integer. *)
Fixpoint digits10 (fuel : nat) (z : Z) : Z :=
  match fuel with
  | O => 0
  | S fuel' => if z <? 10 then 1 else 1 + digits10 fuel' (z / 10)
  end.

(** The least exponent from [j] on at which [d <= n * 10^j]. *)
Fixpoint leading_zeros (fuel : nat) (j : Z) : Z :=
  match fuel with
  | O => j
  | S fuel' =>
      if Zpos d <=? Zpos n * Zpos (pow10 j) then j
      else leading_zeros fuel' (j + 1)
  end.

(** The exponent [p] with [10^(p-1) <= n/d < 10^p]. *)
Definition magnitude10 : Z :=
  if Zpos d <=? Zpos n
  then digits10 400 (Zpos n / Zpos d)
  else 1 - leading_zeros 400 1.

Definition reads_back (s : Z) (t : Z) : bool :=
  match s with
  | Zpos c => SFeqb (decimal_toNumber false c t) x
  | _ => false
  end.

(** The candidates with [k] digits: [n/d] cut after [k] digits, and the
    next one up. *)
Definition candidate (k : Z) : option (Z * Z) :=
  let t := magnitude10 - k in
  let num := Zpos n * Zpos (pow10 (- t)) in
  let den := Zpos d * Zpos (pow10 t) in
  let lo := num / den in
  let r := num mod den in
  let hi := lo + 1 in
  match reads_back lo t, reads_back hi t with
  | true, true =>
      match (2 * r ?= den) with
      | Lt => Some (lo, t)
      | Gt => Some (hi, t)
      | Eq => Some (if Z.even lo then lo else hi, t)
      end
  | true, false => Some (lo, t)
  | false, true => Some (hi, t)
  | false, false => None
  end.

Fixpoint shortest (fuel : nat) (k : Z) : Z * Z :=
  match fuel with
  | O => (Zpos n * Zpos (pow10 (k - magnitude10)) /
          (Zpos d * Zpos (pow10 (magnitude10 - k))), magnitude10 - k)
  | S fuel' =>
      match candidate k with
      | Some r => r
      | None => shortest fuel' (k + 1)
      end
  end.

End ShortestDecimal.

(** The digits and exponent [String(v)] prints for a positive finite [v]
    with mantissa [m] and binary exponent [e]. *)
Definition Number_toDecimal (m : positive) (e : Z) : positive * Z :=
  let x := S754_finite false m e in
  let n := if 0 <=? e then Pos.shiftl m (Z.to_N e) else m in
  let d := if 0 <=? e then 1%positive else Pos.shiftl 1 (Z.to_N (- e)) in
  let r := shortest x n d 17 1 in
  (Z.to_pos (fst r), snd r).

(** [new BigNumber(v)] for a number [v]: NaN and the infinities as they
    are, a zero with its sign, anything else through [String(v)]. *)
Definition BN_ofNumber (v : Number.t) : BigNumber :=
  match v with
  | S754_nan => BN_NaN
  | S754_infinity s => BN_Infinity s
  | S754_zero s => BN_finite s 0 0
  | S754_finite s m e =>
      let r := Number_toDecimal m e in
      BN_finite s (Npos (fst r)) (snd r)
  end.

(** [x.toFixed(dp, rm)], taken as the decimal its string denotes.  The
    string of a BigNumber zero carries no sign; a negative value rounded
    to zero keeps its minus sign. *)
Definition BN_toFixed (x : BigNumber) (dp : nat) (rm : RoundingMode)
  : BigNumber :=
  match x with
  | BN_finite _ N0 _ => BN_finite false 0 (- Z.of_nat dp)
  | _ => BN_decimalPlaces x dp rm
  end.

(** A number literal [c * 10^e] of the source or of an example. *)
Definition num (c : Z) (e : Z) : Number.t :=
  BN_toNumber (BN_of_signed c false e).

(** ** The JavaScript values the base selection meets

    A primitive string and a String object wrapping the same characters
    are different values: strict equality, which a [switch] uses to match
    its [case] clauses, never holds between an object and a primitive. *)

Inductive JsValue : Type :=
| JsUndefined
| JsString (s : string)
| JsStringObject (s : string).

Definition ToString (v : JsValue) : string :=
  match v with
  | JsUndefined => "undefined"
  | JsString s => s
  | JsStringObject s => s
  end.

(** [new String(v)] *)
Definition new_String (v : JsValue) : JsValue := JsStringObject (ToString v).

(** [v === lit] for a string literal [lit]. *)
Definition strict_equals (v : JsValue) (lit : string) : bool :=
  match v with
  | JsString s => String.eqb s lit
  | _ => false
  end.

(** ** Data *)

(** Modelled from the spec: ORDERSIDES of src/dexrpc.js, which is not
    among the sources; the data model gives a side as enum{BUY, SELL}. *)
Inductive OrderSide : Type := BUY | SELL.

Definition OrderSide_eqb (a b : OrderSide) : bool :=
  match a, b with
  | BUY, BUY | SELL, SELL => true
  | _, _ => false
  end.

Record PairConfig : Type := {
  symbol : string;
  gridInterval : Number.t;
  base : JsValue
}.

Record Token : Type := {
  precision : nat;
  multiplier : Number.t
}.

Record Market : Type := {
  market_id : nat;
  bid_token : Token;
  ask_token : Token;
  order_min : Number.t
}.

Record OpenOrder : Type := {
  order_market_id : nat;
  order_side : OrderSide
}.

Module MarketDetails.
Record t : Type := mk {
  highestBid : Number.t;
  lowestAsk : Number.t;
  market : Market;
  price : Number.t
}.
End MarketDetails.

Module Order.
Record t : Type := mk {
  orderSide : OrderSide;
  price : Number.t;
  quantity : Number.t;
  marketSymbol : string
}.
End Order.

Module QuantityAndAdjustedTotal.
Record t : Type := mk {
  adjustedTotal : Number.t;
  quantity : Number.t
}.
End QuantityAndAdjustedTotal.

(** ** The pure part of the strategy *)

(** getQuantityAndAdjustedTotal, lines 52-59 *)
Definition getQuantityAndAdjustedTotal
    (price totalCost : Number.t) (bidPrecision askPrecision : nat)
  : QuantityAndAdjustedTotal.t :=
  let quantity :=
    BN_toNumber
      (BN_toFixed (BN_dividedBy (BN_ofNumber totalCost) (BN_ofNumber price))
                  bidPrecision ROUND_UP) in
  let adjustedTotal :=
    BN_toNumber
      (BN_toFixed (BN_times (BN_ofNumber price) (BN_ofNumber quantity))
                  askPrecision ROUND_UP) in
  QuantityAndAdjustedTotal.mk adjustedTotal quantity.

Section Strategy.

(** The trading configuration, read once when the module is loaded. *)
Variable username : string.
Variable gridLevels : nat.
Variable pairs : list PairConfig.

(** getGridInterval, lines 61-68 *)
Definition getGridInterval (marketSymbol : string) : Number.t :=
  fold_left
    (fun interval p =>
       if String.eqb marketSymbol (symbol p) then gridInterval p
       else interval)
    pairs (num 1 (-2)).

(** getBase, lines 70-77 *)
Definition getBase (marketSymbol : string) : JsValue :=
  fold_left
    (fun type p =>
       if String.eqb marketSymbol (symbol p) then base p else type)
    pairs (JsString "AVERAGE").

(** The [switch] of lines 93-106 and, word for word, of lines 141-154. *)
Definition switch_base (base : JsValue)
    (highestBid lowestAsk lastSalePrice avgPrice : BigNumber) : BigNumber :=
  if strict_equals base "BID" then highestBid
  else if strict_equals base "ASK" then lowestAsk
  else if strict_equals base "LAST" then lastSalePrice
  else avgPrice.

(** [startPrice], lines 86-106 of createBuyOrder and 134-154 of
    createSellOrder, which are the same text. *)
Definition startPrice (marketSymbol : string) (marketDetails : MarketDetails.t)
  : BigNumber :=
  let lastSalePrice := BN_ofNumber (MarketDetails.price marketDetails) in
  let lowestAsk := BN_ofNumber (MarketDetails.lowestAsk marketDetails) in
  let highestBid := BN_ofNumber (MarketDetails.highestBid marketDetails) in
  let base := new_String (getBase marketSymbol) in
  let avgPrice := BN_dividedBy (BN_plus lowestAsk highestBid) (BN_ofZ 2) in
  switch_base base highestBid lowestAsk lastSalePrice avgPrice.

(** [buyPrice], lines 109-110.  [index] is a loop counter: an integer
    number, exact and printed as itself. *)
Definition buyPrice (marketSymbol : string) (marketDetails : MarketDetails.t)
    (index : nat) : BigNumber :=
  let market := MarketDetails.market marketDetails in
  let askPrecision := precision (ask_token market) in
  let bigMinSpread := BN_ofNumber (getGridInterval marketSymbol) in
  BN_decimalPlaces
    (BN_times
       (BN_plus (BN_times bigMinSpread (BN_ofZ (0 - (Z.of_nat index + 1))))
                (BN_ofZ 1))
       (startPrice marketSymbol marketDetails))
    askPrecision ROUND_DOWN.

(** createBuyOrder, lines 79-125 *)
Definition createBuyOrder (marketSymbol : string)
    (marketDetails : MarketDetails.t) (index : nat) : Order.t :=
  let market := MarketDetails.market marketDetails in
  let askPrecision := precision (ask_token market) in
  let bidPrecision := precision (bid_token market) in
  let minOrder := Number.div (order_min market) (multiplier (ask_token market)) in
  let buyPrice := buyPrice marketSymbol marketDetails index in
  let r := getQuantityAndAdjustedTotal
             (BN_toNumber buyPrice) minOrder bidPrecision askPrecision in
  Order.mk BUY (BN_toNumber buyPrice)
           (QuantityAndAdjustedTotal.adjustedTotal r) marketSymbol.

(** [sellPrice], lines 156-157: [Math.max(startPrice)] turns the
    BigNumber into a number, which [times] reads again. *)
Definition sellPrice (marketSymbol : string) (marketDetails : MarketDetails.t)
    (index : nat) : BigNumber :=
  let market := MarketDetails.market marketDetails in
  let askPrecision := precision (ask_token market) in
  let bigMinSpread := BN_ofNumber (getGridInterval marketSymbol) in
  BN_decimalPlaces
    (BN_times
       (BN_plus (BN_times bigMinSpread (BN_ofZ (0 + (Z.of_nat index + 1))))
                (BN_ofZ 1))
       (BN_ofNumber (BN_toNumber (startPrice marketSymbol marketDetails))))
    askPrecision ROUND_UP.

(** createSellOrder, lines 127-173 *)
Definition createSellOrder (marketSymbol : string)
    (marketDetails : MarketDetails.t) (index : nat) : Order.t :=
  let market := MarketDetails.market marketDetails in
  let askPrecision := precision (ask_token market) in
  let bidPrecision := precision (bid_token market) in
  let minOrder := Number.div (order_min market) (multiplier (ask_token market)) in
  let sellPrice := sellPrice marketSymbol marketDetails index in
  let r := getQuantityAndAdjustedTotal
             (BN_toNumber sellPrice) minOrder bidPrecision askPrecision in
  Order.mk SELL (BN_toNumber sellPrice)
           (QuantityAndAdjustedTotal.quantity r) marketSymbol.

Definition isBuy (o : OpenOrder) : bool := OrderSide_eqb (order_side o) BUY.
Definition isSell (o : OpenOrder) : bool := OrderSide_eqb (order_side o) SELL.

(** The [for] loop of prepareOrders, lines 181-193, with [n] iterations
    left to run. *)
Fixpoint prepareOrders_loop (marketSymbol : string)
    (marketDetails : MarketDetails.t) (n index numBuys numSells : nat)
    (orders : list Order.t) : list Order.t :=
  match n with
  | O => orders
  | S n' =>
      let '(orders, numBuys) :=
        if (numBuys <? gridLevels)%nat
        then (orders ++ [createBuyOrder marketSymbol marketDetails index],
              (numBuys + 1)%nat)
        else (orders, numBuys) in
      let '(orders, numSells) :=
        if (numSells <? gridLevels)%nat
        then (orders ++ [createSellOrder marketSymbol marketDetails index],
              (numSells + 1)%nat)
        else (orders, numSells) in
      prepareOrders_loop marketSymbol marketDetails n' (index + 1)%nat
                         numBuys numSells orders
  end.

(** prepareOrders, lines 176-196 *)
Definition prepareOrders (marketSymbol : string)
    (marketDetails : MarketDetails.t) (openOrders : list OpenOrder)
  : list Order.t :=
  let numBuys := List.length (filter isBuy openOrders) in
  let numSells := List.length (filter isSell openOrders) in
  prepareOrders_loop marketSymbol marketDetails gridLevels 0
                     numBuys numSells [].

End Strategy.

(** ** The strategy cycle

    The collaborators (src/dexapi.js, src/dexrpc.js, the logger of
    src/utils.js) are not part of the strategy: they are parameters.  [W]
    is whatever state of the exchange and of the network their answers
    depend on.  An awaited call either gives a value or throws an error;
    what is logged and which submissions are started is recorded in order.
    The calls of the logger are taken to return, and what is thrown to be an
    Error object, with a message. *)

Record Error : Type := { message : string }.

Record Level : Type := { level : Number.t }.

Record OrderBook : Type := {
  bids : list Level;
  asks : list Level
}.

Inductive Event : Type :=
| LogInfo (msg : string)
| LogError (msg : string)
| SubmitLimitOrder (marketSymbol : string) (orderSide : OrderSide)
                   (quantity price : Number.t).

Record DexApi (W : Type) : Type := {
  getMarketBySymbol : string -> option Market;
  fetchLatestPrice : string -> W -> (Error + Number.t) * W;
  fetchOrderBook : string -> nat -> W -> (Error + OrderBook) * W;
  fetchOpenOrders : string -> W -> (Error + list OpenOrder) * W;
  submitLimitOrder : string -> OrderSide -> Number.t -> Number.t -> W -> W
}.

Arguments getMarketBySymbol {W}.
Arguments fetchLatestPrice {W}.
Arguments fetchOrderBook {W}.
Arguments fetchOpenOrders {W}.
Arguments submitLimitOrder {W}.

Section Cycle.

Variable W : Type.
Variable dexapi : DexApi W.

Variable username : string.
Variable gridLevels : nat.
Variable pairs : list PairConfig.

Record Run : Type := { world : W; events : list Event }.

(** A computation that may throw. *)
Definition M (A : Type) : Type := Run -> (Error + A) * Run.

Definition ret {A} (a : A) : M A := fun r => (inr a, r).

Definition throw {A} (e : Error) : M A := fun r => (inl e, r).

Definition bind {A B} (m : M A) (k : A -> M B) : M B :=
  fun r =>
    match m r with
    | (inl e, r') => (inl e, r')
    | (inr a, r') => k a r'
    end.

(** [try { m } catch (error) { h error }] *)
Definition try_catch {A} (m : M A) (h : Error -> M A) : M A :=
  fun r =>
    match m r with
    | (inl e, r') => h e r'
    | (inr a, r') => (inr a, r')
    end.

(** [await] of a collaborator's answer. *)
Definition await {A} (call : W -> (Error + A) * W) : M A :=
  fun r =>
    let '(a, w) := call (world r) in
    (a, {| world := w; events := events r |}).

Definition emit (ev : Event) : M unit :=
  fun r => (inr tt, {| world := world r; events := events r ++ [ev] |}).

Notation "x <- m ;; k" := (bind m (fun x => k))
  (at level 61, m at next level, right associativity).
Notation "m ;;; k" := (bind m (fun _ => k))
  (at level 61, right associativity).

(** getMarketDetails, lines 13-28.  With an unknown market the source
    goes on with [market] undefined and throws a TypeError at the first
    [market.ask_token] of createBuyOrder or createSellOrder, inside the
    same [try] block and with nothing logged or submitted in between;
    the error is raised here, after the two fetches. *)
Definition getMarketDetails (marketSymbol : string) : M MarketDetails.t :=
  let market := getMarketBySymbol dexapi marketSymbol in
  price <- await (fetchLatestPrice dexapi marketSymbol) ;;
  orderBook <- await (fetchOrderBook dexapi marketSymbol 1) ;;
  let lowestAsk :=
    match asks orderBook with a :: _ => level a | [] => price end in
  let highestBid :=
    match bids orderBook with b :: _ => level b | [] => price end in
  match market with
  | Some market => ret (MarketDetails.mk highestBid lowestAsk market price)
  | None =>
      throw {| message :=
        "Cannot read properties of undefined (reading 'ask_token')" |}
  end.

(** getOpenOrders, lines 30-40 *)
Definition getOpenOrders (marketSymbol : string) : M (list OpenOrder) :=
  match getMarketBySymbol dexapi marketSymbol with
  | None =>
      throw {| message := "Market " ++ marketSymbol ++ " does not exist" |}
  | Some market =>
      allOrders <- await (fetchOpenOrders dexapi username) ;;
      ret (filter (fun order => order_market_id order =? market_id market)%nat
                  allOrders)
  end.

(** placeOrders, lines 198-203: every submission is started, none is
    awaited, and no outcome comes back to the caller. *)
Fixpoint placeOrders (orders : list Order.t) : M unit :=
  match orders with
  | [] => ret tt
  | order :: rest =>
      (fun r =>
         (inr tt,
          {| world := submitLimitOrder dexapi
               (Order.marketSymbol order) (Order.orderSide order)
               (Order.quantity order) (Order.price order) (world r);
             events := events r ++
               [SubmitLimitOrder (Order.marketSymbol order)
                  (Order.orderSide order) (Order.quantity order)
                  (Order.price order)] |})) ;;;
      placeOrders rest
  end.

(** How the [try] block of one iteration ends: by falling through to
    the next iteration, or by the [return] of line 224. *)
Inductive Completion : Type := Normal | Return.

(** The [try] block of trade, lines 217-229 *)
Definition trade_try (pair_i : PairConfig) : M Completion :=
  openOrders <- getOpenOrders (symbol pair_i) ;;
  let buys := filter isBuy openOrders in
  let sells := filter isSell openOrders in
  if (gridLevels <=? List.length buys)%nat
     && (gridLevels <=? List.length sells)%nat
  then
    emit (LogInfo ("nothing to do - we have enough orders on the books for "
                   ++ symbol pair_i)) ;;;
    ret Return
  else
    marketDetails <- getMarketDetails (symbol pair_i) ;;
    let preparedOrders :=
      prepareOrders gridLevels pairs (symbol pair_i) marketDetails openOrders in
    placeOrders preparedOrders ;;;
    ret Normal.

(** The [for] loop of trade, lines 212-233, from the pairs still to
    visit. *)
Fixpoint trade_from (rest : list PairConfig) : M unit :=
  match rest with
  | [] => ret tt
  | pair_i :: rest' =>
      emit (LogInfo ("Executing " ++ symbol pair_i
                     ++ " market maker trades on account " ++ username)) ;;;
      c <- try_catch (trade_try pair_i)
             (fun error => emit (LogError (message error)) ;;; ret Normal) ;;
      match c with
      | Return => ret tt
      | Normal => trade_from rest'
      end
  end.

(** trade, lines 211-234 *)
Definition trade : M unit := trade_from pairs.

End Cycle.

Arguments world {W}.
Arguments events {W}.

(** ** What a BigNumber denotes *)

Definition Qpow10 (e : Z) : Q := Qpower (inject_Z 10) e.

(** [BN_is x q]: [x] is a finite decimal of value [q]. *)
Definition BN_is (x : BigNumber) (q : Q) : Prop :=
  match x with
  | BN_finite s c e => (inject_Z (BN_signed s c) * Qpow10 e == q)%Q
  | _ => False
  end.

(** Rounding a rational to an integer, mode by mode. *)
Definition Zround (rm : RoundingMode) (y : Q) : Z :=
  match rm with
  | ROUND_UP => if Qle_bool 0 y then Qceiling y else Qfloor y
  | ROUND_DOWN => if Qle_bool 0 y then Qfloor y else Qceiling y
  | ROUND_HALF_UP =>
      if Qle_bool 0 y then Qfloor (y + (1 # 2)) else Qceiling (y - (1 # 2))
  end.

(** Rounding a rational to [dp] decimal places. *)
Definition Qround (rm : RoundingMode) (q : Q) (dp : Z) : Q :=
  (inject_Z (Zround rm (q * Qpow10 dp)) / Qpow10 dp)%Q.

(** Comparison of BigNumbers by value, the infinities at both ends and
    NaN comparable with nothing (isLessThanOrEqualTo, isLessThan). *)
Definition BN_le (x y : BigNumber) : Prop :=
  match x, y with
  | BN_NaN, _ | _, BN_NaN => False
  | BN_Infinity sx, BN_Infinity sy => sx = true \/ sy = false
  | BN_Infinity sx, BN_finite _ _ _ => sx = true
  | BN_finite _ _ _, BN_Infinity sy => sy = false
  | BN_finite sx cx ex, BN_finite sy cy ey =>
      (inject_Z (BN_signed sx cx) * Qpow10 ex
       <= inject_Z (BN_signed sy cy) * Qpow10 ey)%Q
  end.

Definition BN_lt (x y : BigNumber) : Prop :=
  match x, y with
  | BN_NaN, _ | _, BN_NaN => False
  | BN_Infinity sx, BN_Infinity sy => sx = true /\ sy = false
  | BN_Infinity sx, BN_finite _ _ _ => sx = true
  | BN_finite _ _ _, BN_Infinity sy => sy = false
  | BN_finite sx cx ex, BN_finite sy cy ey =>
      (inject_Z (BN_signed sx cx) * Qpow10 ex
       < inject_Z (BN_signed sy cy) * Qpow10 ey)%Q
  end.

(** ** Vocabulary of the properties *)

(** The step of the two configuration scans. *)
Definition lookup_step {A : Type} (get : PairConfig -> A)
    (marketSymbol : string) (acc : A) (p : PairConfig) : A :=
  if String.eqb marketSymbol (symbol p) then get p else acc.

Definition buyOrder (o : Order.t) : bool :=
  OrderSide_eqb (Order.orderSide o) BUY.

Definition sellOrder (o : Order.t) : bool :=
  OrderSide_eqb (Order.orderSide o) SELL.

(** What placeOrders hands to submitLimitOrder for one order. *)
Definition submission (order : Order.t) : Event :=
  SubmitLimitOrder (Order.marketSymbol order) (Order.orderSide order)
                   (Order.quantity order) (Order.price order).

(** The run after the first log line of an iteration of trade. *)
Definition announced {W : Type} (username : string) (pair_i : PairConfig)
    (r : Run W) : Run W :=
  {| world := world r;
     events := events r ++
       [LogInfo ("Executing " ++ symbol pair_i
                 ++ " market maker trades on account " ++ username)] |}.

(** [Number_signed s x]: [x] is a zero, a finite number or an infinity of
    sign [s]. *)
Definition Number_signed (s : bool) (x : Number.t) : Prop :=
  match x with
  | S754_zero s' | S754_infinity s' | S754_finite s' _ _ => s' = s
  | S754_nan => False
  end.

(** ** Inputs of the examples *)

Module Examples.

Definition token (p : nat) : Token :=
  {| precision := p; multiplier := num 1 (Z.of_nat p) |}.

(** A market quoted with 6 decimals, sized with 4, minimum order 1. *)
Definition XPR_XMD : Market :=
  {| market_id := 1; bid_token := token 4; ask_token := token 6;
     order_min := num 1000000 0 |}.

(** The same market quoted with [p] decimals. *)
Definition quoted (p : nat) : Market :=
  {| market_id := 1; bid_token := token 4; ask_token := token p;
     order_min := num 1 (Z.of_nat p) |}.

Definition pair_of (interval : Number.t) (b : JsValue) : PairConfig :=
  {| symbol := "XPR_XMD"; gridInterval := interval; base := b |}.

(** Best bid 100, best ask 102, last trade 101.5. *)
Definition snapshot : MarketDetails.t :=
  MarketDetails.mk (num 100 0) (num 102 0) XPR_XMD (num 1015 (-1)).

(** Best bid 1, best ask 1.0000000000000002 (the next number after 1),
    quoted with 4 decimals. *)
Definition narrow : MarketDetails.t :=
  MarketDetails.mk (num 1 0) (num 10000000000000002 (-16)) (quoted 4)
                   (num 1 0).

(** The same bid and ask on a market quoted with 30 decimals. *)
Definition fine : MarketDetails.t :=
  MarketDetails.mk (num 1 0) (num 10000000000000002 (-16)) (quoted 30)
                   (num 1 0).

(** Bid, ask and last trade all 1, quoted with 2 decimals. *)
Definition flat : MarketDetails.t :=
  MarketDetails.mk (num 1 0) (num 1 0) (quoted 2) (num 1 0).

(** One buy and one sell open on XPR_XMD, nothing open on XBTC_XMD. *)
Definition openOrders : list OpenOrder :=
  [ {| order_market_id := 1; order_side := BUY |};
    {| order_market_id := 1; order_side := SELL |} ].

Definition XBTC_XMD : Market :=
  {| market_id := 2; bid_token := token 8; ask_token := token 6;
     order_min := num 1000000 0 |}.

(** An exchange that lists the two markets, answers every fetch, trades
    both at 1 with empty books, and keeps no state. *)
Definition exchange : DexApi unit :=
  {| getMarketBySymbol := fun marketSymbol =>
       if String.eqb marketSymbol "XPR_XMD" then Some XPR_XMD
       else if String.eqb marketSymbol "XBTC_XMD" then Some XBTC_XMD
       else None;
     fetchLatestPrice := fun _ w => (inr (num 1 0), w);
     fetchOrderBook := fun _ _ w => (inr {| bids := []; asks := [] |}, w);
     fetchOpenOrders := fun _ w => (inr openOrders, w);
     submitLimitOrder := fun _ _ _ _ w => w |}.

Definition pair_for (marketSymbol : string) : PairConfig :=
  {| symbol := marketSymbol; gridInterval := num 1 (-2);
     base := JsString "AVERAGE" |}.

Definition start : Run unit := {| world := tt; events := [] |}.

End Examples.

(** ** Vocabulary and inputs of the further properties *)

(** One unit of the last place. *)
Definition tick (dp : Z) : Q := (/ Qpow10 dp)%Q.

(** The events that are submissions. *)
Definition is_submission (ev : Event) : bool :=
  match ev with
  | SubmitLimitOrder _ _ _ _ => true
  | _ => false
  end.

(** The orders built at one level of the ladder, for a side that is
    [buys] and [sells] orders short. *)
Definition level_orders (pairs : list PairConfig) (marketSymbol : string)
    (marketDetails : MarketDetails.t) (buys sells : nat) (index : nat)
  : list Order.t :=
  (if (index <? buys)%nat
   then [createBuyOrder pairs marketSymbol marketDetails index] else [])
  ++ (if (index <? sells)%nat
      then [createSellOrder pairs marketSymbol marketDetails index] else []).

(** The test of line 222: both sides have gridLevels orders or more. *)
Definition enough (gridLevels : nat) (openOrders : list OpenOrder) : bool :=
  (gridLevels <=? List.length (filter isBuy openOrders))%nat
  && (gridLevels <=? List.length (filter isSell openOrders))%nat.

Module Scenarios.

Definition failure : Error := {| message := "request failed" |}.

(** An exchange whose open-order listing fails. *)
Definition offline : DexApi unit :=
  {| getMarketBySymbol := getMarketBySymbol Examples.exchange;
     fetchLatestPrice := fetchLatestPrice Examples.exchange;
     fetchOrderBook := fetchOrderBook Examples.exchange;
     fetchOpenOrders := fun _ w => (inl failure, w);
     submitLimitOrder := submitLimitOrder Examples.exchange |}.

(** An exchange that lists the open orders but gives no price. *)
Definition no_price : DexApi unit :=
  {| getMarketBySymbol := getMarketBySymbol Examples.exchange;
     fetchLatestPrice := fun _ w => (inl failure, w);
     fetchOrderBook := fetchOrderBook Examples.exchange;
     fetchOpenOrders := fetchOpenOrders Examples.exchange;
     submitLimitOrder := submitLimitOrder Examples.exchange |}.

End Scenarios.

(** ** Decimals and the numbers read from them *)

(** The rational a finite number is: its mantissa times a power of two,
    with its sign. *)
Definition Number_is (x : Number.t) (q : Q) : Prop :=
  match x with
  | S754_zero _ => (q == 0)%Q
  | S754_finite s m e =>
      (inject_Z (if s then Zneg m else Zpos m) * Qpower 2 e == q)%Q
  | _ => False
  end.

(** [x <= y] on numbers, by the comparison of the Standard Library: false
    when either is NaN, and on numbers in the form rounding leaves them in
    the order of their values. *)
Definition Number_le (x y : Number.t) : Prop := SFleb x y = true.

(** The power of two of a binary exponent. *)
Definition Q2 (e : Z) : Q := Qpower 2 e.

(** Where the rounding of the Standard Library holds a non-negative
    rational [x] while it works on it: at mantissa [m] and exponent [e], on
    the spot ([loc_Exact]) or above it by less than, exactly, or more than
    half a unit of [2^e]. *)
Definition located (x : Q) (m e : Z) (l : location) : Prop :=
  match l with
  | loc_Exact => (x == inject_Z m * Q2 e)%Q
  | loc_Inexact Lt =>
      (inject_Z m * Q2 e < x)%Q /\ (x < (inject_Z m + (1 # 2)) * Q2 e)%Q
  | loc_Inexact Eq => (x == (inject_Z m + (1 # 2)) * Q2 e)%Q
  | loc_Inexact Gt =>
      ((inject_Z m + (1 # 2)) * Q2 e < x)%Q /\ (x < (inject_Z m + 1) * Q2 e)%Q
  end.

(** Held with the exponent binary64 gives to [x]: 53 digits, or fewer at
    the least exponent -1074. *)
Definition canonical (x : Q) (m e : Z) (l : location) : Prop :=
  located x m e l /\ 0 <= m < 2 ^ 53 /\ -1074 <= e /\
  (e = -1074 \/ 2 ^ 52 <= m).

(** What binary_round_aux does after its first shift. *)
Definition finish (s : bool) (m e : Z) (l : location) : Number.t :=
  let '(mrs, e') :=
    shr_fexp Number.prec Number.emax (round_nearest_even m l) e loc_Exact in
  match shr_m mrs with
  | Z0 => S754_zero s
  | Zpos m' =>
      if e' <=? Number.emax - Number.prec
      then S754_finite s m' e' else S754_infinity s
  | Zneg _ => S754_nan
  end.

(** Exponent and mantissa of the number nearest to one in canonical place:
    the mantissa rounded to nearest even, carried into the next exponent
    when it reaches 2^53. *)
Definition placed (m e : Z) (l : location) : Z * Z :=
  let m' := round_nearest_even m l in
  if m' =? 2 ^ 53 then (e + 1, 2 ^ 52) else (e, m').

(** The number of an exponent and a mantissa: a zero, a finite number, or
    an infinity beyond the largest exponent 971. *)
Definition of_placed (s : bool) (k : Z * Z) : Number.t :=
  match snd k with
  | Z0 => S754_zero s
  | Zpos m => if fst k <=? 971 then S754_finite s m (fst k) else S754_infinity s
  | Zneg _ => S754_nan
  end.

(** A finite number in the form rounding leaves it in: fewer than 2^53 in
    the mantissa, and 2^52 or more unless the exponent is the least. *)
Definition normal (m : positive) (e : Z) : Prop :=
  Zpos m < 2 ^ 53 /\ -1074 <= e <= 971 /\ (e = -1074 \/ 2 ^ 52 <= Zpos m).

Definition Number_normal (x : Number.t) : Prop :=
  match x with
  | S754_finite _ m e => normal m e
  | _ => True
  end.

Module Readings.

(** Bid, ask and last trade all 123456789012.5, quoted with 6 decimals. *)
Definition large : MarketDetails.t :=
  MarketDetails.mk (num 1234567890125 (-1)) (num 1234567890125 (-1))
                   (Examples.quoted 6) (num 1234567890125 (-1)).

(** Bid, ask and last trade all 1, quoted with 30 decimals. *)
Definition deep : MarketDetails.t :=
  MarketDetails.mk (num 1 0) (num 1 0) (Examples.quoted 30) (num 1 0).

End Readings.

(** * Properties *)

(** ** BigNumber arithmetic is arithmetic on the values *)

#[global] Instance Zround_comp (rm : RoundingMode) : Proper (Qeq ==> eq) (Zround rm).
Proof.
  intros y y' E.
  assert (Hb : Qle_bool 0 y = Qle_bool 0 y') by (rewrite E; reflexivity).
  assert (Hf : Qfloor y = Qfloor y') by (apply Qfloor_comp; exact E).
  assert (Hc : Qceiling y = Qceiling y') by (apply Qceiling_comp; exact E).
  assert (Hf2 : Qfloor (y + (1 # 2)) = Qfloor (y' + (1 # 2)))
    by (apply Qfloor_comp; rewrite E; reflexivity).
  assert (Hc2 : Qceiling (y - (1 # 2)) = Qceiling (y' - (1 # 2)))
    by (apply Qceiling_comp; rewrite E; reflexivity).
  destruct rm; unfold Zround; rewrite Hb;
    destruct (Qle_bool 0 y'); assumption.
Qed.

#[global] Instance Qround_comp (rm : RoundingMode) :
  Proper (Qeq ==> eq ==> Qeq) (Qround rm).
Proof.
  intros q q' E dp dp' <-. unfold Qround. rewrite E. reflexivity.
Qed.

#[global] Instance BN_is_comp (x : BigNumber) : Proper (Qeq ==> iff) (BN_is x).
Proof.
  intros q q' E. destruct x; simpl; try tauto. rewrite E. tauto.
Qed.

Lemma pow10_spec (k : Z) : Zpos (pow10 k) = 10 ^ Z.max 0 k.
Proof.
  destruct k as [|p|p]; simpl; try reflexivity.
  rewrite Pos2Z.inj_pow. reflexivity.
Qed.

Lemma Qpow10_pos (e : Z) : (0 < Qpow10 e)%Q.
Proof. apply Qpower_0_lt. reflexivity. Qed.

Lemma Qpow10_nonzero (e : Z) : ~ (Qpow10 e == 0)%Q.
Proof. pose proof (Qpow10_pos e). intros E. rewrite E in H. discriminate. Qed.

Lemma Qpow10_add (a b : Z) : (Qpow10 (a + b) == Qpow10 a * Qpow10 b)%Q.
Proof. apply Qpower_plus. discriminate. Qed.

Lemma Qpow10_opp (a : Z) : (Qpow10 (- a) == / Qpow10 a)%Q.
Proof. apply Qpower_opp. Qed.

Lemma Qpow10_Z (k : Z) : 0 <= k -> (Qpow10 k == inject_Z (10 ^ k))%Q.
Proof. intros H. symmetry. apply Zpower_Qpower. exact H. Qed.

Lemma Qpow10_pow10 (k : Z) : 0 <= k -> (inject_Z (Zpos (pow10 k)) == Qpow10 k)%Q.
Proof.
  intros H. rewrite pow10_spec, Z.max_r by exact H.
  symmetry. apply Qpow10_Z. exact H.
Qed.

Lemma pow10_neg (k : Z) : k <= 0 -> pow10 k = 1%positive.
Proof. destruct k; simpl; try reflexivity. lia. Qed.

Lemma pow10_ratio (k : Z) :
  (inject_Z (Zpos (pow10 k)) / inject_Z (Zpos (pow10 (- k))) == Qpow10 k)%Q.
Proof.
  destruct (Z_le_gt_dec 0 k) as [H|H].
  - rewrite (pow10_neg (- k)) by lia. rewrite Qpow10_pow10 by exact H.
    field.
  - rewrite (pow10_neg k) by lia.
    rewrite Qpow10_pow10 by lia. rewrite Qpow10_opp.
    field. apply Qpow10_nonzero.
Qed.

Lemma BN_signed_of_signed (z : Z) (szero : bool) :
  BN_signed (if z =? 0 then szero else z <? 0) (Z.abs_N z) = z.
Proof.
  unfold BN_signed. rewrite N2Z.inj_abs_N.
  destruct (Z.eqb_spec z 0) as [->|H].
  - destruct szero; reflexivity.
  - destruct (Z.ltb_spec z 0); lia.
Qed.

Lemma BN_signed_xorb (sx sy : bool) (cx cy : N) :
  BN_signed (xorb sx sy) (cx * cy) = BN_signed sx cx * BN_signed sy cy.
Proof.
  unfold BN_signed. rewrite N2Z.inj_mul. destruct sx, sy; simpl; lia.
Qed.

Lemma Zround_Z (rm : RoundingMode) (z : Z) : Zround rm (inject_Z z) = z.
Proof.
  assert (Hf : Qfloor (inject_Z z + (1 # 2)) = z).
  { unfold Qfloor, Qplus, inject_Z; simpl.
    symmetry. apply Z.div_unique with (r := 1); lia. }
  assert (Hc : Qceiling (inject_Z z - (1 # 2)) = z).
  { unfold Qceiling, Qfloor, Qminus, Qplus, Qopp, inject_Z; simpl.
    assert (E : - (z * 2 + -1) / 2 = - z) by
      (symmetry; apply Z.div_unique with (r := 1); lia).
    rewrite E. lia. }
  destruct rm; unfold Zround; destruct (Qle_bool 0 (inject_Z z));
    rewrite ?Qfloor_Z, ?Qceiling_Z, ?Hf, ?Hc; reflexivity.
Qed.

(** Rounding [+- c / d]: what [round_bump] computes on the magnitude. *)
Lemma Zround_Qmake (rm : RoundingMode) (s : bool) (c : N) (d : positive) :
  Zround rm (BN_signed s c # d) =
  BN_signed s (round_bump rm (c / Npos d) (c mod Npos d) (Npos d)).
Proof.
  pose proof (N.div_mod c (Npos d) ltac:(discriminate)) as Hdm.
  pose proof (N.mod_lt c (Npos d) ltac:(discriminate)) as Hlt.
  set (q := (c / Npos d)%N) in *. set (r := (c mod Npos d)%N) in *.
  assert (Hc : Z.of_N c = Zpos d * Z.of_N q + Z.of_N r) by lia.
  assert (Hr : 0 <= Z.of_N r < Zpos d) by lia.
  assert (Hq : 0 <= Z.of_N q) by lia.
  clearbody q r. clear Hdm Hlt.
  assert (Hle : forall z : Z, Qle_bool 0 (z # d) = (0 <=? z)).
  { intros z. unfold Qle_bool; simpl. rewrite Z.mul_1_r. reflexivity. }
  unfold Zround, round_bump, Qceiling, Qfloor, Qminus, Qplus, Qopp.
  rewrite !Hle. cbn [Qnum Qden].
  destruct rm, s; unfold BN_signed;
    repeat match goal with
      | |- context [0 <=? ?z] => destruct (Z.leb_spec 0 z)
      | |- context [(?r =? 0)%N] => destruct (N.eqb_spec r 0)
      | |- context [(?a <=? ?b)%N] => destruct (N.leb_spec a b)
      end;
    rewrite ?N2Z.inj_succ; rewrite ?Pos2Z.inj_mul;
    Z.div_mod_to_equations; nia.
Qed.

Lemma Zround_ratio (rm : RoundingMode) (s : bool) (c : N) (d : positive) :
  Zround rm (inject_Z (BN_signed s c) / inject_Z (Zpos d)) =
  BN_signed s (round_bump rm (c / Npos d) (c mod Npos d) (Npos d)).
Proof.
  rewrite <- Zround_Qmake. apply Zround_comp.
  symmetry. apply Qmake_Qdiv.
Qed.

Lemma Qpow10_split (e m : Z) :
  m <= e -> (Qpow10 e == inject_Z (Zpos (pow10 (e - m))) * Qpow10 m)%Q.
Proof.
  intros H. rewrite Qpow10_pow10 by lia. rewrite <- Qpow10_add.
  replace (e - m + m) with e by lia. reflexivity.
Qed.

Lemma Qpow10_opp_div (q : Q) (dp : Z) :
  (q * Qpow10 (- dp) == q / Qpow10 dp)%Q.
Proof. rewrite Qpow10_opp. reflexivity. Qed.

Lemma BN_is_ofZ (z : Z) : BN_is (BN_ofZ z) (inject_Z z).
Proof.
  unfold BN_ofZ, BN_of_signed, BN_is. rewrite BN_signed_of_signed.
  unfold Qpow10. simpl. ring.
Qed.

Lemma BN_is_times (x y : BigNumber) (a b : Q) :
  BN_is x a -> BN_is y b -> BN_is (BN_times x y) (a * b).
Proof.
  destruct x as [| |sx cx ex], y as [| |sy cy ey]; simpl; try tauto.
  intros Ha Hb. rewrite BN_signed_xorb, inject_Z_mult, Qpow10_add.
  rewrite <- Ha, <- Hb. ring.
Qed.

Lemma BN_is_plus (x y : BigNumber) (a b : Q) :
  BN_is x a -> BN_is y b -> BN_is (BN_plus x y) (a + b).
Proof.
  destruct x as [| |sx cx ex], y as [| |sy cy ey]; simpl; try tauto.
  intros Ha Hb. rewrite BN_signed_of_signed.
  rewrite inject_Z_plus, !inject_Z_mult.
  rewrite <- Ha, <- Hb.
  rewrite (Qpow10_split ex (Z.min ex ey)), (Qpow10_split ey (Z.min ex ey))
    by lia.
  ring.
Qed.

Lemma BN_is_decimalPlaces (x : BigNumber) (a : Q) (dp : nat) (rm : RoundingMode) :
  BN_is x a ->
  BN_is (BN_decimalPlaces x dp rm) (Qround rm a (Z.of_nat dp)).
Proof.
  destruct x as [| |s c e]; simpl; try tauto.
  intros Ha. unfold Qround.
  destruct (Z.leb_spec (- Z.of_nat dp) e) as [H|H]; simpl.
  - assert (E : (a * Qpow10 (Z.of_nat dp) ==
                 inject_Z (BN_signed s c * 10 ^ (e + Z.of_nat dp)))%Q).
    { rewrite inject_Z_mult, <- Qpow10_Z by lia.
      rewrite Qpow10_add, <- Ha. ring. }
    rewrite (Zround_comp rm _ _ E), Zround_Z.
    rewrite inject_Z_mult, <- Qpow10_Z by lia. rewrite Qpow10_add.
    field. apply Qpow10_nonzero.
  - set (k := - Z.of_nat dp - e).
    assert (E : (a * Qpow10 (Z.of_nat dp) ==
                 inject_Z (BN_signed s c) / inject_Z (Zpos (pow10 k)))%Q).
    { rewrite Qpow10_pow10 by (unfold k; lia). rewrite <- Ha.
      replace e with (- k + - Z.of_nat dp) by (unfold k; lia).
      rewrite Qpow10_add, !Qpow10_opp. field.
      split; apply Qpow10_nonzero. }
    rewrite (Zround_comp rm _ _ E), Zround_ratio.
    rewrite Qpow10_opp. field. apply Qpow10_nonzero.
Qed.

Lemma BN_is_dividedBy (x y : BigNumber) (a b : Q) :
  BN_is x a -> BN_is y b -> ~ (b == 0)%Q ->
  BN_is (BN_dividedBy x y) (Qround ROUND_HALF_UP (a / b) DECIMAL_PLACES).
Proof.
  destruct x as [| |sx cx ex], y as [| |sy cy ey]; simpl; try tauto.
  intros Ha Hb Hnz.
  destruct (N.eqb_spec cy 0) as [->|Hcy].
  { exfalso. apply Hnz. rewrite <- Hb. unfold BN_signed. destruct sy; simpl; ring. }
  destruct (N.eqb_spec cx 0) as [->|Hcx].
  { simpl. assert (E : (a == 0)%Q).
    { rewrite <- Ha. unfold BN_signed. destruct sx; simpl; ring. }
    unfold Qround.
    assert (E' : (a / b * Qpow10 DECIMAL_PLACES == inject_Z 0)%Q).
    { rewrite E. unfold Qdiv. ring. }
    rewrite (Zround_comp _ _ _ E'), Zround_Z.
    unfold BN_signed. destruct (xorb sx sy); simpl; unfold Qdiv; ring. }
  cbn [BN_is]. unfold Qround.
  set (k := ex - ey + DECIMAL_PLACES).
  destruct cy as [|py]; [congruence|].
  assert (Hsy : ~ (inject_Z (BN_signed sy (Npos py)) == 0)%Q).
  { unfold BN_signed. destruct sy; intros E; inversion E. }
  assert (E : (a / b * Qpow10 DECIMAL_PLACES ==
               inject_Z (BN_signed (xorb sx sy) (cx * Npos (pow10 k)))
               / inject_Z (Zpos (py * pow10 (- k))))%Q).
  { rewrite BN_signed_xorb. rewrite Pos2Z.inj_mul, !inject_Z_mult.
    rewrite <- Ha, <- Hb.
    assert (Ek : (Qpow10 ex * Qpow10 DECIMAL_PLACES ==
                  Qpow10 ey * Qpow10 k)%Q).
    { rewrite <- !Qpow10_add. unfold k.
      replace (ey + (ex - ey + DECIMAL_PLACES)) with (ex + DECIMAL_PLACES) by lia.
      reflexivity. }
    rewrite <- (pow10_ratio k) in Ek.
    assert (Hp : forall p, ~ (inject_Z (Zpos p) == 0)%Q)
      by (intros p E; inversion E).
    pose proof (Qpow10_nonzero ey) as Hey. pose proof (Hp (pow10 (- k))) as Hmk.
    pose proof (Hp py) as Hpy.
    set (A := inject_Z (BN_signed sx cx)).
    transitivity (A * (Qpow10 ex * Qpow10 DECIMAL_PLACES)
                  / (inject_Z (BN_signed sy (N.pos py)) * Qpow10 ey))%Q.
    { field. split; assumption. }
    rewrite Ek.
    destruct sy; unfold BN_signed;
      change (Z.of_N (Npos py)) with (Zpos py);
      change (Z.of_N (Npos (pow10 k))) with (Zpos (pow10 k));
      rewrite ?inject_Z_opp; field; repeat split; assumption. }
  change (cx * Npos (pow10 k))%N with (cx * Npos (pow10 k))%N.
  change (Npos py * Npos (pow10 (- k)))%N with (Npos (py * pow10 (- k))).
  rewrite (Zround_comp _ _ _ E), Zround_ratio.
  exact (Qpow10_opp_div _ DECIMAL_PLACES).
Qed.

(** ** Rounding as a function on rationals *)

Lemma Qle_bool_false (x y : Q) : Qle_bool x y = false -> (y < x)%Q.
Proof.
  intros H. apply Qnot_le_lt. intros L.
  apply Qle_bool_iff in L. congruence.
Qed.

Lemma Qfloor_nonneg (y : Q) : (0 <= y)%Q -> 0 <= Qfloor y.
Proof. intros H. apply (Qfloor_resp_le 0 y H). Qed.

Lemma Qceiling_nonneg (y : Q) : (0 <= y)%Q -> 0 <= Qceiling y.
Proof. intros H. apply (Qceiling_resp_le 0 y H). Qed.

Lemma Qceiling_nonpos (y : Q) : (y <= 0)%Q -> Qceiling y <= 0.
Proof. intros H. apply (Qceiling_resp_le y 0 H). Qed.

Lemma Qfloor_nonpos (y : Q) : (y <= 0)%Q -> Qfloor y <= 0.
Proof. intros H. apply (Qfloor_resp_le y 0 H). Qed.

Lemma Zround_down_mono (y y' : Q) :
  (y <= y')%Q -> Zround ROUND_DOWN y <= Zround ROUND_DOWN y'.
Proof.
  intros H. unfold Zround.
  destruct (Qle_bool 0 y) eqn:E; destruct (Qle_bool 0 y') eqn:E'.
  - apply Qfloor_resp_le, H.
  - apply Qle_bool_iff in E. apply Qle_bool_false in E'. lra.
  - apply Qle_bool_false in E. apply Qle_bool_iff in E'.
    pose proof (Qceiling_nonpos y ltac:(lra)).
    pose proof (Qfloor_nonneg y' E'). lia.
  - apply Qceiling_resp_le, H.
Qed.

Lemma Zround_up_mono (y y' : Q) :
  (y <= y')%Q -> Zround ROUND_UP y <= Zround ROUND_UP y'.
Proof.
  intros H. unfold Zround.
  destruct (Qle_bool 0 y) eqn:E; destruct (Qle_bool 0 y') eqn:E'.
  - apply Qceiling_resp_le, H.
  - apply Qle_bool_iff in E. apply Qle_bool_false in E'. lra.
  - apply Qle_bool_false in E. apply Qle_bool_iff in E'.
    pose proof (Qfloor_nonpos y ltac:(lra)).
    pose proof (Qceiling_nonneg y' E'). lia.
  - apply Qfloor_resp_le, H.
Qed.

Lemma Qround_mono_of (rm : RoundingMode) (dp : Z) :
  (forall y y', (y <= y')%Q -> Zround rm y <= Zround rm y') ->
  forall a b, (a <= b)%Q -> (Qround rm a dp <= Qround rm b dp)%Q.
Proof.
  intros Hm a b H. unfold Qround.
  pose proof (Qpow10_pos dp) as Hp.
  apply Qmult_le_compat_r.
  - rewrite <- Zle_Qle. apply Hm. apply Qmult_le_compat_r; lra.
  - apply Qlt_le_weak, Qinv_lt_0_compat, Hp.
Qed.

Lemma Qround_down_mono (dp : Z) (a b : Q) :
  (a <= b)%Q -> (Qround ROUND_DOWN a dp <= Qround ROUND_DOWN b dp)%Q.
Proof. apply Qround_mono_of, Zround_down_mono. Qed.

Lemma Qround_up_mono (dp : Z) (a b : Q) :
  (a <= b)%Q -> (Qround ROUND_UP a dp <= Qround ROUND_UP b dp)%Q.
Proof. apply Qround_mono_of, Zround_up_mono. Qed.

Lemma Qround_0 (rm : RoundingMode) (dp : Z) : (Qround rm 0 dp == 0)%Q.
Proof.
  unfold Qround.
  assert (E : (0 * Qpow10 dp == inject_Z 0)%Q) by ring.
  rewrite (Zround_comp rm _ _ E), Zround_Z. unfold Qdiv. ring.
Qed.

(** Rounding down never goes above a non-negative value, nor above zero
    for a negative one. *)
Lemma Qround_down_le (dp : Z) (a : Q) :
  (0 <= a)%Q -> (Qround ROUND_DOWN a dp <= a)%Q.
Proof.
  intros H. unfold Qround. pose proof (Qpow10_pos dp) as Hp.
  apply Qle_shift_div_r; [exact Hp|].
  unfold Zround.
  assert (Hy : (0 <= a * Qpow10 dp)%Q) by (apply Qmult_le_0_compat; lra).
  apply Qle_bool_iff in Hy. rewrite Hy. apply Qfloor_le.
Qed.

Lemma Qround_down_nonpos (dp : Z) (a : Q) :
  (a <= 0)%Q -> (Qround ROUND_DOWN a dp <= 0)%Q.
Proof.
  intros H. rewrite <- (Qround_0 ROUND_DOWN dp).
  apply Qround_down_mono, H.
Qed.

(** Rounding up never goes below a non-negative value. *)
Lemma Qround_up_ge (dp : Z) (a : Q) :
  (0 <= a)%Q -> (a <= Qround ROUND_UP a dp)%Q.
Proof.
  intros H. unfold Qround. pose proof (Qpow10_pos dp) as Hp.
  apply Qle_shift_div_l; [exact Hp|].
  unfold Zround.
  assert (Hy : (0 <= a * Qpow10 dp)%Q) by (apply Qmult_le_0_compat; lra).
  apply Qle_bool_iff in Hy. rewrite Hy. apply Qle_ceiling.
Qed.

Lemma Qround_up_nonneg (dp : Z) (a : Q) :
  (0 <= a)%Q -> (0 <= Qround ROUND_UP a dp)%Q.
Proof. intros H. pose proof (Qround_up_ge dp a H). lra. Qed.

Lemma inject_Z_minus (x y : Z) :
  inject_Z (x - y) = (inject_Z x - inject_Z y)%Q.
Proof.
  unfold Z.sub, Qminus. rewrite inject_Z_plus, inject_Z_opp. reflexivity.
Qed.

Lemma Qceiling_unique (x : Q) (z : Z) :
  (inject_Z z - 1 < x)%Q -> (x <= inject_Z z)%Q -> Qceiling x = z.
Proof.
  intros Hlo Hhi.
  pose proof (Qceiling_resp_le _ _ Hhi) as H1. rewrite Qceiling_Z in H1.
  pose proof (Qle_ceiling x) as H2.
  assert (H3 : z - 1 < Qceiling x).
  { rewrite Zlt_Qlt, inject_Z_minus.
    change (inject_Z 1) with 1%Q. lra. }
  lia.
Qed.

(** The quotient is first rounded to 20 places, then rounded up to [bp]
    places.  The two roundings agree with one rounding up of the exact
    value unless the first one lands on the [bp]-place grid from above. *)
Lemma Qround_up_after_half_up (X : Q) (bp : Z) :
  (0 <= X)%Q -> 0 <= bp <= DECIMAL_PLACES ->
  let q20 := Qround ROUND_HALF_UP X DECIMAL_PLACES in
  ((X <= q20)%Q \/ ~ (Qround ROUND_UP q20 bp == q20)%Q) ->
  (Qround ROUND_UP q20 bp == Qround ROUND_UP X bp)%Q.
Proof.
  intros HX Hbp q20 Hno.
  set (u := Qpow10 bp). set (t := Qpow10 DECIMAL_PLACES).
  set (v := Zpos (pow10 (DECIMAL_PLACES - bp))).
  assert (Hu : (0 < u)%Q) by apply Qpow10_pos.
  assert (Hv : (0 < inject_Z v)%Q) by reflexivity.
  assert (Ht : (t == inject_Z v * u)%Q)
    by (apply Qpow10_split; lia).
  assert (Htpos : (0 < t)%Q) by apply Qpow10_pos.
  set (y := (X * t)%Q).
  assert (Hy : (0 <= y)%Q) by (apply Qmult_le_0_compat; lra).
  set (m := Qfloor (y + (1 # 2))).
  assert (Em : Zround ROUND_HALF_UP y = m).
  { unfold Zround. apply Qle_bool_iff in Hy. rewrite Hy. reflexivity. }
  assert (Eq20 : (q20 == inject_Z m / t)%Q).
  { unfold q20, Qround. fold t. fold y. rewrite Em. reflexivity. }
  set (n := Qceiling (X * u)).
  pose proof (Qle_ceiling (X * u)) as F1. fold n in F1.
  pose proof (Qceiling_lt (X * u)) as F2. fold n in F2.
  rewrite inject_Z_minus in F2. change (inject_Z 1) with 1%Q in F2.
  assert (Ey : (y == X * u * inject_Z v)%Q) by (unfold y; rewrite Ht; ring).
  assert (F1' : (y <= inject_Z (n * v))%Q).
  { rewrite inject_Z_mult, Ey. apply Qmult_le_compat_r; lra. }
  assert (F2' : (inject_Z ((n - 1) * v) < y)%Q).
  { rewrite inject_Z_mult, inject_Z_minus, Ey.
    change (inject_Z 1) with 1%Q. apply Qmult_lt_compat_r; lra. }
  pose proof (Qfloor_le (y + (1 # 2))) as Hm1. fold m in Hm1.
  pose proof (Qlt_floor (y + (1 # 2))) as Hm2. fold m in Hm2.
  rewrite inject_Z_plus in Hm2. change (inject_Z 1) with 1%Q in Hm2.
  assert (Hup : m <= n * v).
  { apply Z.lt_succ_r. unfold Z.succ. rewrite Zlt_Qlt, inject_Z_plus.
    change (inject_Z 1) with 1%Q. lra. }
  assert (Hlo : (n - 1) * v <= m).
  { apply Z.lt_succ_r. unfold Z.succ. rewrite Zlt_Qlt, inject_Z_plus.
    change (inject_Z 1) with 1%Q. lra. }
  assert (Hm0 : 0 <= m).
  { apply (Qfloor_nonneg (y + (1 # 2))). lra. }
  assert (Eq20u : (q20 * u == inject_Z m / inject_Z v)%Q).
  { rewrite Eq20, Ht. field. split; lra. }
  assert (Hq20u : (0 <= inject_Z m / inject_Z v)%Q).
  { apply Qle_shift_div_l; [exact Hv|]. rewrite Qmult_0_l.
    change 0%Q with (inject_Z 0). rewrite <- Zle_Qle. exact Hm0. }
  assert (Eup : Zround ROUND_UP (q20 * u) = Qceiling (inject_Z m / inject_Z v)).
  { rewrite (Zround_comp ROUND_UP _ _ Eq20u). unfold Zround.
    apply Qle_bool_iff in Hq20u. rewrite Hq20u. reflexivity. }
  assert (EupX : Zround ROUND_UP (X * u) = n).
  { unfold Zround.
    assert (H0 : (0 <= X * u)%Q) by (apply Qmult_le_0_compat; lra).
    apply Qle_bool_iff in H0. rewrite H0. reflexivity. }
  assert (Hstrict : (n - 1) * v < m).
  { destruct (Z.eq_dec m ((n - 1) * v)) as [E|NE]; [exfalso|lia].
    assert (Eg : (q20 * u == inject_Z (n - 1))%Q).
    { rewrite Eq20u, E, inject_Z_mult. field. lra. }
    destruct Hno as [Hno|Hno].
    - assert (X * u <= q20 * u)%Q by (apply Qmult_le_compat_r; lra).
      rewrite Eg, inject_Z_minus in H. change (inject_Z 1) with 1%Q in H. lra.
    - apply Hno. unfold Qround. fold u.
      rewrite (Zround_comp ROUND_UP _ _ Eg), Zround_Z, <- Eg.
      field. lra. }
  unfold Qround. fold u. rewrite Eup, EupX.
  assert (En : Qceiling (inject_Z m / inject_Z v) = n).
  { apply Qceiling_unique.
    - apply Qlt_shift_div_l; [exact Hv|].
      rewrite Zlt_Qlt, inject_Z_mult, inject_Z_minus in Hstrict.
      exact Hstrict.
    - apply Qle_shift_div_r; [exact Hv|].
      rewrite <- inject_Z_mult, <- Zle_Qle. exact Hup. }
  rewrite En. reflexivity.
Qed.

(** ** More on rounding *)

Lemma Zround_half_up_mono (y y' : Q) :
  (y <= y')%Q -> Zround ROUND_HALF_UP y <= Zround ROUND_HALF_UP y'.
Proof.
  intros H. unfold Zround.
  destruct (Qle_bool 0 y) eqn:E; destruct (Qle_bool 0 y') eqn:E'.
  - apply Qfloor_resp_le. lra.
  - apply Qle_bool_iff in E. apply Qle_bool_false in E'. lra.
  - apply Qle_bool_false in E. apply Qle_bool_iff in E'.
    pose proof (Qceiling_nonpos (y - (1 # 2)) ltac:(lra)).
    pose proof (Qfloor_nonneg (y' + (1 # 2)) ltac:(lra)). lia.
  - apply Qceiling_resp_le. lra.
Qed.

Lemma Qround_half_up_mono (dp : Z) (a b : Q) :
  (a <= b)%Q -> (Qround ROUND_HALF_UP a dp <= Qround ROUND_HALF_UP b dp)%Q.
Proof. apply Qround_mono_of, Zround_half_up_mono. Qed.

(** A value already on the grid is left alone. *)
Lemma Qround_on_grid (rm : RoundingMode) (q : Q) (dp z : Z) :
  (q * Qpow10 dp == inject_Z z)%Q -> (Qround rm q dp == q)%Q.
Proof.
  intros E. unfold Qround. rewrite (Zround_comp rm _ _ E), Zround_Z.
  rewrite <- E. field. apply Qpow10_nonzero.
Qed.

Lemma tick_pos (dp : Z) : (0 < tick dp)%Q.
Proof. apply Qinv_lt_0_compat, Qpow10_pos. Qed.

(** Rounding down loses less than one unit of the last place. *)
Lemma Qround_down_gt (dp : Z) (a : Q) :
  (0 <= a)%Q -> (a - tick dp < Qround ROUND_DOWN a dp)%Q.
Proof.
  intros H. unfold Qround, tick. pose proof (Qpow10_pos dp) as Hp.
  set (u := Qpow10 dp) in *.
  assert (Hy : (0 <= a * u)%Q) by (apply Qmult_le_0_compat; lra).
  unfold Zround. apply Qle_bool_iff in Hy. rewrite Hy.
  pose proof (Qlt_floor (a * u)) as F. rewrite inject_Z_plus in F.
  change (inject_Z 1) with 1%Q in F.
  apply Qlt_shift_div_l; [exact Hp|].
  assert (E : ((a - / u) * u == a * u - 1)%Q) by (field; lra).
  rewrite E. lra.
Qed.

(** Rounding up adds less than one unit of the last place. *)
Lemma Qround_up_lt (dp : Z) (a : Q) :
  (0 <= a)%Q -> (Qround ROUND_UP a dp < a + tick dp)%Q.
Proof.
  intros H. unfold Qround, tick. pose proof (Qpow10_pos dp) as Hp.
  set (u := Qpow10 dp) in *.
  assert (Hy : (0 <= a * u)%Q) by (apply Qmult_le_0_compat; lra).
  unfold Zround. apply Qle_bool_iff in Hy. rewrite Hy.
  pose proof (Qceiling_lt (a * u)) as F. rewrite inject_Z_minus in F.
  change (inject_Z 1) with 1%Q in F.
  apply Qlt_shift_div_r; [exact Hp|].
  assert (E : ((a + / u) * u == a * u + 1)%Q) by (field; lra).
  rewrite E. lra.
Qed.

(** Values at least one unit apart stay apart. *)
Lemma Qround_down_strict (dp : Z) (a b : Q) :
  (0 <= a)%Q -> (a + tick dp <= b)%Q ->
  (Qround ROUND_DOWN a dp < Qround ROUND_DOWN b dp)%Q.
Proof.
  intros Ha Hab. pose proof (tick_pos dp) as Ht.
  pose proof (Qround_down_le dp a Ha).
  pose proof (Qround_down_gt dp b ltac:(lra)). lra.
Qed.

Lemma Qround_up_strict (dp : Z) (a b : Q) :
  (0 <= a)%Q -> (a + tick dp <= b)%Q ->
  (Qround ROUND_UP a dp < Qround ROUND_UP b dp)%Q.
Proof.
  intros Ha Hab. pose proof (tick_pos dp) as Ht.
  pose proof (Qround_up_lt dp a Ha).
  pose proof (Qround_up_ge dp b ltac:(lra)). lra.
Qed.

Lemma Zround_down_small (y : Q) : (-1 < y)%Q -> (y < 1)%Q -> Zround ROUND_DOWN y = 0.
Proof.
  intros Hlo Hhi. unfold Zround. destruct (Qle_bool 0 y) eqn:E.
  - apply Qle_bool_iff in E. pose proof (Qfloor_nonneg y E).
    pose proof (Qfloor_le y) as F.
    assert (Qfloor y < 1); [|lia].
    rewrite Zlt_Qlt. change (inject_Z 1) with 1%Q. lra.
  - apply Qle_bool_false in E. pose proof (Qceiling_nonpos y ltac:(lra)).
    pose proof (Qle_ceiling y) as F.
    assert (-1 < Qceiling y); [|lia].
    rewrite Zlt_Qlt. change (inject_Z (-1)) with (-1)%Q. lra.
Qed.

(** Less than one unit of the last place rounds down to zero. *)
Lemma Qround_down_small (dp : Z) (a : Q) :
  (- tick dp < a)%Q -> (a < tick dp)%Q -> (Qround ROUND_DOWN a dp == 0)%Q.
Proof.
  intros Hlo Hhi. unfold Qround, tick in *. pose proof (Qpow10_pos dp) as Hp.
  set (u := Qpow10 dp) in *.
  rewrite Zround_down_small.
  - unfold Qdiv. ring.
  - assert (E : (-1 == (- / u) * u)%Q) by (field; lra).
    rewrite E. apply Qmult_lt_compat_r; assumption.
  - assert (E : (1 == (/ u) * u)%Q) by (field; lra).
    rewrite E. apply Qmult_lt_compat_r; assumption.
Qed.

(** A BigNumber of value zero is a zero. *)
Lemma BN_is_zero (x : BigNumber) (q : Q) :
  BN_is x q -> (q == 0)%Q -> exists s e, x = BN_finite s 0 e.
Proof.
  destruct x as [| |s c e]; simpl; try tauto.
  intros H Hq. pose proof (Qpow10_pos e) as Hp.
  destruct c as [|c]; [exists s, e; reflexivity|exfalso].
  rewrite Hq in H.
  assert (Hz : (inject_Z (BN_signed s (Npos c)) == 0)%Q).
  { destruct (Qmult_integral _ _ H) as [E|E]; [exact E|].
    rewrite E in Hp. discriminate. }
  unfold BN_signed in Hz. destruct s; inversion Hz.
Qed.

Lemma BN_lt_of_values (x y : BigNumber) (a b : Q) :
  BN_is x a -> BN_is y b -> (a < b)%Q -> BN_lt x y.
Proof.
  destruct x as [| |sx cx ex], y as [| |sy cy ey]; simpl; try tauto.
  intros Ha Hb H. rewrite Ha, Hb. exact H.
Qed.

(** ** Configuration lookup *)

Section Lookup.

Context {A : Type} (get : PairConfig -> A) (marketSymbol : string).

Lemma lookup_no_match (l : list PairConfig) (d : A) :
  (forall p, In p l -> symbol p <> marketSymbol) ->
  fold_left (lookup_step get marketSymbol) l d = d.
Proof.
  revert d. induction l as [|p l IH]; intros d H; simpl; [reflexivity|].
  unfold lookup_step at 2.
  destruct (String.eqb_spec marketSymbol (symbol p)) as [E|_].
  - exfalso. apply (H p); [left; reflexivity | symmetry; exact E].
  - apply IH. intros q Hq. apply H. right. exact Hq.
Qed.

Lemma lookup_last_match (before after : list PairConfig) (p : PairConfig)
    (d : A) :
  symbol p = marketSymbol ->
  (forall q, In q after -> symbol q <> marketSymbol) ->
  fold_left (lookup_step get marketSymbol) (before ++ p :: after) d = get p.
Proof.
  intros Hp Hafter. rewrite fold_left_app. simpl.
  rewrite lookup_no_match by exact Hafter.
  unfold lookup_step. rewrite <- Hp, String.eqb_refl. reflexivity.
Qed.

End Lookup.

(** C10: a symbol no pair is configured for gets the grid interval 0.01
    and the base 'AVERAGE'; when several pairs carry the symbol, the
    interval and the base are those of the last of them in the
    configuration. *)
Theorem lookup_default_and_last_match :
  (forall pairs marketSymbol,
      (forall p, In p pairs -> symbol p <> marketSymbol) ->
      getGridInterval pairs marketSymbol = num 1 (-2) /\
      BN_ofNumber (getGridInterval pairs marketSymbol) = BN_finite false 1 (-2) /\
      getBase pairs marketSymbol = JsString "AVERAGE") /\
  (forall before p after marketSymbol,
      symbol p = marketSymbol ->
      (forall q, In q after -> symbol q <> marketSymbol) ->
      getGridInterval (before ++ p :: after) marketSymbol = gridInterval p /\
      getBase (before ++ p :: after) marketSymbol = base p).
Proof.
  split.
  - intros pairs marketSymbol H.
    assert (E : getGridInterval pairs marketSymbol = num 1 (-2))
      by (apply (lookup_no_match gridInterval); exact H).
    split; [exact E|]. split.
    + rewrite E. vm_compute. reflexivity.
    + apply (lookup_no_match base). exact H.
  - intros before p after marketSymbol Hp Hafter. split.
    + apply (lookup_last_match gridInterval); assumption.
    + apply (lookup_last_match base); assumption.
Qed.

Lemma lookup_default_and_last_match_witness :
  (getGridInterval [Examples.pair_of (num 5 (-3)) (JsString "BID")] "XBTC_XMD"
     = num 1 (-2) /\
   getBase [Examples.pair_of (num 5 (-3)) (JsString "BID")] "XBTC_XMD"
     = JsString "AVERAGE") /\
  (getGridInterval [Examples.pair_of (num 5 (-3)) (JsString "BID");
                    Examples.pair_of (num 2 (-2)) (JsString "ASK")] "XPR_XMD"
     = num 2 (-2) /\
   getBase [Examples.pair_of (num 5 (-3)) (JsString "BID");
            Examples.pair_of (num 2 (-2)) (JsString "ASK")] "XPR_XMD"
     = JsString "ASK").
Proof.
  destruct lookup_default_and_last_match as [Hdefault Hlast]. split.
  - destruct (Hdefault [Examples.pair_of (num 5 (-3)) (JsString "BID")]
                       "XBTC_XMD"%string) as [H1 [_ H2]].
    + intros p [<-|[]]. simpl. discriminate.
    + split; assumption.
  - apply (Hlast [Examples.pair_of (num 5 (-3)) (JsString "BID")]
                 (Examples.pair_of (num 2 (-2)) (JsString "ASK")) []).
    + reflexivity.
    + intros q [].
Defined.

(** ** Reconciliation *)

Section Reconciler.

Variables (gridLevels : nat) (pairs : list PairConfig).
Variables (marketSymbol : string) (marketDetails : MarketDetails.t).

(** With [n] iterations left, a side that has [k] orders gets one more
    per iteration until it has [gridLevels], at consecutive indices. *)
Lemma loop_buys (n index numBuys numSells : nat) (orders : list Order.t) :
  filter buyOrder (prepareOrders_loop gridLevels pairs marketSymbol marketDetails
       n index numBuys numSells orders) =
  filter buyOrder orders
    ++ map (createBuyOrder pairs marketSymbol marketDetails)
           (seq index (Nat.min n (gridLevels - numBuys))).
Proof.
  revert index numBuys numSells orders.
  induction n as [|n IH]; intros index numBuys numSells orders.
  - simpl. rewrite app_nil_r. reflexivity.
  - cbn [prepareOrders_loop].
    destruct (Nat.ltb_spec numBuys gridLevels) as [Hb|Hb];
      destruct (Nat.ltb_spec numSells gridLevels) as [Hs|Hs];
      rewrite IH, ?filter_app; cbn [filter buyOrder sellOrder];
      rewrite ?app_nil_r.
    + replace (gridLevels - numBuys)%nat
        with (S (gridLevels - (numBuys + 1)))%nat by lia.
      rewrite <- Nat.succ_min_distr. cbn [seq map].
      rewrite <- app_assoc, Nat.add_1_r. reflexivity.
    + replace (gridLevels - numBuys)%nat
        with (S (gridLevels - (numBuys + 1)))%nat by lia.
      rewrite <- Nat.succ_min_distr. cbn [seq map].
      rewrite <- app_assoc, Nat.add_1_r. reflexivity.
    + replace (gridLevels - numBuys)%nat with 0%nat by lia.
      rewrite !Nat.min_0_r. reflexivity.
    + replace (gridLevels - numBuys)%nat with 0%nat by lia.
      rewrite !Nat.min_0_r. reflexivity.
Qed.

Lemma loop_sells (n index numBuys numSells : nat) (orders : list Order.t) :
  filter sellOrder (prepareOrders_loop gridLevels pairs marketSymbol marketDetails
       n index numBuys numSells orders) =
  filter sellOrder orders
    ++ map (createSellOrder pairs marketSymbol marketDetails)
           (seq index (Nat.min n (gridLevels - numSells))).
Proof.
  revert index numBuys numSells orders.
  induction n as [|n IH]; intros index numBuys numSells orders.
  - simpl. rewrite app_nil_r. reflexivity.
  - cbn [prepareOrders_loop].
    destruct (Nat.ltb_spec numBuys gridLevels) as [Hb|Hb];
      destruct (Nat.ltb_spec numSells gridLevels) as [Hs|Hs];
      rewrite IH, ?filter_app; cbn [filter buyOrder sellOrder];
      rewrite ?app_nil_r.
    + replace (gridLevels - numSells)%nat
        with (S (gridLevels - (numSells + 1)))%nat by lia.
      rewrite <- Nat.succ_min_distr. cbn [seq map].
      rewrite <- app_assoc, Nat.add_1_r. reflexivity.
    + replace (gridLevels - numSells)%nat with 0%nat by lia.
      rewrite !Nat.min_0_r. reflexivity.
    + replace (gridLevels - numSells)%nat
        with (S (gridLevels - (numSells + 1)))%nat by lia.
      rewrite <- Nat.succ_min_distr. cbn [seq map].
      rewrite <- app_assoc, Nat.add_1_r. reflexivity.
    + replace (gridLevels - numSells)%nat with 0%nat by lia.
      rewrite !Nat.min_0_r. reflexivity.
Qed.

(** Every iteration appends what it builds: the result has as many
    orders as the two sides are short of. *)
Lemma loop_length (n index numBuys numSells : nat) (orders : list Order.t) :
  List.length (prepareOrders_loop gridLevels pairs marketSymbol marketDetails
       n index numBuys numSells orders) =
  (List.length orders + Nat.min n (gridLevels - numBuys)
   + Nat.min n (gridLevels - numSells))%nat.
Proof.
  revert index numBuys numSells orders.
  induction n as [|n IH]; intros index numBuys numSells orders.
  - simpl. lia.
  - cbn [prepareOrders_loop].
    destruct (Nat.ltb_spec numBuys gridLevels) as [Hb|Hb];
      destruct (Nat.ltb_spec numSells gridLevels) as [Hs|Hs];
      rewrite IH, ?length_app; cbn [List.length]; lia.
Qed.

End Reconciler.

(** C3: whatever orders are open and whatever gridLevels is (in
    particular for gridLevels >= 1), prepareOrders builds exactly
    max(0, gridLevels - openBuyCount) buy orders and
    max(0, gridLevels - openSellCount) sell orders, each side at the ladder
    indices 0, 1, 2, ... in a row; it builds nothing when both counts equal
    gridLevels, never more than gridLevels orders per side, and with no open
    order and gridLevels = 3 three buys and three sells at indices 0, 1, 2. *)
Theorem prepareOrders_fills_each_side
    (gridLevels : nat) (pairs : list PairConfig) (marketSymbol : string)
    (marketDetails : MarketDetails.t) (openOrders : list OpenOrder) :
  let orders :=
    prepareOrders gridLevels pairs marketSymbol marketDetails openOrders in
  let buy := createBuyOrder pairs marketSymbol marketDetails in
  let sell := createSellOrder pairs marketSymbol marketDetails in
  let openBuyCount := List.length (filter isBuy openOrders) in
  let openSellCount := List.length (filter isSell openOrders) in
  filter buyOrder orders = map buy (seq 0 (gridLevels - openBuyCount)) /\
  filter sellOrder orders = map sell (seq 0 (gridLevels - openSellCount)) /\
  List.length orders =
    ((gridLevels - openBuyCount) + (gridLevels - openSellCount))%nat /\
  (openBuyCount = gridLevels -> openSellCount = gridLevels -> orders = []) /\
  (List.length (filter buyOrder orders) <= gridLevels)%nat /\
  (List.length (filter sellOrder orders) <= gridLevels)%nat /\
  (gridLevels = 3%nat -> openOrders = [] ->
   orders = [buy 0%nat; sell 0%nat; buy 1%nat; sell 1%nat; buy 2%nat; sell 2%nat]).
Proof.
  intros orders buy sell openBuyCount openSellCount.
  assert (Hb : filter buyOrder orders
               = map buy (seq 0 (gridLevels - openBuyCount))).
  { unfold orders, prepareOrders. rewrite loop_buys. simpl.
    rewrite Nat.min_r by lia. reflexivity. }
  assert (Hs : filter sellOrder orders
               = map sell (seq 0 (gridLevels - openSellCount))).
  { unfold orders, prepareOrders. rewrite loop_sells. simpl.
    rewrite Nat.min_r by lia. reflexivity. }
  assert (Hl : List.length orders =
               ((gridLevels - openBuyCount) + (gridLevels - openSellCount))%nat).
  { unfold orders, prepareOrders. rewrite loop_length. simpl.
    rewrite !Nat.min_r by lia. reflexivity. }
  repeat split.
  - exact Hb.
  - exact Hs.
  - exact Hl.
  - intros E1 E2. apply length_zero_iff_nil. rewrite Hl. lia.
  - rewrite Hb, length_map, length_seq. lia.
  - rewrite Hs, length_map, length_seq. lia.
  - intros -> ->. reflexivity.
Qed.

Lemma prepareOrders_fills_each_side_witness :
  let pairs := [Examples.pair_of (num 1 (-2)) (JsString "AVERAGE")] in
  let buy := createBuyOrder pairs "XPR_XMD" Examples.snapshot in
  let sell := createSellOrder pairs "XPR_XMD" Examples.snapshot in
  prepareOrders 3 pairs "XPR_XMD" Examples.snapshot [] =
  [buy 0%nat; sell 0%nat; buy 1%nat; sell 1%nat; buy 2%nat; sell 2%nat].
Proof.
  intros pairs buy sell.
  apply (prepareOrders_fills_each_side 3 pairs "XPR_XMD" Examples.snapshot []);
    reflexivity.
Defined.

(** ** What an order is built from *)

(** Every order is handed to submitLimitOrder, in order, with its
    quantity field as the size. *)
Lemma placeOrders_submits (W : Type) (dexapi : DexApi W)
    (orders : list Order.t) (r : Run W) :
  fst (placeOrders W dexapi orders r) = inr tt /\
  events (snd (placeOrders W dexapi orders r))
  = events r ++ map submission orders.
Proof.
  revert r. induction orders as [|order rest IH]; intros r.
  - simpl. rewrite app_nil_r. split; reflexivity.
  - destruct (IH {| world := submitLimitOrder dexapi
                      (Order.marketSymbol order) (Order.orderSide order)
                      (Order.quantity order) (Order.price order) (world r);
                    events := events r ++ [submission order] |})
      as [IH1 IH2].
    split; [exact IH1|].
    etransitivity; [exact IH2|].
    cbn [events map]. rewrite <- app_assoc. reflexivity.
Qed.

(** C9: the size a buy order is submitted with (its quantity field) is
    the adjustedTotal that getQuantityAndAdjustedTotal returns for the
    order's price and the market's minimum order; the size of a sell order
    is the quantity it returns; placeOrders submits each order with its
    quantity field as the size. *)
Theorem order_size_by_side
    (pairs : list PairConfig) (marketSymbol : string)
    (marketDetails : MarketDetails.t) (index : nat) :
  let market := MarketDetails.market marketDetails in
  let minOrder := Number.div (order_min market) (multiplier (ask_token market)) in
  let sizes price :=
    getQuantityAndAdjustedTotal price minOrder
      (precision (bid_token market)) (precision (ask_token market)) in
  let buy := createBuyOrder pairs marketSymbol marketDetails index in
  let sell := createSellOrder pairs marketSymbol marketDetails index in
  Order.orderSide buy = BUY /\
  Order.quantity buy
    = QuantityAndAdjustedTotal.adjustedTotal (sizes (Order.price buy)) /\
  Order.orderSide sell = SELL /\
  Order.quantity sell
    = QuantityAndAdjustedTotal.quantity (sizes (Order.price sell)) /\
  (forall (W : Type) (dexapi : DexApi W) (r : Run W),
      events (snd (placeOrders W dexapi [buy; sell] r)) =
      events r ++
        [SubmitLimitOrder marketSymbol BUY
           (QuantityAndAdjustedTotal.adjustedTotal (sizes (Order.price buy)))
           (Order.price buy);
         SubmitLimitOrder marketSymbol SELL
           (QuantityAndAdjustedTotal.quantity (sizes (Order.price sell)))
           (Order.price sell)]).
Proof.
  intros market minOrder sizes buy sell.
  split; [reflexivity|]. split; [reflexivity|].
  split; [reflexivity|]. split; [reflexivity|].
  intros W dexapi r.
  destruct (placeOrders_submits W dexapi [buy; sell] r) as [_ E].
  rewrite E. reflexivity.
Qed.

(** ** The reference price *)

(** A String object matches no [case] clause. *)
Lemma switch_on_String_object (v : JsValue)
    (highestBid lowestAsk lastSalePrice avgPrice : BigNumber) :
  switch_base (new_String v) highestBid lowestAsk lastSalePrice avgPrice
  = avgPrice.
Proof. reflexivity. Qed.

(** Had the switch been given the primitive string, it would select by
    base. *)
Lemma switch_on_primitive
    (highestBid lowestAsk lastSalePrice avgPrice : BigNumber) :
  switch_base (JsString "BID") highestBid lowestAsk lastSalePrice avgPrice
    = highestBid /\
  switch_base (JsString "ASK") highestBid lowestAsk lastSalePrice avgPrice
    = lowestAsk /\
  switch_base (JsString "LAST") highestBid lowestAsk lastSalePrice avgPrice
    = lastSalePrice /\
  switch_base (JsString "AVERAGE") highestBid lowestAsk lastSalePrice avgPrice
    = avgPrice /\
  switch_base JsUndefined highestBid lowestAsk lastSalePrice avgPrice
    = avgPrice.
Proof. repeat split. Qed.

(** Whatever the configured base, the ladder starts from the average of
    best ask and best bid. *)
Lemma startPrice_is_average (pairs : list PairConfig) (marketSymbol : string)
    (marketDetails : MarketDetails.t) :
  startPrice pairs marketSymbol marketDetails =
  BN_dividedBy
    (BN_plus (BN_ofNumber (MarketDetails.lowestAsk marketDetails))
             (BN_ofNumber (MarketDetails.highestBid marketDetails)))
    (BN_ofZ 2).
Proof. reflexivity. Qed.

(** C1, on the pair configured with base "BID" and the snapshot with
    best bid 100, best ask 102 and last price 101.5: the reference price is
    101, the average, not the best bid 100; the first buy is priced 99.99
    and the first sell 102.01, where a ladder from the best bid would give
    99 and 101. *)
Theorem reference_price_ignores_base :
  let pairs := [Examples.pair_of (num 1 (-2)) (JsString "BID")] in
  getBase pairs "XPR_XMD" = JsString "BID" /\
  BN_is (BN_ofNumber (MarketDetails.highestBid Examples.snapshot)) 100 /\
  BN_is (startPrice pairs "XPR_XMD" Examples.snapshot) 101 /\
  Order.price (createBuyOrder pairs "XPR_XMD" Examples.snapshot 0)
    = num 9999 (-2) /\
  Order.price (createSellOrder pairs "XPR_XMD" Examples.snapshot 0)
    = num 10201 (-2).
Proof.
  intros pairs.
  refine (conj _ (conj _ (conj _ (conj _ _)))); vm_compute; reflexivity.
Qed.

(** ** The strategy cycle *)

Section CycleFacts.

Variable W : Type.
Variable dexapi : DexApi W.
Variable username : string.
Variable gridLevels : nat.
Variable pairs : list PairConfig.

(** An unknown market makes getOpenOrders throw before anything is
    fetched. *)
Lemma getOpenOrders_unknown_market (marketSymbol : string) (r : Run W) :
  getMarketBySymbol dexapi marketSymbol = None ->
  getOpenOrders W dexapi username marketSymbol r =
  (inl {| message := "Market " ++ marketSymbol ++ " does not exist" |}, r).
Proof.
  intros H. unfold getOpenOrders. rewrite H. reflexivity.
Qed.

(** An error thrown in the [try] block is logged with its message and
    the loop goes on with the next pair. *)
Lemma trade_catches (pair_i : PairConfig) (rest : list PairConfig)
    (r r' : Run W) (error : Error) :
  trade_try W dexapi username gridLevels pairs pair_i (announced username pair_i r) = (inl error, r') ->
  trade_from W dexapi username gridLevels pairs (pair_i :: rest) r =
  trade_from W dexapi username gridLevels pairs rest {| world := world r';
                events := events r' ++ [LogError (message error)] |}.
Proof.
  intros H. cbn [trade_from].
  unfold bind at 1. unfold emit at 1. fold (announced username pair_i r).
  unfold bind at 1. unfold try_catch. rewrite H.
  reflexivity.
Qed.

(** A [try] block that runs to its end lets the loop go on. *)
Lemma trade_continues (pair_i : PairConfig) (rest : list PairConfig)
    (r r' : Run W) :
  trade_try W dexapi username gridLevels pairs pair_i (announced username pair_i r) = (inr Normal, r') ->
  trade_from W dexapi username gridLevels pairs (pair_i :: rest) r = trade_from W dexapi username gridLevels pairs rest r'.
Proof.
  intros H. cbn [trade_from].
  unfold bind at 1. unfold emit at 1. fold (announced username pair_i r).
  unfold bind at 1. unfold try_catch. rewrite H.
  reflexivity.
Qed.

(** The [return] of line 224 ends the cycle, whatever pairs are left. *)
Lemma trade_returns (pair_i : PairConfig) (rest : list PairConfig)
    (r r' : Run W) :
  trade_try W dexapi username gridLevels pairs pair_i (announced username pair_i r) = (inr Return, r') ->
  trade_from W dexapi username gridLevels pairs (pair_i :: rest) r = (inr tt, r').
Proof.
  intros H. cbn [trade_from].
  unfold bind at 1. unfold emit at 1. fold (announced username pair_i r).
  unfold bind at 1. unfold try_catch. rewrite H.
  reflexivity.
Qed.

(** A pair with enough orders on both sides takes the [return]. *)
Lemma trade_try_enough (pair_i : PairConfig) (r : Run W) (market : Market)
    (allOrders : list OpenOrder) (w : W) :
  getMarketBySymbol dexapi (symbol pair_i) = Some market ->
  fetchOpenOrders dexapi username (world r) = (inr allOrders, w) ->
  let openOrders :=
    filter (fun order => order_market_id order =? market_id market)%nat
           allOrders in
  (gridLevels <= List.length (filter isBuy openOrders))%nat ->
  (gridLevels <= List.length (filter isSell openOrders))%nat ->
  trade_try W dexapi username gridLevels pairs pair_i r =
  (inr Return,
   {| world := w;
      events := events r ++
        [LogInfo ("nothing to do - we have enough orders on the books for "
                  ++ symbol pair_i)] |}).
Proof.
  intros Hm Hf openOrders Hb Hs.
  unfold trade_try, getOpenOrders. rewrite Hm.
  unfold bind, await, ret. rewrite Hf. fold openOrders.
  apply Nat.leb_le in Hb, Hs. rewrite Hb, Hs. reflexivity.
Qed.

(** So the cycle logs two lines for such a pair and ends, whatever pairs
    come after it. *)
Lemma trade_stops_at_enough (pair_i : PairConfig) (rest : list PairConfig)
    (r : Run W) (market : Market) (allOrders : list OpenOrder) (w : W) :
  getMarketBySymbol dexapi (symbol pair_i) = Some market ->
  fetchOpenOrders dexapi username (world r) = (inr allOrders, w) ->
  let openOrders :=
    filter (fun order => order_market_id order =? market_id market)%nat
           allOrders in
  (gridLevels <= List.length (filter isBuy openOrders))%nat ->
  (gridLevels <= List.length (filter isSell openOrders))%nat ->
  trade_from W dexapi username gridLevels pairs (pair_i :: rest) r =
  (inr tt,
   {| world := w;
      events := events r ++
        [LogInfo ("Executing " ++ symbol pair_i
                  ++ " market maker trades on account " ++ username);
         LogInfo ("nothing to do - we have enough orders on the books for "
                  ++ symbol pair_i)] |}).
Proof.
  intros Hm Hf openOrders Hb Hs.
  rewrite (trade_returns pair_i rest r
             {| world := w;
                events := events (announced username pair_i r) ++
                  [LogInfo ("nothing to do - we have enough orders on the books for "
                            ++ symbol pair_i)] |}).
  - unfold announced. cbn [events]. rewrite <- app_assoc. reflexivity.
  - apply (trade_try_enough pair_i (announced username pair_i r) market
             allOrders w); assumption.
Qed.

End CycleFacts.

(** C2, on the pairs XPR_XMD, XBTC_XMD with gridLevels = 1, one buy and
    one sell open on XPR_XMD and nothing open on XBTC_XMD: the cycle logs
    the no-op message for XPR_XMD and ends there; XBTC_XMD, which alone
    would get a buy and a sell submitted, is never visited. *)
Theorem enough_orders_ends_the_cycle :
  let run pairs :=
    events (snd (trade unit Examples.exchange "bot" 1 pairs Examples.start)) in
  run [Examples.pair_for "XPR_XMD"; Examples.pair_for "XBTC_XMD"] =
    [LogInfo "Executing XPR_XMD market maker trades on account bot";
     LogInfo "nothing to do - we have enough orders on the books for XPR_XMD"]
  /\
  run [Examples.pair_for "XBTC_XMD"] =
    [LogInfo "Executing XBTC_XMD market maker trades on account bot";
     SubmitLimitOrder "XBTC_XMD" BUY (num 1000001 (-6)) (num 99 (-2));
     SubmitLimitOrder "XBTC_XMD" SELL (num 99009901 (-8)) (num 101 (-2))].
Proof.
  split; vm_compute; reflexivity.
Qed.

(** C8, on the pairs XETH_XMD (no such market), XPR_XMD, XBTC_XMD with
    the same exchange: the error of XETH_XMD is caught and logged and
    XPR_XMD is visited, but the cycle ends at XPR_XMD, which has enough
    orders; the remaining pair XBTC_XMD is never visited. *)
Theorem remaining_pairs_not_all_visited :
  events (snd (trade unit Examples.exchange "bot" 1
                 [Examples.pair_for "XETH_XMD"; Examples.pair_for "XPR_XMD";
                  Examples.pair_for "XBTC_XMD"] Examples.start)) =
    [LogInfo "Executing XETH_XMD market maker trades on account bot";
     LogError "Market XETH_XMD does not exist";
     LogInfo "Executing XPR_XMD market maker trades on account bot";
     LogInfo "nothing to do - we have enough orders on the books for XPR_XMD"].
Proof.
  vm_compute. reflexivity.
Qed.

(** ** Ladder prices *)

Lemma BN_is_toFixed (x : BigNumber) (a : Q) (dp : nat) (rm : RoundingMode) :
  BN_is x a -> BN_is (BN_toFixed x dp rm) (Qround rm a (Z.of_nat dp)).
Proof.
  intros H. destruct x as [| |s [|c] e]; try (simpl in H; tauto).
  - simpl in H. simpl.
    assert (E : (a == 0)%Q).
    { rewrite <- H. unfold BN_signed. destruct s; simpl; ring. }
    rewrite (Qround_comp rm _ _ E _ _ eq_refl), Qround_0. ring.
  - apply (BN_is_decimalPlaces (BN_finite s (Npos c) e)). exact H.
Qed.

(** The factor of level [index] away from the reference price, on the
    side given by [sign]. *)
Lemma BN_is_level_factor (spread : BigNumber) (I : Q) (k : Z) :
  BN_is spread I ->
  BN_is (BN_plus (BN_times spread (BN_ofZ k)) (BN_ofZ 1))
        (1 + I * inject_Z k).
Proof.
  intros HI.
  pose proof (BN_is_plus _ _ _ _
                (BN_is_times _ _ _ _ HI (BN_is_ofZ k)) (BN_is_ofZ 1)) as H.
  revert H. apply BN_is_comp. change (inject_Z 1) with 1%Q. ring.
Qed.

Lemma buyPrice_value (pairs : list PairConfig) (marketSymbol : string)
    (marketDetails : MarketDetails.t) (index : nat) (ref interval : Q) :
  BN_is (startPrice pairs marketSymbol marketDetails) ref ->
  BN_is (BN_ofNumber (getGridInterval pairs marketSymbol)) interval ->
  BN_is (buyPrice pairs marketSymbol marketDetails index)
        (Qround ROUND_DOWN
           (ref * (1 - interval * inject_Z (Z.of_nat index + 1)))
           (Z.of_nat (precision (ask_token (MarketDetails.market marketDetails))))).
Proof.
  intros Href Hint. unfold buyPrice.
  pose proof (BN_is_decimalPlaces _ _
                (precision (ask_token (MarketDetails.market marketDetails)))
                ROUND_DOWN
                (BN_is_times _ _ _ _
                   (BN_is_level_factor _ _ (0 - (Z.of_nat index + 1)) Hint)
                   Href)) as H.
  revert H. apply BN_is_comp. apply Qround_comp; [|reflexivity].
  rewrite inject_Z_minus. change (inject_Z 0) with 0%Q. ring.
Qed.

(** C4, as amended: with the reference price [ref] and the grid interval
    [interval] as decimals, the price of the buy order at [index] is the
    number read from the decimal ref * (1 - interval * (index + 1)) rounded
    towards zero (ROUND_DOWN) to the ask token's precision. *)
Theorem buy_price_rounded_down
    (pairs : list PairConfig) (marketSymbol : string)
    (marketDetails : MarketDetails.t) (index : nat) (ref interval : Q) :
  BN_is (startPrice pairs marketSymbol marketDetails) ref ->
  BN_is (BN_ofNumber (getGridInterval pairs marketSymbol)) interval ->
  let askPrecision :=
    precision (ask_token (MarketDetails.market marketDetails)) in
  exists buyPrice : BigNumber,
    BN_is buyPrice
          (Qround ROUND_DOWN
             (ref * (1 - interval * inject_Z (Z.of_nat index + 1)))
             (Z.of_nat askPrecision)) /\
    Order.price (createBuyOrder pairs marketSymbol marketDetails index)
    = BN_toNumber buyPrice.
Proof.
  intros Href Hint askPrecision.
  exists (buyPrice pairs marketSymbol marketDetails index). split.
  - apply buyPrice_value; assumption.
  - reflexivity.
Qed.

Lemma buy_price_rounded_down_witness :
  exists buyPrice : BigNumber,
    BN_is buyPrice
          (Qround ROUND_DOWN (101 * (1 - (1 # 100) * inject_Z (Z.of_nat 1 + 1))) 6) /\
    Order.price
      (createBuyOrder [Examples.pair_of (num 1 (-2)) (JsString "AVERAGE")]
                      "XPR_XMD" Examples.snapshot 1)
    = BN_toNumber buyPrice.
Proof.
  apply (buy_price_rounded_down
           [Examples.pair_of (num 1 (-2)) (JsString "AVERAGE")]
           "XPR_XMD" Examples.snapshot 1 101 (1 # 100)).
  - vm_compute. reflexivity.
  - vm_compute. reflexivity.
Defined.

(** C4 as stated fails on a reference price 123456789012.5 with interval
    0.0123457 and an ask precision of 6.  The level is
    121932628532.38837875 and is rounded down to the decimal
    121932628532.388378; the order's price is the number nearest to that
    decimal, 7990976743498605 * 2^-16, which is not that decimal, lies
    above the level, and prints as 121932628532.38838. *)
Lemma buy_price_not_the_rounded_decimal :
  let pairs := [Examples.pair_of (num 123457 (-7)) (JsString "AVERAGE")] in
  let ref := (1234567890125 # 10)%Q in
  let interval := (123457 # 10000000)%Q in
  let level := (ref * (1 - interval * inject_Z (Z.of_nat 0 + 1)))%Q in
  let order := createBuyOrder pairs "XPR_XMD" Readings.large 0 in
  BN_is (startPrice pairs "XPR_XMD" Readings.large) ref /\
  BN_is (BN_ofNumber (getGridInterval pairs "XPR_XMD")) interval /\
  BN_is (buyPrice pairs "XPR_XMD" Readings.large 0)
        (Qround ROUND_DOWN level 6) /\
  (Qround ROUND_DOWN level 6 == 121932628532388378 # 1000000)%Q /\
  Order.price order = S754_finite false 7990976743498605 (-16) /\
  Number_is (Order.price order) (7990976743498605 # 65536) /\
  ~ (7990976743498605 # 65536 == Qround ROUND_DOWN level 6)%Q /\
  (level < 7990976743498605 # 65536)%Q /\
  BN_is (BN_ofNumber (Order.price order)) (12193262853238838 # 100000).
Proof.
  intros pairs ref interval level order.
  refine (conj _ (conj _ (conj _ (conj _ (conj _ (conj _ (conj _ (conj _ _))))))));
    vm_compute; try reflexivity; discriminate.
Qed.

Lemma sellPrice_value (pairs : list PairConfig) (marketSymbol : string)
    (marketDetails : MarketDetails.t) (index : nat) (ref interval : Q) :
  BN_is (BN_ofNumber (BN_toNumber (startPrice pairs marketSymbol marketDetails)))
        ref ->
  BN_is (BN_ofNumber (getGridInterval pairs marketSymbol)) interval ->
  BN_is (sellPrice pairs marketSymbol marketDetails index)
        (Qround ROUND_UP
           (ref * (1 + interval * inject_Z (Z.of_nat index + 1)))
           (Z.of_nat (precision (ask_token (MarketDetails.market marketDetails))))).
Proof.
  intros Href Hint. unfold sellPrice.
  pose proof (BN_is_decimalPlaces _ _
                (precision (ask_token (MarketDetails.market marketDetails)))
                ROUND_UP
                (BN_is_times _ _ _ _
                   (BN_is_level_factor _ _ (0 + (Z.of_nat index + 1)) Hint)
                   Href)) as H.
  revert H. apply BN_is_comp. apply Qround_comp; [|reflexivity].
  rewrite Z.add_0_l. ring.
Qed.

(** C5, on best bid 1 and best ask 1.0000000000000002 with interval 0.01
    and ask precision 4: the reference price is 1.0000000000000001;
    [Math.max] reads it as the number 1, so the first sell is priced
    1.01 * 1 = 1.01, where 1.01 * 1.0000000000000001 rounded up to 4 places
    is 1.0101. *)
Theorem sell_price_through_binary64 :
  let pairs := [Examples.pair_of (num 1 (-2)) (JsString "AVERAGE")] in
  let ref := (10000000000000001 # 10000000000000000)%Q in
  BN_is (startPrice pairs "XPR_XMD" Examples.narrow) ref /\
  BN_is (BN_ofNumber (getGridInterval pairs "XPR_XMD")) (1 # 100) /\
  BN_toNumber (startPrice pairs "XPR_XMD" Examples.narrow) = num 1 0 /\
  BN_is (sellPrice pairs "XPR_XMD" Examples.narrow 0) (101 # 100) /\
  Order.price (createSellOrder pairs "XPR_XMD" Examples.narrow 0)
    = num 101 (-2) /\
  (Qround ROUND_UP (ref * (1 + (1 # 100) * inject_Z (Z.of_nat 0 + 1))) 4
   == 10101 # 10000)%Q /\
  BN_is (buyPrice pairs "XPR_XMD" Examples.narrow 0)
        (Qround ROUND_DOWN (ref * (1 - (1 # 100) * inject_Z (Z.of_nat 0 + 1))) 4).
Proof.
  intros pairs ref.
  refine (conj _ (conj _ (conj _ (conj _ (conj _ (conj _ _))))));
    vm_compute; reflexivity.
Qed.

(** ** Reading a decimal as a number keeps its sign *)

Lemma shr_1_nonneg (mrs : shr_record) : 0 <= shr_m mrs -> 0 <= shr_m (shr_1 mrs).
Proof.
  destruct mrs as [m r s]. simpl.
  destruct m as [|[p|p|]|[p|p|]]; simpl; lia.
Qed.

Lemma iter_shr_1_nonneg (p : positive) (mrs : shr_record) :
  0 <= shr_m mrs -> 0 <= shr_m (iter_pos shr_1 p mrs).
Proof.
  revert mrs. induction p as [p IH|p IH|]; intros mrs H; simpl.
  - apply IH, IH, shr_1_nonneg, H.
  - apply IH, IH, H.
  - apply shr_1_nonneg, H.
Qed.

Lemma shr_fexp_nonneg (m e : Z) (l : location) :
  0 <= m -> 0 <= shr_m (fst (shr_fexp Number.prec Number.emax m e l)).
Proof.
  intros H. unfold shr_fexp, shr.
  assert (H0 : 0 <= shr_m (shr_record_of_loc m l))
    by (destruct l as [|[]]; exact H).
  destruct (fexp Number.prec Number.emax (Zdigits2 m + e) - e); simpl;
    try exact H0.
  apply iter_shr_1_nonneg, H0.
Qed.

Lemma round_nearest_even_nonneg (m : Z) (l : location) :
  0 <= m -> 0 <= round_nearest_even m l.
Proof.
  intros H. destruct l as [|[]]; simpl; try lia.
  destruct (Z.even m); lia.
Qed.

Lemma binary_round_aux_signed (s : bool) (m e : Z) (l : location) :
  0 <= m ->
  Number_signed s (binary_round_aux Number.prec Number.emax s m e l).
Proof.
  intros H. unfold binary_round_aux.
  pose proof (shr_fexp_nonneg m e l H) as H1.
  destruct (shr_fexp Number.prec Number.emax m e l) as [mrs' e'].
  simpl in H1.
  pose proof (shr_fexp_nonneg _ e' loc_Exact
                (round_nearest_even_nonneg _ (loc_of_shr_record mrs') H1)) as H2.
  destruct (shr_fexp Number.prec Number.emax
              (round_nearest_even (shr_m mrs') (loc_of_shr_record mrs')) e'
              loc_Exact) as [mrs'' e''].
  simpl in H2.
  destruct (shr_m mrs'') as [|p|p]; simpl.
  - reflexivity.
  - destruct (_ <=? _); simpl; reflexivity.
  - lia.
Qed.

Lemma decimal_toNumber_signed (s : bool) (c : positive) (e : Z) :
  Number_signed s (decimal_toNumber s c e).
Proof.
  unfold decimal_toNumber. destruct (0 <=? e).
  - unfold BN_signed.
    destruct s; simpl Z.mul; unfold binary_normalize, binary_round.
    + change (- Z.of_N (Npos c) * Zpos (pow10 e)) with (Zneg (c * pow10 e)).
      cbv iota beta.
      destruct (shl_align (c * pow10 e) 0 _) as [mz ez].
      apply binary_round_aux_signed. lia.
    + change (Z.of_N (Npos c) * Zpos (pow10 e)) with (Zpos (c * pow10 e)).
      cbv iota beta.
      destruct (shl_align (c * pow10 e) 0 _) as [mz ez].
      apply binary_round_aux_signed. lia.
  - unfold Number.ofRatio, SFdiv.
    destruct (SFdiv_core_binary Number.prec Number.emax (Zpos c) 0
                (Zpos (pow10 (- e))) 0) as [[mz ez] lz] eqn:E.
    rewrite xorb_false_r. apply binary_round_aux_signed.
    unfold SFdiv_core_binary in E.
    set (m' := match _ with Zpos _ => _ | Z0 => _ | Zneg _ => _ end) in E.
    assert (Hm : 0 <= m').
    { unfold m'. destruct (_ - _) as [|p|p]; try lia.
      apply Z.shiftl_nonneg. lia. }
    pose proof (Z_div_mod m' (Zpos (pow10 (- e))) ltac:(lia)) as D.
    destruct (Z.div_eucl m' (Zpos (pow10 (- e)))) as [q r].
    inversion E; subst. nia.
Qed.

Lemma BN_is_eq (x : BigNumber) (q q' : Q) :
  (q == q')%Q -> BN_is x q -> BN_is x q'.
Proof. intros E. apply BN_is_comp. symmetry. exact E. Qed.

(** A BigNumber with a positive value is a positive finite decimal. *)
Lemma BN_is_positive (x : BigNumber) (q : Q) :
  BN_is x q -> (0 < q)%Q -> exists c e, x = BN_finite false (Npos c) e.
Proof.
  destruct x as [| |s c e]; simpl; try tauto.
  intros H Hq. pose proof (Qpow10_pos e) as Hp.
  assert (Hz : 0 < BN_signed s c).
  { destruct (Z_lt_le_dec 0 (BN_signed s c)) as [L|L]; [exact L|exfalso].
    rewrite Zle_Qle in L. change (inject_Z 0) with 0%Q in L.
    rewrite <- H in Hq. nra. }
  unfold BN_signed in Hz. destruct s; [lia|].
  destruct c as [|c]; [lia|]. exists c, e. reflexivity.
Qed.

Lemma BN_finite_nonneg (c : N) (e : Z) :
  (0 <= inject_Z (BN_signed false c) * Qpow10 e)%Q.
Proof.
  apply Qmult_le_0_compat.
  - unfold BN_signed. change 0%Q with (inject_Z 0). rewrite <- Zle_Qle. lia.
  - apply Qlt_le_weak, Qpow10_pos.
Qed.

(** BigNumber reads a finite positive number as a positive decimal. *)
Lemma BN_ofNumber_finite_positive (m : positive) (e : Z) :
  exists q : Q, BN_is (BN_ofNumber (S754_finite false m e)) q /\ (0 < q)%Q.
Proof.
  cbv beta iota delta [BN_ofNumber].
  exists (inject_Z (BN_signed false (Npos (fst (Number_toDecimal m e))))
          * Qpow10 (snd (Number_toDecimal m e)))%Q.
  split; [cbv beta iota delta [BN_is]; reflexivity|].
  apply Qmult_lt_0_compat; [reflexivity | apply Qpow10_pos].
Qed.

(** A positive decimal read as a number and printed again is a
    non-negative decimal or plus infinity. *)
Lemma BN_ofNumber_toNumber_positive (x : BigNumber) (q : Q) :
  BN_is x q -> (0 < q)%Q ->
  (exists q', BN_is (BN_ofNumber (BN_toNumber x)) q' /\ (0 <= q')%Q) \/
  BN_ofNumber (BN_toNumber x) = BN_Infinity false.
Proof.
  intros H Hq. destruct (BN_is_positive x q H Hq) as [c [e ->]].
  cbv beta iota delta [BN_toNumber].
  pose proof (decimal_toNumber_signed false c e) as Hs.
  destruct (decimal_toNumber false c e) as [s|s| |s m e']; simpl in Hs;
    try contradiction; subst s; cbv beta iota delta [BN_ofNumber].
  - left. exists 0%Q. split; [simpl; ring | lra].
  - right. reflexivity.
  - left.
    exists (inject_Z (BN_signed false (Npos (fst (Number_toDecimal m e'))))
            * Qpow10 (snd (Number_toDecimal m e')))%Q.
    split; [cbv beta iota delta [BN_is]; reflexivity | apply BN_finite_nonneg].
Qed.

Lemma BN_le_of_values (x y : BigNumber) (a b : Q) :
  BN_is x a -> BN_is y b -> (a <= b)%Q -> BN_le x y.
Proof.
  destruct x as [| |sx cx ex], y as [| |sy cy ey]; simpl; try tauto.
  intros Ha Hb H. rewrite Ha, Hb. exact H.
Qed.

Lemma level_factor_le (interval : Q) (i j : nat) :
  (0 < interval)%Q -> (i < j)%nat ->
  (interval * inject_Z (Z.of_nat i + 1)
   <= interval * inject_Z (Z.of_nat j + 1))%Q.
Proof.
  intros HI Hij. apply Qmult_le_l; [exact HI|].
  rewrite <- Zle_Qle. lia.
Qed.

Lemma level_factor_pos (interval : Q) (i : nat) :
  (0 < interval)%Q -> (0 < interval * inject_Z (Z.of_nat i + 1))%Q.
Proof.
  intros HI. apply Qmult_lt_0_compat; [exact HI|].
  change 0%Q with (inject_Z 0). rewrite <- Zlt_Qlt. lia.
Qed.

(** ** Reading a decimal as a number keeps the order

    The rounding of the Standard Library is followed through its shifts:
    the rational stays located at the mantissa, the first shift brings it
    into canonical place, and rounding to nearest even keeps the order of
    numbers in canonical place. *)

Lemma Q2_pos (e : Z) : (0 < Q2 e)%Q.
Proof. apply Qpower_0_lt. reflexivity. Qed.

Lemma Q2_add (a b : Z) : (Q2 (a + b) == Q2 a * Q2 b)%Q.
Proof. apply Qpower_plus. discriminate. Qed.

Lemma Q2_succ (e : Z) : (Q2 (e + 1) == 2 * Q2 e)%Q.
Proof. rewrite Q2_add. change (Q2 1) with 2%Q. ring. Qed.

Lemma Q2_Z (k : Z) : 0 <= k -> (Q2 k == inject_Z (2 ^ k))%Q.
Proof. intros H. symmetry. apply Zpower_Qpower. exact H. Qed.

Lemma Q2_le (a b : Z) : a <= b -> (Q2 a <= Q2 b)%Q.
Proof.
  intros H. replace b with (a + (b - a)) by ring.
  rewrite Q2_add. rewrite (Q2_Z (b - a)) by lia.
  pose proof (Q2_pos a).
  assert (1 <= 2 ^ (b - a)) by (apply Z.lt_pred_le, Z.pow_pos_nonneg; lia).
  assert ((1 <= inject_Z (2 ^ (b - a)))%Q) by (rewrite Zle_Qle in H1; exact H1).
  set (P := Q2 a) in *. set (K := inject_Z (2 ^ (b - a))) in *. nra.
Qed.

Lemma located_bounds (x : Q) (m e : Z) (l : location) :
  located x m e l ->
  (inject_Z m * Q2 e <= x)%Q /\ (x < (inject_Z m + 1) * Q2 e)%Q.
Proof.
  pose proof (Q2_pos e) as HP. unfold located.
  set (P := Q2 e) in *. set (M := inject_Z m).
  destruct l as [|[]]; intros; split; nra.
Qed.

Lemma shr_1_located (x : Q) (mrs : shr_record) (e : Z) :
  0 <= shr_m mrs ->
  located x (shr_m mrs) e (loc_of_shr_record mrs) ->
  located x (shr_m (shr_1 mrs)) (e + 1) (loc_of_shr_record (shr_1 mrs)).
Proof.
  destruct mrs as [m r s]. cbn [shr_m]. intros Hm.
  pose proof (Q2_pos e) as HP.
  assert (E1 : forall p, (inject_Z (Zpos p~1) == 2 * inject_Z (Zpos p) + 1)%Q).
  { intros p. change (Zpos p~1) with (2 * Zpos p + 1).
    rewrite inject_Z_plus, inject_Z_mult. reflexivity. }
  assert (E0 : forall p, (inject_Z (Zpos p~0) == 2 * inject_Z (Zpos p))%Q).
  { intros p. change (Zpos p~0) with (2 * Zpos p).
    rewrite inject_Z_mult. reflexivity. }
  destruct m as [|[p|p|]|p]; try lia;
    destruct r, s;
    cbn [shr_1 shr_m loc_of_shr_record located orb];
    rewrite ?Q2_succ, ?E1, ?E0;
    change (inject_Z 1) with 1%Q; change (inject_Z 0) with 0%Q;
    set (P := Q2 e) in *;
    try set (M := inject_Z (Zpos p));
    intros; repeat split; nra.
Qed.

Lemma iter_shr_1_located (x : Q) (p : positive) :
  forall (mrs : shr_record) (e : Z),
    0 <= shr_m mrs ->
    located x (shr_m mrs) e (loc_of_shr_record mrs) ->
    located x (shr_m (iter_pos shr_1 p mrs)) (e + Zpos p)
            (loc_of_shr_record (iter_pos shr_1 p mrs)).
Proof.
  induction p as [p IH|p IH|]; intros mrs e Hm H; cbn [iter_pos].
  - replace (e + Zpos p~1) with (e + 1 + Zpos p + Zpos p) by lia.
    apply IH; [apply iter_shr_1_nonneg, shr_1_nonneg, Hm|].
    apply IH; [apply shr_1_nonneg, Hm|].
    apply shr_1_located; assumption.
  - replace (e + Zpos p~0) with (e + Zpos p + Zpos p) by lia.
    apply IH; [apply iter_shr_1_nonneg, Hm|].
    apply IH; assumption.
  - apply shr_1_located; assumption.
Qed.

Lemma loc_of_shr_record_of_loc (m : Z) (l : location) :
  loc_of_shr_record (shr_record_of_loc m l) = l /\
  shr_m (shr_record_of_loc m l) = m.
Proof. destruct l as [|[]]; split; reflexivity. Qed.

Lemma fexp_binary64 (z : Z) :
  fexp Number.prec Number.emax z = Z.max (z - 53) (-1074).
Proof. reflexivity. Qed.

(** The first shift of binary_round_aux keeps the location and brings
    the exponent up to the one of the format. *)
Lemma shr_fexp_located (x : Q) (m e : Z) (l : location) :
  0 <= m -> located x m e l ->
  located x (shr_m (fst (shr_fexp Number.prec Number.emax m e l)))
          (snd (shr_fexp Number.prec Number.emax m e l))
          (loc_of_shr_record (fst (shr_fexp Number.prec Number.emax m e l))) /\
  0 <= shr_m (fst (shr_fexp Number.prec Number.emax m e l)) /\
  snd (shr_fexp Number.prec Number.emax m e l)
  = Z.max e (fexp Number.prec Number.emax (Zdigits2 m + e)).
Proof.
  intros Hm H. unfold shr_fexp, shr.
  destruct (loc_of_shr_record_of_loc m l) as [El Em].
  set (n := fexp Number.prec Number.emax (Zdigits2 m + e) - e).
  assert (En : fexp Number.prec Number.emax (Zdigits2 m + e) = e + n)
    by (unfold n; lia).
  rewrite En. clearbody n.
  destruct n as [|p|p]; cbn [fst snd].
  - rewrite El, Em. repeat split; [exact H | exact Hm | lia].
  - split; [|split; [|lia]].
    + apply iter_shr_1_located; [rewrite Em; exact Hm|].
      rewrite El, Em. exact H.
    + apply iter_shr_1_nonneg. rewrite Em. exact Hm.
  - rewrite El, Em. repeat split; [exact H | exact Hm | lia].
Qed.

Lemma digits2_pos_bounds (p : positive) :
  2 ^ (Zpos (digits2_pos p) - 1) <= Zpos p < 2 ^ Zpos (digits2_pos p).
Proof.
  induction p as [p IH|p IH|]; cbn [digits2_pos].
  - rewrite Pos2Z.inj_succ.
    replace (Z.succ (Zpos (digits2_pos p)) - 1) with (Z.succ (Zpos (digits2_pos p) - 1)) by lia.
    rewrite !Z.pow_succ_r by lia. lia.
  - rewrite Pos2Z.inj_succ.
    replace (Z.succ (Zpos (digits2_pos p)) - 1) with (Z.succ (Zpos (digits2_pos p) - 1)) by lia.
    rewrite !Z.pow_succ_r by lia. lia.
  - simpl. lia.
Qed.

Lemma Zdigits2_bounds (m : Z) :
  0 < m -> 2 ^ (Zdigits2 m - 1) <= m < 2 ^ Zdigits2 m.
Proof.
  destruct m as [|p|p]; try lia. intros _. apply digits2_pos_bounds.
Qed.

Lemma Zdigits2_nonneg (m : Z) : 0 <= Zdigits2 m.
Proof. destruct m; simpl; lia. Qed.

(** A number located at [m] has fewer digits than [m] has, plus one. *)
Lemma located_lt_digits (x : Q) (m e : Z) (l : location) :
  0 <= m -> located x m e l -> (x < Q2 (Zdigits2 m + e))%Q.
Proof.
  intros Hm H. destruct (located_bounds x m e l H) as [_ Hhi].
  rewrite Q2_add. rewrite (Q2_Z (Zdigits2 m)) by apply Zdigits2_nonneg.
  assert (Hd : m + 1 <= 2 ^ Zdigits2 m).
  { destruct (Z.eq_dec m 0) as [->|N]; [simpl; lia|].
    pose proof (Zdigits2_bounds m ltac:(lia)). lia. }
  rewrite Zle_Qle, inject_Z_plus in Hd. change (inject_Z 1) with 1%Q in Hd.
  pose proof (Q2_pos e) as HP.
  set (P := Q2 e) in *. set (M := inject_Z m) in *.
  set (K := inject_Z (2 ^ Zdigits2 m)) in *. nra.
Qed.

Lemma located_ge_digits (x : Q) (m e : Z) (l : location) :
  0 < m -> located x m e l -> (Q2 (Zdigits2 m - 1 + e) <= x)%Q.
Proof.
  intros Hm H. destruct (located_bounds x m e l H) as [Hlo _].
  pose proof (Zdigits2_bounds m Hm) as [Hd _].
  assert (0 < Zdigits2 m) by (destruct m; simpl; lia).
  rewrite Q2_add. rewrite (Q2_Z (Zdigits2 m - 1)) by lia.
  rewrite Zle_Qle in Hd.
  pose proof (Q2_pos e) as HP.
  set (P := Q2 e) in *. set (M := inject_Z m) in *.
  set (K := inject_Z (2 ^ (Zdigits2 m - 1))) in *. nra.
Qed.

(** An integer below a power of two, from the rationals. *)
Lemma mantissa_lt (x : Q) (m e k : Z) :
  0 <= k -> (inject_Z m * Q2 e <= x)%Q -> (x < Q2 (e + k))%Q -> m < 2 ^ k.
Proof.
  intros Hk Hlo Hhi. rewrite Q2_add in Hhi. rewrite (Q2_Z k) in Hhi by exact Hk.
  pose proof (Q2_pos e) as HP.
  rewrite Zlt_Qlt.
  set (P := Q2 e) in *. set (M := inject_Z m) in *.
  set (K := inject_Z (2 ^ k)) in *. nra.
Qed.

Lemma mantissa_ge (x : Q) (m e k : Z) :
  0 <= k -> (Q2 (e + k) <= x)%Q -> (x < (inject_Z m + 1) * Q2 e)%Q -> 2 ^ k <= m.
Proof.
  intros Hk Hlo Hhi. rewrite Q2_add in Hlo. rewrite (Q2_Z k) in Hlo by exact Hk.
  pose proof (Q2_pos e) as HP.
  assert (2 ^ k < m + 1); [|lia].
  rewrite Zlt_Qlt, inject_Z_plus. change (inject_Z 1) with 1%Q.
  set (P := Q2 e) in *. set (M := inject_Z m) in *.
  set (K := inject_Z (2 ^ k)) in *. nra.
Qed.

(** After its first shift binary_round_aux holds the number in canonical
    place, provided it was given enough digits. *)
Lemma shr_fexp_canonical (x : Q) (m e : Z) (l : location) :
  0 <= m -> located x m e l ->
  e <= fexp Number.prec Number.emax (Zdigits2 m + e) ->
  canonical x (shr_m (fst (shr_fexp Number.prec Number.emax m e l)))
            (snd (shr_fexp Number.prec Number.emax m e l))
            (loc_of_shr_record (fst (shr_fexp Number.prec Number.emax m e l))).
Proof.
  intros Hm H He.
  destruct (shr_fexp_located x m e l Hm H) as [H1 [H2 H3]].
  set (m' := shr_m (fst (shr_fexp Number.prec Number.emax m e l))) in *.
  set (e' := snd (shr_fexp Number.prec Number.emax m e l)) in *.
  set (l' := loc_of_shr_record (fst (shr_fexp Number.prec Number.emax m e l))) in *.
  rewrite fexp_binary64 in He, H3.
  destruct (located_bounds x m' e' l' H1) as [Hlo Hhi].
  pose proof (located_lt_digits x m e l Hm H) as Hup.
  pose proof (Zdigits2_nonneg m) as Hd.
  split; [exact H1|]. split; [|split].
  - split; [exact H2|].
    apply (mantissa_lt x m' e' 53); [lia | exact Hlo|].
    apply Qlt_le_trans with (Q2 (Zdigits2 m + e)); [exact Hup|].
    apply Q2_le. lia.
  - lia.
  - destruct (Z.eq_dec e' (-1074)) as [E|N]; [left; exact E | right].
    assert (Hm0 : 0 < m).
    { destruct (Z.eq_dec m 0) as [->|]; [|lia]. simpl in *. lia. }
    pose proof (located_ge_digits x m e l Hm0 H) as Hdown.
    apply (mantissa_ge x m' e' 52); [lia | | exact Hhi].
    apply Qle_trans with (Q2 (Zdigits2 m - 1 + e)); [|exact Hdown].
    apply Q2_le. lia.
Qed.

Lemma binary_round_aux_finish (s : bool) (m e : Z) (l : location) :
  binary_round_aux Number.prec Number.emax s m e l
  = finish s (shr_m (fst (shr_fexp Number.prec Number.emax m e l)))
           (snd (shr_fexp Number.prec Number.emax m e l))
           (loc_of_shr_record (fst (shr_fexp Number.prec Number.emax m e l))).
Proof.
  unfold binary_round_aux, finish.
  destruct (shr_fexp Number.prec Number.emax m e l) as [mrs' e'].
  reflexivity.
Qed.

Lemma round_nearest_even_bounds (m : Z) (l : location) :
  m <= round_nearest_even m l <= m + 1.
Proof. destruct l as [|[]]; simpl; try destruct (Z.even m); lia. Qed.

Lemma finish_placed (s : bool) (m e : Z) (l : location) :
  0 <= m < 2 ^ 53 -> -1074 <= e ->
  finish s m e l = of_placed s (placed m e l).
Proof.
  intros Hm He. unfold finish, placed.
  pose proof (round_nearest_even_bounds m l) as Hr.
  set (m' := round_nearest_even m l) in *.
  destruct (Z.eqb_spec m' (2 ^ 53)) as [E|N].
  - rewrite E. unfold shr_fexp, shr.
    change (Zdigits2 (2 ^ 53)) with 54. rewrite fexp_binary64.
    replace (Z.max (54 + e - 53) (-1074) - e) with 1 by lia.
    cbn [iter_pos shr_record_of_loc]. unfold of_placed. cbn [fst snd].
    reflexivity.
  - unfold shr_fexp, shr. rewrite fexp_binary64.
    assert (Hn : Z.max (Zdigits2 m' + e - 53) (-1074) - e <= 0).
    { destruct (Z.eq_dec m' 0) as [->|N0]; [simpl; lia|].
      pose proof (Zdigits2_bounds m' ltac:(lia)) as [Hd _].
      assert (Zdigits2 m' - 1 < 53); [|lia].
      apply (Z.pow_lt_mono_r_iff 2); lia. }
    destruct (Z.max (Zdigits2 m' + e - 53) (-1074) - e) as [|p|p]; try lia;
      cbn [shr_record_of_loc shr_m]; unfold of_placed; cbn [fst snd];
      reflexivity.
Qed.

Lemma canonical_exponent_le (x y : Q) (mx ex my ey : Z) (lx ly : location) :
  canonical x mx ex lx -> canonical y my ey ly -> (x <= y)%Q -> ex <= ey.
Proof.
  intros [Hx [Hmx [Hex Hnx]]] [Hy [Hmy [Hey Hny]]] Hxy.
  destruct (Z_le_gt_dec ex ey) as [L|G]; [exact L | exfalso].
  destruct Hnx as [E|Hbig]; [lia|].
  destruct (located_bounds x mx ex lx Hx) as [Hlo _].
  destruct (located_bounds y my ey ly Hy) as [_ Hhi].
  pose proof (Q2_le (ey + 1) ex ltac:(lia)) as Hp. rewrite Q2_succ in Hp.
  pose proof (Q2_pos ey) as HP.
  assert (H1 : (inject_Z (2 ^ 52) <= inject_Z mx)%Q) by (rewrite <- Zle_Qle; exact Hbig).
  assert (H2 : (inject_Z my + 1 <= inject_Z (2 ^ 53))%Q).
  { change 1%Q with (inject_Z 1). rewrite <- inject_Z_plus, <- Zle_Qle. lia. }
  change (inject_Z (2 ^ 52)) with (4503599627370496 # 1)%Q in H1.
  change (inject_Z (2 ^ 53)) with (9007199254740992 # 1)%Q in H2.
  set (P := Q2 ey) in *. set (P' := Q2 ex) in *.
  set (M := inject_Z mx) in *. set (M' := inject_Z my) in *.
  assert (H3 : (4503599627370496 * P' <= M * P')%Q) by nra.
  assert (H4 : ((M' + 1) * P <= 9007199254740992 * P)%Q) by nra.
  nra.
Qed.

Lemma round_nearest_even_mono (x y : Q) (mx my e : Z) (lx ly : location) :
  located x mx e lx -> located y my e ly -> (x <= y)%Q ->
  round_nearest_even mx lx <= round_nearest_even my ly.
Proof.
  intros Hx Hy Hxy.
  destruct (located_bounds x mx e lx Hx) as [Hlo _].
  destruct (located_bounds y my e ly Hy) as [_ Hhi].
  pose proof (Q2_pos e) as HP.
  assert (Hm : mx <= my).
  { assert (mx < my + 1); [|lia].
    rewrite Zlt_Qlt, inject_Z_plus. change (inject_Z 1) with 1%Q.
    set (P := Q2 e) in *. set (M := inject_Z mx) in *.
    set (M' := inject_Z my) in *. nra. }
  destruct (Z.eq_dec mx my) as [E|N].
  - subst my. clear Hlo Hhi Hm. unfold located in Hx, Hy.
    set (P := Q2 e) in *. set (M := inject_Z mx) in *.
    destruct lx as [|[]], ly as [|[]]; cbn [round_nearest_even];
      try (destruct (Z.even mx); lia); exfalso; nra.
  - pose proof (round_nearest_even_bounds mx lx).
    pose proof (round_nearest_even_bounds my ly). lia.
Qed.

(** The order of two numbers in canonical place is kept by rounding. *)
Lemma placed_mono (x y : Q) (mx ex my ey : Z) (lx ly : location) :
  canonical x mx ex lx -> canonical y my ey ly -> (x <= y)%Q ->
  0 <= snd (placed mx ex lx) /\ 0 <= snd (placed my ey ly) /\
  ((fst (placed mx ex lx) < fst (placed my ey ly) /\
    2 ^ 52 <= snd (placed my ey ly)) \/
   (fst (placed mx ex lx) = fst (placed my ey ly) /\
    snd (placed mx ex lx) <= snd (placed my ey ly))).
Proof.
  intros Cx Cy Hxy.
  pose proof (canonical_exponent_le x y mx ex my ey lx ly Cx Cy Hxy) as He.
  destruct Cx as [Hx [Hmx [Hex Hnx]]]. destruct Cy as [Hy [Hmy [Hey Hny]]].
  pose proof (round_nearest_even_bounds mx lx) as Hrx.
  pose proof (round_nearest_even_bounds my ly) as Hry.
  assert (Hsame : ex = ey ->
            round_nearest_even mx lx <= round_nearest_even my ly).
  { intros E. subst ey.
    apply (round_nearest_even_mono x y mx my ex lx ly); assumption. }
  unfold placed.
  destruct (Z.eqb_spec (round_nearest_even mx lx) (2 ^ 53)) as [Ex|Nx];
    destruct (Z.eqb_spec (round_nearest_even my ly) (2 ^ 53)) as [Ey|Ny];
    cbn [fst snd]; (split; [lia|]); (split; [lia|]);
    destruct (Z.eq_dec ex ey) as [E|N];
    try (specialize (Hsame E)); lia.
Qed.

Lemma of_placed_le (kx ky : Z * Z) :
  0 <= snd kx -> 0 <= snd ky ->
  (fst kx < fst ky /\ 2 ^ 52 <= snd ky) \/ (fst kx = fst ky /\ snd kx <= snd ky) ->
  SFleb (of_placed false kx) (of_placed false ky) = true.
Proof.
  destruct kx as [Ex Mx], ky as [Ey My]. cbn [fst snd]. intros Hx Hy H.
  unfold of_placed. cbn [fst snd].
  destruct Mx as [|mx|mx]; [| |lia]; destruct My as [|my|my]; try lia.
  - reflexivity.
  - destruct (Ey <=? 971); reflexivity.
  - destruct (Z.leb_spec Ex 971), (Z.leb_spec Ey 971);
      unfold SFleb, SFcompare; try reflexivity; try lia.
    destruct H as [[H _]|[H H']].
    + apply Z.compare_lt_iff in H. rewrite H. reflexivity.
    + subst Ey. rewrite Z.compare_refl.
      change (Pos.compare_cont Eq mx my) with (Pos.compare mx my).
      destruct (Pos.compare_spec mx my); try reflexivity. lia.
Qed.

(** Numbers in canonical place are ordered as their roundings are. *)
Lemma finish_mono (x y : Q) (mx ex my ey : Z) (lx ly : location) :
  canonical x mx ex lx -> canonical y my ey ly -> (x <= y)%Q ->
  SFleb (finish false mx ex lx) (finish false my ey ly) = true.
Proof.
  intros Cx Cy Hxy.
  rewrite (finish_placed false mx ex lx), (finish_placed false my ey ly);
    try apply Cx; try apply Cy.
  destruct (placed_mono x y mx ex my ey lx ly Cx Cy Hxy) as [H1 [H2 H3]].
  apply of_placed_le; assumption.
Qed.

Lemma located_eq (x x' : Q) (m e : Z) (l : location) :
  (x == x')%Q -> located x m e l -> located x' m e l.
Proof.
  intros E. unfold located. destruct l as [|[]]; rewrite E; tauto.
Qed.

Lemma iter_xO_spec (d m : positive) :
  Zpos (Pos.iter xO m d) = Zpos m * 2 ^ Zpos d /\
  digits2_pos (Pos.iter xO m d) = (digits2_pos m + d)%positive.
Proof.
  induction d as [|d [IH1 IH2]] using Pos.peano_ind.
  - cbn [Pos.iter digits2_pos]. split; [lia|]. rewrite Pos.add_1_r. reflexivity.
  - rewrite Pos.iter_succ. cbn [digits2_pos]. split.
    + rewrite Pos2Z.inj_xO, IH1, Pos2Z.inj_succ, Z.pow_succ_r by lia. ring.
    + rewrite IH2. lia.
Qed.

(** binary_round is given an integer times a power of two and brings it
    into canonical place. *)
Lemma binary_round_placed (m : positive) (e : Z) :
  exists (m' e' : Z) (l' : location),
    canonical (inject_Z (Zpos m) * Q2 e) m' e' l' /\
    forall s, binary_round Number.prec Number.emax s m e = finish s m' e' l'.
Proof.
  unfold binary_round, shl_align.
  set (fe := fexp Number.prec Number.emax (Zpos (digits2_pos m) + e)).
  destruct (fe - e) as [|d|d] eqn:En.
  - eexists. eexists. eexists. split; [|intros s; apply binary_round_aux_finish].
    apply shr_fexp_canonical; [lia | reflexivity |].
    cbn [Zdigits2]. fold fe. lia.
  - eexists. eexists. eexists. split; [|intros s; apply binary_round_aux_finish].
    apply shr_fexp_canonical; [lia | reflexivity |].
    cbn [Zdigits2]. fold fe. lia.
  - destruct (iter_xO_spec d m) as [Ev Ed].
    eexists. eexists. eexists. split; [|intros s; apply binary_round_aux_finish].
    apply shr_fexp_canonical; [lia | |].
    + cbn [located]. rewrite Ev.
      replace e with (fe + Zpos d) by lia.
      replace (fe + Zpos d - (fe + Zpos d) + (fe + Zpos d)) with (fe + Zpos d).
      2: lia.
      rewrite Q2_add. rewrite (Q2_Z (Zpos d)) by lia.
      rewrite inject_Z_mult. ring_simplify.
      replace (fexp Number.prec Number.emax
                 (Zpos (digits2_pos m) + (fe + Zpos d))) with fe.
      * ring.
      * unfold fe. f_equal. lia.
    + cbn [Zdigits2]. rewrite Ed. fold fe.
      replace (Zpos (digits2_pos m + d) + fe) with (Zpos (digits2_pos m) + e) by lia.
      fold fe. lia.
Qed.

Lemma new_location_spec (d r : Z) :
  0 < d -> 0 <= r < d ->
  match new_location d r with
  | loc_Exact => r = 0
  | loc_Inexact Lt => 0 < r /\ 2 * r < d
  | loc_Inexact Eq => 2 * r = d
  | loc_Inexact Gt => d < 2 * r
  end.
Proof.
  intros Hd Hr. unfold new_location, new_location_even, new_location_odd.
  destruct (Z.even d) eqn:Ev; destruct (Z.eqb_spec r 0) as [E|N]; try exact E.
  - destruct (Z.compare_spec (2 * r) d); lia.
  - destruct (Z.compare_spec (2 * r + 1) d); try lia.
    assert (2 * r <> d); [|lia].
    intros <-. rewrite Z.even_mul in Ev. discriminate.
Qed.

(** A quotient and its remainder locate the fraction. *)
Lemma located_quotient (n d q r e : Z) (l : location) :
  0 < d -> n = d * q + r -> 0 <= r < d ->
  match l with
  | loc_Exact => r = 0
  | loc_Inexact Lt => 0 < r /\ 2 * r < d
  | loc_Inexact Eq => 2 * r = d
  | loc_Inexact Gt => d < 2 * r
  end ->
  located (inject_Z n / inject_Z d * Q2 e) q e l.
Proof.
  intros Hd Hn Hr Hl.
  assert (HD : (0 < inject_Z d)%Q) by (change 0%Q with (inject_Z 0); rewrite <- Zlt_Qlt; exact Hd).
  assert (E : (inject_Z n / inject_Z d == inject_Z q + inject_Z r / inject_Z d)%Q).
  { rewrite Hn, inject_Z_plus, inject_Z_mult. field. lra. }
  pose proof (Q2_pos e) as HP.
  assert (H0 : r = 0 -> (inject_Z r / inject_Z d == 0)%Q).
  { intros ->. unfold Qdiv. change (inject_Z 0) with 0%Q. ring. }
  assert (Hpos : 0 < r -> (0 < inject_Z r / inject_Z d)%Q).
  { intros H. apply Qlt_shift_div_l; [exact HD|]. rewrite Qmult_0_l.
    change 0%Q with (inject_Z 0). rewrite <- Zlt_Qlt. exact H. }
  assert (Hlt : 2 * r < d -> (inject_Z r / inject_Z d < 1 # 2)%Q).
  { intros H. apply Qlt_shift_div_r; [exact HD|].
    rewrite Zlt_Qlt, inject_Z_mult in H. change (inject_Z 2) with 2%Q in H. lra. }
  assert (Heq : 2 * r = d -> (inject_Z r / inject_Z d == 1 # 2)%Q).
  { intros H. rewrite <- H, inject_Z_mult. change (inject_Z 2) with 2%Q.
    field. intros Z. rewrite <- H, inject_Z_mult in HD.
    change (inject_Z 2) with 2%Q in HD. lra. }
  assert (Hgt : d < 2 * r -> (1 # 2 < inject_Z r / inject_Z d)%Q).
  { intros H. apply Qlt_shift_div_l; [exact HD|].
    rewrite Zlt_Qlt, inject_Z_mult in H. change (inject_Z 2) with 2%Q in H. lra. }
  assert (Hone : (inject_Z r / inject_Z d < 1)%Q).
  { apply Qlt_shift_div_r; [exact HD|]. rewrite Qmult_1_l, <- Zlt_Qlt. lia. }
  apply (located_eq ((inject_Z q + inject_Z r / inject_Z d) * Q2 e));
    [rewrite E; reflexivity|].
  unfold located.
  set (F := (inject_Z r / inject_Z d)%Q) in *. set (P := Q2 e) in *.
  set (Qq := inject_Z q) in *.
  destruct l as [|[]]; cbv beta iota in Hl.
  - rewrite (H0 Hl). ring.
  - rewrite (Heq Hl). ring.
  - destruct Hl as [Hl1 Hl2]. specialize (Hpos Hl1). specialize (Hlt Hl2).
    split; nra.
  - specialize (Hgt Hl). split; nra.
Qed.

(** The division hands binary_round_aux the quotient with enough
    digits. *)
Lemma SFdiv_core_binary_located (m1 m2 : positive) :
  exists (q e' : Z) (l : location),
    SFdiv_core_binary Number.prec Number.emax (Zpos m1) 0 (Zpos m2) 0
    = (q, e', l) /\
    0 <= q /\
    located (inject_Z (Zpos m1) / inject_Z (Zpos m2)) q e' l /\
    e' <= fexp Number.prec Number.emax (Zdigits2 q + e').
Proof.
  unfold SFdiv_core_binary.
  set (d1 := Zdigits2 (Zpos m1)). set (d2 := Zdigits2 (Zpos m2)).
  rewrite !Z.add_0_r, Z.sub_0_r, fexp_binary64.
  set (e' := Z.min (Z.max (d1 - d2 - 53) (-1074)) 0).
  set (s := 0 - e').
  assert (Hs : 0 <= s) by (unfold s, e'; lia).
  set (m' := match s with
             | 0 => Zpos m1
             | Zpos _ => Z.shiftl (Zpos m1) s
             | Zneg _ => 0
             end).
  assert (Em : m' = Zpos m1 * 2 ^ s).
  { unfold m'. clearbody s. destruct s as [|p|p]; try lia.
    rewrite Z.shiftl_mul_pow2 by lia. reflexivity. }
  clearbody m'.
  pose proof (Z_div_mod m' (Zpos m2) ltac:(lia)) as Hdiv.
  destruct (Z.div_eucl m' (Zpos m2)) as [q r]. destruct Hdiv as [Hq Hr].
  assert (Hpow : 0 < 2 ^ s) by (apply Z.pow_pos_nonneg; lia).
  assert (Hq0 : 0 <= q) by nia.
  exists q, e', (new_location (Zpos m2) r).
  split; [reflexivity|]. split; [exact Hq0|]. split.
  - pose proof (located_quotient m' (Zpos m2) q r e'
                  (new_location (Zpos m2) r) ltac:(lia) Hq Hr
                  (new_location_spec (Zpos m2) r ltac:(lia) Hr)) as H.
    revert H. apply located_eq.
    rewrite Em, inject_Z_mult. replace e' with (- s) by (unfold s; lia).
    rewrite <- (Q2_Z s) by exact Hs.
    assert (E : (Q2 s * Q2 (- s) == 1)%Q).
    { rewrite <- Q2_add. replace (s + - s) with 0 by lia. reflexivity. }
    set (A := Q2 s) in *. set (B := Q2 (- s)) in *.
    assert (HD : ~ (inject_Z (Zpos m2) == 0)%Q) by discriminate.
    transitivity (inject_Z (Zpos m1) / inject_Z (Zpos m2) * (A * B))%Q.
    + field. exact HD.
    + rewrite E. ring.
  - rewrite fexp_binary64.
    destruct (Z.eq_dec e' (-1074)) as [E|N]; [lia|].
    assert (He : e' <= d1 - d2 - 53) by (unfold e' in *; lia).
    pose proof (Zdigits2_bounds (Zpos m1) ltac:(lia)) as [H1 _]. fold d1 in H1.
    pose proof (Zdigits2_bounds (Zpos m2) ltac:(lia)) as [_ H2]. fold d2 in H2.
    assert (Hd1 : 0 < d1) by (unfold d1; simpl; lia).
    assert (Hd2 : 0 < d2) by (unfold d2; simpl; lia).
    assert (Hbig : 2 ^ (52 + d2) <= m').
    { rewrite Em.
      apply Z.le_trans with (2 ^ (d1 - 1) * 2 ^ s); [|nia].
      rewrite <- Z.pow_add_r by lia.
      apply Z.pow_le_mono_r; unfold s; lia. }
    rewrite Z.pow_add_r in Hbig by lia.
    assert (Hq52 : 2 ^ 52 <= q).
    { destruct (Z_le_gt_dec (2 ^ 52) q) as [L|G]; [exact L | exfalso].
      assert (q + 1 <= 2 ^ 52) by lia.
      assert (Zpos m2 * (q + 1) <= 2 ^ d2 * 2 ^ 52) by nia.
      nia. }
    pose proof (Zdigits2_bounds q ltac:(lia)) as [_ Hdq].
    assert (52 < Zdigits2 q).
    { apply (Z.pow_lt_mono_r_iff 2); [lia | apply Zdigits2_nonneg | lia]. }
    lia.
Qed.

Lemma canonical_eq (x x' : Q) (m e : Z) (l : location) :
  (x == x')%Q -> canonical x m e l -> canonical x' m e l.
Proof.
  intros E [H1 H2]. split; [|exact H2]. revert H1. apply located_eq, E.
Qed.

(** Reading a decimal brings it into canonical place and rounds it
    there, whatever its sign. *)
Lemma decimal_toNumber_placed (c : positive) (e : Z) :
  exists (m' e' : Z) (l' : location),
    canonical (inject_Z (Zpos c) * Qpow10 e) m' e' l' /\
    forall s, decimal_toNumber s c e = finish s m' e' l'.
Proof.
  unfold decimal_toNumber. destruct (Z.leb_spec 0 e) as [He|He].
  - destruct (binary_round_placed (c * pow10 e) 0) as [m' [e' [l' [Hc Hf]]]].
    exists m', e', l'. split.
    + revert Hc. apply canonical_eq.
      rewrite Pos2Z.inj_mul, inject_Z_mult, Qpow10_pow10 by exact He.
      change (Q2 0) with 1%Q. ring.
    + intros s. rewrite <- Hf. destruct s; reflexivity.
  - unfold Number.ofRatio, SFdiv.
    destruct (SFdiv_core_binary_located c (pow10 (- e)))
      as [q [e' [l [-> [Hq [Hloc Hexp]]]]]].
    eexists. eexists. eexists. split.
    + apply canonical_eq
        with (x := (inject_Z (Zpos c) / inject_Z (Zpos (pow10 (- e))))%Q).
      * rewrite Qpow10_pow10 by lia. rewrite Qpow10_opp.
        field. apply Qpow10_nonzero.
      * apply shr_fexp_canonical; eassumption.
    + intros s. rewrite xorb_false_r. apply binary_round_aux_finish.
Qed.

Lemma finish_opp (m e : Z) (l : location) :
  finish true m e l = SFopp (finish false m e l).
Proof.
  unfold finish.
  destruct (shr_fexp Number.prec Number.emax (round_nearest_even m l) e loc_Exact)
    as [mrs e'].
  destruct (shr_m mrs); try reflexivity.
  destruct (e' <=? Number.emax - Number.prec); reflexivity.
Qed.

Lemma decimal_toNumber_opp (c : positive) (e : Z) :
  decimal_toNumber true c e = SFopp (decimal_toNumber false c e).
Proof.
  destruct (decimal_toNumber_placed c e) as [m' [e' [l' [_ H]]]].
  rewrite !H. apply finish_opp.
Qed.

(** Reading positive decimals as numbers keeps their order. *)
Lemma decimal_toNumber_mono (c1 c2 : positive) (e1 e2 : Z) :
  (inject_Z (Zpos c1) * Qpow10 e1 <= inject_Z (Zpos c2) * Qpow10 e2)%Q ->
  SFleb (decimal_toNumber false c1 e1) (decimal_toNumber false c2 e2) = true.
Proof.
  intros H.
  destruct (decimal_toNumber_placed c1 e1) as [m1 [x1 [l1 [C1 H1]]]].
  destruct (decimal_toNumber_placed c2 e2) as [m2 [x2 [l2 [C2 H2]]]].
  rewrite H1, H2.
  apply (finish_mono _ _ _ _ _ _ _ _ C1 C2 H).
Qed.

Lemma SFleb_opp (a b : Number.t) :
  Number_signed false a -> Number_signed false b ->
  SFleb (SFopp b) (SFopp a) = SFleb a b.
Proof.
  destruct a as [sa|sa| |sa ma ea], b as [sb|sb| |sb mb eb]; simpl;
    intros Ha Hb; try contradiction; subst; try reflexivity.
  unfold SFleb, SFcompare.
  rewrite (Z.compare_antisym ea eb).
  change (Pos.compare_cont Eq mb ma) with (Pos.compare mb ma).
  change (Pos.compare_cont Eq ma mb) with (Pos.compare ma mb).
  rewrite (Pos.compare_antisym ma mb).
  destruct (ea ?= eb); simpl; try reflexivity.
  destruct (ma ?= mb)%positive; reflexivity.
Qed.

(** Reading decimals as numbers keeps their order: [+x <= +y] for
    BigNumbers [x <= y]. *)
Lemma BN_toNumber_mono (x y : BigNumber) :
  BN_le x y -> Number_le (BN_toNumber x) (BN_toNumber y).
Proof.
  unfold Number_le.
  destruct x as [| sx | sx cx ex], y as [| sy | sy cy ey];
    cbn [BN_le]; try contradiction.
  - intros [H|H]; subst; cbn [BN_toNumber].
    + destruct sy; reflexivity.
    + destruct sx; reflexivity.
  - intros ->. cbn [BN_toNumber].
    destruct cy as [|cy]; [reflexivity|].
    pose proof (decimal_toNumber_signed sy cy ey) as Hs.
    destruct (decimal_toNumber sy cy ey) as [s|s| |s m e]; simpl in Hs;
      try contradiction; try reflexivity. destruct s; reflexivity.
  - intros ->. cbn [BN_toNumber].
    destruct cx as [|cx]; [reflexivity|].
    pose proof (decimal_toNumber_signed sx cx ex) as Hs.
    destruct (decimal_toNumber sx cx ex) as [s|s| |s m e]; simpl in Hs;
      try contradiction; try reflexivity. destruct s; reflexivity.
  - intros H. pose proof (Qpow10_pos ex) as Px. pose proof (Qpow10_pos ey) as Py.
    cbn [BN_toNumber].
    assert (Hz : forall s, BN_signed s 0 = 0) by (intros []; reflexivity).
    destruct cx as [|cx], cy as [|cy]; rewrite ?Hz in H.
    + reflexivity.
    + pose proof (decimal_toNumber_signed sy cy ey) as Hs.
      destruct sy.
      * exfalso. unfold BN_signed in H. cbn [Z.of_N] in H.
        change (inject_Z 0) with 0%Q in H.
        assert (Hn : (inject_Z (- Zpos cy) < 0)%Q)
          by (change 0%Q with (inject_Z 0); rewrite <- Zlt_Qlt; lia).
        set (A := inject_Z (- Zpos cy)) in *. set (P := Qpow10 ey) in *.
        set (P' := Qpow10 ex) in *. nra.
      * destruct (decimal_toNumber false cy ey) as [s|s| |s m e]; simpl in Hs;
          try contradiction; subst; reflexivity.
    + pose proof (decimal_toNumber_signed sx cx ex) as Hs.
      destruct sx.
      * destruct (decimal_toNumber true cx ex) as [s|s| |s m e]; simpl in Hs;
          try contradiction; subst; reflexivity.
      * exfalso. unfold BN_signed in H. cbn [Z.of_N] in H.
        change (inject_Z 0) with 0%Q in H.
        assert (Hn : (0 < inject_Z (Zpos cx))%Q)
          by (change 0%Q with (inject_Z 0); rewrite <- Zlt_Qlt; lia).
        set (A := inject_Z (Zpos cx)) in *. set (P := Qpow10 ey) in *.
        set (P' := Qpow10 ex) in *. nra.
    + unfold BN_signed in H. cbn [Z.of_N] in H.
      assert (Hx : (0 < inject_Z (Zpos cx))%Q)
        by (change 0%Q with (inject_Z 0); rewrite <- Zlt_Qlt; lia).
      assert (Hy : (0 < inject_Z (Zpos cy))%Q)
        by (change 0%Q with (inject_Z 0); rewrite <- Zlt_Qlt; lia).
      destruct sx, sy.
      * rewrite (decimal_toNumber_opp cx ex), (decimal_toNumber_opp cy ey).
        rewrite SFleb_opp by apply decimal_toNumber_signed.
        apply decimal_toNumber_mono.
        rewrite !inject_Z_opp in H.
        set (A := inject_Z (Zpos cx)) in *. set (B := inject_Z (Zpos cy)) in *.
        set (P := Qpow10 ey) in *. set (P' := Qpow10 ex) in *. nra.
      * pose proof (decimal_toNumber_signed true cx ex) as Hsx.
        pose proof (decimal_toNumber_signed false cy ey) as Hsy.
        destruct (decimal_toNumber true cx ex) as [s|s| |s m e]; simpl in Hsx;
          try contradiction; subst;
          destruct (decimal_toNumber false cy ey) as [s|s| |s m' e']; simpl in Hsy;
          try contradiction; subst; reflexivity.
      * exfalso. rewrite inject_Z_opp in H.
        set (A := inject_Z (Zpos cx)) in *. set (B := inject_Z (Zpos cy)) in *.
        set (P := Qpow10 ey) in *. set (P' := Qpow10 ex) in *. nra.
      * apply decimal_toNumber_mono. exact H.
Qed.

Lemma placed_normal (x : Q) (m e : Z) (l : location) :
  canonical x m e l ->
  0 <= snd (placed m e l) < 2 ^ 53 /\ -1074 <= fst (placed m e l) /\
  (fst (placed m e l) = -1074 \/ 2 ^ 52 <= snd (placed m e l)).
Proof.
  intros [_ [Hm [He Hn]]]. unfold placed.
  pose proof (round_nearest_even_bounds m l) as Hr.
  destruct (Z.eqb_spec (round_nearest_even m l) (2 ^ 53)); cbn [fst snd]; lia.
Qed.

Lemma of_placed_normal (s : bool) (k : Z * Z) :
  0 <= snd k < 2 ^ 53 -> -1074 <= fst k ->
  (fst k = -1074 \/ 2 ^ 52 <= snd k) ->
  Number_normal (of_placed s k).
Proof.
  destruct k as [E M]. cbn [fst snd]. intros HM HE Hn. unfold of_placed.
  cbn [fst snd]. destruct M as [|M|M]; try exact I.
  destruct (Z.leb_spec E 971); [|exact I].
  cbn [Number_normal]. unfold normal. lia.
Qed.

(** Every number read from a decimal is in that form. *)
Lemma BN_toNumber_normal (x : BigNumber) : Number_normal (BN_toNumber x).
Proof.
  destruct x as [| s | s [|c] e]; try exact I.
  cbn [BN_toNumber].
  destruct (decimal_toNumber_placed c e) as [m' [e' [l' [Hc H]]]].
  rewrite H, finish_placed by apply Hc.
  destruct (placed_normal _ _ _ _ Hc) as [H1 [H2 H3]].
  apply of_placed_normal; assumption.
Qed.

Lemma normal_lt (m1 m2 : positive) (e1 e2 : Z) :
  normal m1 e1 -> normal m2 e2 -> e1 < e2 ->
  (inject_Z (Zpos m1) * Q2 e1 < inject_Z (Zpos m2) * Q2 e2)%Q.
Proof.
  intros [H1 [E1 _]] [_ [E2 [N|N]]] He; [lia|].
  pose proof (Q2_le (e1 + 1) e2 ltac:(lia)) as Hp. rewrite Q2_succ in Hp.
  pose proof (Q2_pos e1) as HP.
  assert (A : (inject_Z (Zpos m1) < inject_Z (2 ^ 53))%Q) by (rewrite <- Zlt_Qlt; exact H1).
  assert (B : (inject_Z (2 ^ 52) <= inject_Z (Zpos m2))%Q) by (rewrite <- Zle_Qle; exact N).
  change (inject_Z (2 ^ 52)) with (4503599627370496 # 1)%Q in B.
  change (inject_Z (2 ^ 53)) with (9007199254740992 # 1)%Q in A.
  set (P := Q2 e1) in *. set (P' := Q2 e2) in *.
  set (M := inject_Z (Zpos m1)) in *. set (M' := inject_Z (Zpos m2)) in *.
  assert (H3 : (M * P < 9007199254740992 * P)%Q) by nra.
  assert (H4 : (4503599627370496 * P' <= M' * P')%Q) by nra.
  nra.
Qed.

Lemma normal_compare (m1 m2 : positive) (e1 e2 : Z) :
  normal m1 e1 -> normal m2 e2 ->
  let X := (inject_Z (Zpos m1) * Q2 e1)%Q in
  let Y := (inject_Z (Zpos m2) * Q2 e2)%Q in
  match e1 ?= e2 with
  | Lt => (X < Y)%Q
  | Gt => (Y < X)%Q
  | Eq =>
      match (m1 ?= m2)%positive with
      | Lt => (X < Y)%Q
      | Gt => (Y < X)%Q
      | Eq => (X == Y)%Q
      end
  end.
Proof.
  intros N1 N2 X Y. unfold X, Y.
  destruct (Z.compare_spec e1 e2) as [E|L|G].
  - subst e2. pose proof (Q2_pos e1) as HP. set (P := Q2 e1) in *.
    destruct (Pos.compare_spec m1 m2) as [E|L|G].
    + subst m2. reflexivity.
    + assert (H : (inject_Z (Zpos m1) < inject_Z (Zpos m2))%Q)
        by (rewrite <- Zlt_Qlt; lia).
      set (M := inject_Z (Zpos m1)) in *. set (M' := inject_Z (Zpos m2)) in *.
      nra.
    + assert (H : (inject_Z (Zpos m2) < inject_Z (Zpos m1))%Q)
        by (rewrite <- Zlt_Qlt; lia).
      set (M := inject_Z (Zpos m1)) in *. set (M' := inject_Z (Zpos m2)) in *.
      nra.
  - apply normal_lt; assumption.
  - apply normal_lt; assumption.
Qed.

(** On numbers in that form the comparison of the Standard Library is the
    order of the values. *)
Lemma Number_le_values (x y : Number.t) (a b : Q) :
  Number_normal x -> Number_normal y ->
  Number_is x a -> Number_is y b ->
  (Number_le x y <-> (a <= b)%Q).
Proof.
  unfold Number_le, SFleb.
  destruct x as [sx|sx| |sx mx ex], y as [sy|sy| |sy my ey];
    cbn [Number_is Number_normal SFcompare]; try contradiction;
    intros Nx Ny Ha Hb;
    repeat match goal with
      | H : context [Qpower 2 ?e] |- _ => change (Qpower 2 e) with (Q2 e) in H
      end.
  - rewrite Ha, Hb. split; [intros _; lra | reflexivity].
  - pose proof (Q2_pos ey) as HP. rewrite Ha, <- Hb. set (P := Q2 ey) in *.
    destruct sy.
    + assert (A : (inject_Z (Zneg my) < 0)%Q)
        by (change 0%Q with (inject_Z 0); rewrite <- Zlt_Qlt; lia).
      set (M := inject_Z (Zneg my)) in *.
      split; [discriminate | intros H; exfalso; nra].
    + assert (A : (0 < inject_Z (Zpos my))%Q)
        by (change 0%Q with (inject_Z 0); rewrite <- Zlt_Qlt; lia).
      set (M := inject_Z (Zpos my)) in *.
      split; [intros _; nra | reflexivity].
  - pose proof (Q2_pos ex) as HP. rewrite Hb, <- Ha. set (P := Q2 ex) in *.
    destruct sx.
    + assert (A : (inject_Z (Zneg mx) < 0)%Q)
        by (change 0%Q with (inject_Z 0); rewrite <- Zlt_Qlt; lia).
      set (M := inject_Z (Zneg mx)) in *.
      split; [intros _; nra | reflexivity].
    + assert (A : (0 < inject_Z (Zpos mx))%Q)
        by (change 0%Q with (inject_Z 0); rewrite <- Zlt_Qlt; lia).
      set (M := inject_Z (Zpos mx)) in *.
      split; [discriminate | intros H; exfalso; nra].
  - pose proof (normal_compare mx my ex ey Nx Ny) as Hc. cbv zeta in Hc.
    assert (Hx : (0 < inject_Z (Zpos mx) * Q2 ex)%Q).
    { apply Qmult_lt_0_compat; [|apply Q2_pos].
      change 0%Q with (inject_Z 0). rewrite <- Zlt_Qlt. lia. }
    assert (Hy : (0 < inject_Z (Zpos my) * Q2 ey)%Q).
    { apply Qmult_lt_0_compat; [|apply Q2_pos].
      change 0%Q with (inject_Z 0). rewrite <- Zlt_Qlt. lia. }
    assert (Ea : (a == if sx then - (inject_Z (Zpos mx) * Q2 ex)
                       else inject_Z (Zpos mx) * Q2 ex)%Q).
    { rewrite <- Ha. destruct sx; [|reflexivity].
      change (Zneg mx) with (- Zpos mx). rewrite inject_Z_opp. ring. }
    assert (Eb : (b == if sy then - (inject_Z (Zpos my) * Q2 ey)
                       else inject_Z (Zpos my) * Q2 ey)%Q).
    { rewrite <- Hb. destruct sy; [|reflexivity].
      change (Zneg my) with (- Zpos my). rewrite inject_Z_opp. ring. }
    rewrite Ea, Eb. clear Ha Hb Ea Eb.
    set (X := (inject_Z (Zpos mx) * Q2 ex)%Q) in *.
    set (Y := (inject_Z (Zpos my) * Q2 ey)%Q) in *.
    change (Pos.compare_cont Eq mx my) with (Pos.compare mx my).
    destruct sx, sy; destruct (ex ?= ey); try destruct (mx ?= my)%positive;
      cbn [CompOpp]; split; intros H; try reflexivity; try discriminate;
      try lra; exfalso; lra.
Qed.

Lemma BN_lt_le (x y : BigNumber) : BN_lt x y -> BN_le x y.
Proof.
  destruct x as [| sx | sx cx ex], y as [| sy | sy cy ey]; simpl; try tauto.
  apply Qlt_le_weak.
Qed.

Section Ladder.

Variables (pairs : list PairConfig) (marketSymbol : string).
Variable marketDetails : MarketDetails.t.
Variables (ref interval : Q).

Hypothesis Href : BN_is (startPrice pairs marketSymbol marketDetails) ref.
Hypothesis Href_pos : (0 < ref)%Q.
Hypothesis Hint : BN_is (BN_ofNumber (getGridInterval pairs marketSymbol)) interval.
Hypothesis Hint_pos : (0 < interval)%Q.

Lemma buyPrice_le_reference (index : nat) :
  BN_le (buyPrice pairs marketSymbol marketDetails index)
        (startPrice pairs marketSymbol marketDetails).
Proof.
  apply (BN_le_of_values _ _ _ _
           (buyPrice_value pairs marketSymbol marketDetails index _ _ Href Hint)
           Href).
  pose proof (level_factor_pos interval index Hint_pos) as Hf.
  set (f := (interval * inject_Z (Z.of_nat index + 1))%Q) in *.
  destruct (Qlt_le_dec 1 f) as [L|L].
  - apply Qle_trans with 0%Q; [|lra].
    apply Qround_down_nonpos. nra.
  - apply Qle_trans with (ref * (1 - f))%Q; [|nra].
    apply Qround_down_le. nra.
Qed.

Lemma buyPrice_antitone (i j : nat) :
  (i < j)%nat ->
  BN_le (buyPrice pairs marketSymbol marketDetails j)
        (buyPrice pairs marketSymbol marketDetails i).
Proof.
  intros Hij.
  apply (BN_le_of_values _ _ _ _
           (buyPrice_value pairs marketSymbol marketDetails j _ _ Href Hint)
           (buyPrice_value pairs marketSymbol marketDetails i _ _ Href Hint)).
  apply Qround_down_mono.
  pose proof (level_factor_le interval i j Hint_pos Hij). nra.
Qed.

Lemma sellPrice_monotone (i j : nat) :
  (i < j)%nat ->
  BN_le (sellPrice pairs marketSymbol marketDetails i)
        (sellPrice pairs marketSymbol marketDetails j).
Proof.
  intros Hij.
  destruct (BN_ofNumber_toNumber_positive _ _ Href Href_pos)
    as [[q [Hq Hq0]]|Hinf].
  - apply (BN_le_of_values _ _ _ _
             (sellPrice_value pairs marketSymbol marketDetails i _ _ Hq Hint)
             (sellPrice_value pairs marketSymbol marketDetails j _ _ Hq Hint)).
    apply Qround_up_mono.
    pose proof (level_factor_le interval i j Hint_pos Hij). nra.
  - assert (Hlevel : forall k,
               sellPrice pairs marketSymbol marketDetails k = BN_Infinity false).
    { intros k. unfold sellPrice. rewrite Hinf.
      pose proof (BN_is_level_factor _ _ (0 + (Z.of_nat k + 1)) Hint) as Hf.
      destruct (BN_is_positive _ _ Hf) as [c [e ->]].
      - rewrite Z.add_0_l. pose proof (level_factor_pos interval k Hint_pos). lra.
      - reflexivity. }
    rewrite !Hlevel. simpl. right. reflexivity.
Qed.

Lemma sellPrice_ge_reference (index : nat) :
  BN_is (BN_ofNumber (BN_toNumber (startPrice pairs marketSymbol marketDetails)))
        ref ->
  BN_le (startPrice pairs marketSymbol marketDetails)
        (sellPrice pairs marketSymbol marketDetails index).
Proof.
  intros Hexact.
  apply (BN_le_of_values _ _ _ _ Href
           (sellPrice_value pairs marketSymbol marketDetails index _ _
              Hexact Hint)).
  pose proof (level_factor_pos interval index Hint_pos) as Hf.
  set (f := (interval * inject_Z (Z.of_nat index + 1))%Q) in *.
  apply Qle_trans with (ref * (1 + f))%Q; [nra|].
  apply Qround_up_ge. nra.
Qed.

End Ladder.

(** Levels at least one unit of the ask precision apart have different
    price decimals. *)
Lemma buyPrice_strict
    (pairs : list PairConfig) (marketSymbol : string)
    (marketDetails : MarketDetails.t) (ref interval : Q) (i j : nat) :
  BN_is (startPrice pairs marketSymbol marketDetails) ref -> (0 < ref)%Q ->
  BN_is (BN_ofNumber (getGridInterval pairs marketSymbol)) interval ->
  (0 < interval)%Q ->
  (interval * inject_Z (Z.of_nat j + 1) <= 1)%Q ->
  (tick (Z.of_nat (precision (ask_token (MarketDetails.market marketDetails))))
   <= ref * (interval * inject_Z (Z.of_nat j - Z.of_nat i)))%Q ->
  BN_lt (buyPrice pairs marketSymbol marketDetails j)
        (buyPrice pairs marketSymbol marketDetails i).
Proof.
  intros Href Hpos Hint Hipos Hlevel Hgap.
  pose proof (level_factor_pos interval i Hipos) as Hfi.
  set (fi := (interval * inject_Z (Z.of_nat i + 1))%Q) in *.
  set (fj := (interval * inject_Z (Z.of_nat j + 1))%Q) in *.
  assert (E : (fj - fi == interval * inject_Z (Z.of_nat j - Z.of_nat i))%Q).
  { unfold fi, fj. rewrite !inject_Z_plus, inject_Z_minus. ring. }
  rewrite <- E in Hgap.
  apply (BN_lt_of_values _ _ _ _
           (buyPrice_value pairs marketSymbol marketDetails j _ _ Href Hint)
           (buyPrice_value pairs marketSymbol marketDetails i _ _ Href Hint)).
  fold fi. fold fj. apply Qround_down_strict; nra.
Qed.

Lemma sellPrice_strict
    (pairs : list PairConfig) (marketSymbol : string)
    (marketDetails : MarketDetails.t) (ref' interval : Q) (i j : nat) :
  BN_is (BN_ofNumber (BN_toNumber (startPrice pairs marketSymbol marketDetails)))
        ref' ->
  (0 < ref')%Q ->
  BN_is (BN_ofNumber (getGridInterval pairs marketSymbol)) interval ->
  (0 < interval)%Q ->
  (tick (Z.of_nat (precision (ask_token (MarketDetails.market marketDetails))))
   <= ref' * (interval * inject_Z (Z.of_nat j - Z.of_nat i)))%Q ->
  BN_lt (sellPrice pairs marketSymbol marketDetails i)
        (sellPrice pairs marketSymbol marketDetails j).
Proof.
  intros Href Hpos Hint Hipos Hgap.
  pose proof (level_factor_pos interval i Hipos) as Hfi.
  set (fi := (interval * inject_Z (Z.of_nat i + 1))%Q) in *.
  set (fj := (interval * inject_Z (Z.of_nat j + 1))%Q) in *.
  assert (E : (fj - fi == interval * inject_Z (Z.of_nat j - Z.of_nat i))%Q).
  { unfold fi, fj. rewrite !inject_Z_plus, inject_Z_minus. ring. }
  rewrite <- E in Hgap.
  apply (BN_lt_of_values _ _ _ _
           (sellPrice_value pairs marketSymbol marketDetails i _ _ Href Hint)
           (sellPrice_value pairs marketSymbol marketDetails j _ _ Href Hint)).
  fold fi. fold fj. apply Qround_up_strict; nra.
Qed.

(** C7, as amended.  With a positive reference price and a positive grid
    interval, for i < j: the price of the buy order at j is at most the
    price of the buy order at i and the price of the sell order at j at
    least the price of the sell order at i; the price of every buy order is
    at most the reference price as a number, and the price of every sell
    order at least that when the reference price is a decimal that a number
    holds exactly.  The order prices are the numbers read from the decimals
    buyPrice and sellPrice, and the same holds of these decimals.  The
    decimals, moreover, differ when the two levels lie one unit of the ask
    precision apart or more (for buys, as long as the level stays above
    zero; for sells, when the reference price is a decimal that a number
    holds exactly). *)
Theorem ladder_prices_ordered
    (pairs : list PairConfig) (marketSymbol : string)
    (marketDetails : MarketDetails.t) (ref interval : Q) (i j : nat) :
  BN_is (startPrice pairs marketSymbol marketDetails) ref ->
  (0 < ref)%Q ->
  BN_is (BN_ofNumber (getGridInterval pairs marketSymbol)) interval ->
  (0 < interval)%Q ->
  (i < j)%nat ->
  let reference := startPrice pairs marketSymbol marketDetails in
  let buy := buyPrice pairs marketSymbol marketDetails in
  let sell := sellPrice pairs marketSymbol marketDetails in
  let buyOrderAt index :=
    createBuyOrder pairs marketSymbol marketDetails index in
  let sellOrderAt index :=
    createSellOrder pairs marketSymbol marketDetails index in
  let exact := BN_is (BN_ofNumber (BN_toNumber reference)) ref in
  let apart :=
    (tick (Z.of_nat (precision (ask_token (MarketDetails.market marketDetails))))
     <= ref * (interval * inject_Z (Z.of_nat j - Z.of_nat i)))%Q in
  (Number_le (Order.price (buyOrderAt j)) (Order.price (buyOrderAt i)) /\
   Number_le (Order.price (sellOrderAt i)) (Order.price (sellOrderAt j)) /\
   (forall index,
       Number_le (Order.price (buyOrderAt index)) (BN_toNumber reference)) /\
   (exact ->
    forall index,
      Number_le (BN_toNumber reference) (Order.price (sellOrderAt index)))) /\
  (forall index,
      Order.price (buyOrderAt index) = BN_toNumber (buy index) /\
      Order.price (sellOrderAt index) = BN_toNumber (sell index)) /\
  (BN_le (buy j) (buy i) /\
   BN_le (sell i) (sell j) /\
   (forall index, BN_le (buy index) reference) /\
   (exact -> forall index, BN_le reference (sell index))) /\
  (apart -> (interval * inject_Z (Z.of_nat j + 1) <= 1)%Q ->
   BN_lt (buy j) (buy i)) /\
  (apart -> exact -> BN_lt (sell i) (sell j)).
Proof.
  intros Href Href_pos Hint Hint_pos Hij reference buy sell buyOrderAt sellOrderAt
         exact apart.
  assert (Hbuy : BN_le (buy j) (buy i)).
  { apply (buyPrice_antitone pairs marketSymbol marketDetails ref interval);
      assumption. }
  assert (Hsell : BN_le (sell i) (sell j)).
  { apply (sellPrice_monotone pairs marketSymbol marketDetails ref interval);
      assumption. }
  assert (Hbelow : forall index, BN_le (buy index) reference).
  { intros index.
    apply (buyPrice_le_reference pairs marketSymbol marketDetails ref interval);
      assumption. }
  assert (Habove : exact -> forall index, BN_le reference (sell index)).
  { intros Hexact index.
    apply (sellPrice_ge_reference pairs marketSymbol marketDetails ref interval);
      assumption. }
  split; [|split; [|split; [|split]]].
  - split; [|split; [|split]].
    + apply (BN_toNumber_mono (buy j) (buy i)), Hbuy.
    + apply (BN_toNumber_mono (sell i) (sell j)), Hsell.
    + intros index. apply (BN_toNumber_mono (buy index) reference), Hbelow.
    + intros Hexact index.
      apply (BN_toNumber_mono reference (sell index)), Habove, Hexact.
  - intros index. split; reflexivity.
  - split; [exact Hbuy|]. split; [exact Hsell|].
    split; [exact Hbelow | exact Habove].
  - intros Hgap Hlevel.
    apply (buyPrice_strict pairs marketSymbol marketDetails ref interval);
      assumption.
  - intros Hgap Hexact.
    apply (sellPrice_strict pairs marketSymbol marketDetails ref interval);
      assumption.
Qed.

(** ** Quantity and adjusted total *)

Lemma Qround_has_places (rm : RoundingMode) (q : Q) (dp : Z) :
  exists z : Z, (Qround rm q dp == inject_Z z / Qpow10 dp)%Q.
Proof. exists (Zround rm (q * Qpow10 dp)). reflexivity. Qed.

(** Reading the quantity decimal as a number gives a non-negative finite
    number or plus infinity, and plus infinity makes the adjusted total plus
    infinity. *)
Lemma quantity_read_back
    (price totalCost : Number.t) (bidPrecision askPrecision : nat)
    (P C : Q) :
  BN_is (BN_ofNumber price) P -> (0 < P)%Q ->
  BN_is (BN_ofNumber totalCost) C -> (0 < C)%Q ->
  let r :=
    getQuantityAndAdjustedTotal price totalCost bidPrecision askPrecision in
  (exists q' : Q,
      BN_is (BN_ofNumber (QuantityAndAdjustedTotal.quantity r)) q' /\
      (0 <= q')%Q) \/
  (QuantityAndAdjustedTotal.quantity r = S754_infinity false /\
   QuantityAndAdjustedTotal.adjustedTotal r = S754_infinity false).
Proof.
  intros HP HP0 HC HC0 r.
  assert (HPnz : ~ (P == 0)%Q) by (intros E; rewrite E in HP0; discriminate).
  set (q := Qround ROUND_UP (Qround ROUND_HALF_UP (C / P) DECIMAL_PLACES)
                   (Z.of_nat bidPrecision)).
  set (D := BN_toFixed (BN_dividedBy (BN_ofNumber totalCost) (BN_ofNumber price))
                       bidPrecision ROUND_UP).
  assert (Hq : BN_is D q) by (apply BN_is_toFixed, BN_is_dividedBy; assumption).
  assert (Hq0 : (0 <= q)%Q).
  { apply Qround_up_nonneg.
    rewrite <- (Qround_0 ROUND_HALF_UP DECIMAL_PLACES).
    apply Qround_half_up_mono. apply Qle_shift_div_l; [exact HP0 | lra]. }
  assert (Hr : QuantityAndAdjustedTotal.quantity r = BN_toNumber D) by reflexivity.
  assert (Ha : QuantityAndAdjustedTotal.adjustedTotal r =
               BN_toNumber
                 (BN_toFixed
                    (BN_times (BN_ofNumber price)
                       (BN_ofNumber (QuantityAndAdjustedTotal.quantity r)))
                    askPrecision ROUND_UP)) by reflexivity.
  destruct (Qlt_le_dec 0 q) as [Hpos | Hle].
  - destruct (BN_ofNumber_toNumber_positive D q Hq Hpos) as [[q' [H1 H2]] | Hinf].
    + left. exists q'. rewrite Hr. split; assumption.
    + right. rewrite <- Hr in Hinf.
      assert (Hv : QuantityAndAdjustedTotal.quantity r = S754_infinity false).
      { destruct (QuantityAndAdjustedTotal.quantity r) as [s|s| |s m e];
          cbv beta iota delta [BN_ofNumber] in Hinf; try discriminate.
        inversion Hinf. reflexivity. }
      split; [exact Hv|].
      rewrite Ha, Hv.
      destruct (BN_is_positive _ _ HP HP0) as [c [e ->]]. reflexivity.
  - left. exists 0%Q. split; [|lra].
    rewrite Hr.
    destruct (BN_is_zero D q Hq) as [s [e ->]]; [lra|].
    destruct s; vm_compute; reflexivity.
Qed.

(** C6, as amended: for a price and a targetCost that are finite positive
    numbers (BigNumber reads them as positive decimals), quantity is the
    number read from the decimal round_up(q20, qtyPrecision), q20 being
    targetCost / price rounded half up to 20 places by dividedBy.  That
    number is plus infinity, and then adjustedTotal is plus infinity too, or
    BigNumber reads it back as a decimal q' >= 0, and then adjustedTotal is
    the number read from round_up(price * q', costPrecision), a decimal of
    at most costPrecision places.  When qtyPrecision <= 20 and q20 is not a
    multiple of 10^-qtyPrecision below the exact quotient, the quantity
    decimal is round_up(targetCost / price, qtyPrecision) and price times it
    is at least targetCost; when moreover the quantity reads back as that
    decimal, the adjustedTotal decimal is at least targetCost. *)
Theorem quantity_and_adjusted_total
    (price totalCost : Number.t) (bidPrecision askPrecision : nat)
    (P C : Q) :
  BN_is (BN_ofNumber price) P -> (0 < P)%Q ->
  BN_is (BN_ofNumber totalCost) C -> (0 < C)%Q ->
  let r :=
    getQuantityAndAdjustedTotal price totalCost bidPrecision askPrecision in
  let q20 := Qround ROUND_HALF_UP (C / P) DECIMAL_PLACES in
  let q := Qround ROUND_UP q20 (Z.of_nat bidPrecision) in
  let exact :=
    Z.of_nat bidPrecision <= DECIMAL_PLACES /\
    ((C / P <= q20)%Q \/ ~ (q == q20)%Q) in
  (exists quantity : BigNumber,
      BN_is quantity q /\
      QuantityAndAdjustedTotal.quantity r = BN_toNumber quantity) /\
  (exact ->
   (q == Qround ROUND_UP (C / P) (Z.of_nat bidPrecision))%Q /\
   (C <= P * q)%Q) /\
  (forall q' : Q,
      BN_is (BN_ofNumber (QuantityAndAdjustedTotal.quantity r)) q' ->
      exists adjustedTotal : BigNumber,
        BN_is adjustedTotal (Qround ROUND_UP (P * q') (Z.of_nat askPrecision)) /\
        (exists z : Z,
            BN_is adjustedTotal (inject_Z z / Qpow10 (Z.of_nat askPrecision))) /\
        QuantityAndAdjustedTotal.adjustedTotal r = BN_toNumber adjustedTotal /\
        (exact -> (q' == q)%Q ->
         (C <= Qround ROUND_UP (P * q') (Z.of_nat askPrecision))%Q)) /\
  ((exists q' : Q,
       BN_is (BN_ofNumber (QuantityAndAdjustedTotal.quantity r)) q' /\
       (0 <= q')%Q) \/
   (QuantityAndAdjustedTotal.quantity r = S754_infinity false /\
    QuantityAndAdjustedTotal.adjustedTotal r = S754_infinity false)).
Proof.
  intros HP HP0 HC HC0 r q20 q exact.
  assert (HPnz : ~ (P == 0)%Q) by (intros E; rewrite E in HP0; discriminate).
  assert (Hquot : (0 <= C / P)%Q).
  { apply Qle_shift_div_l; [exact HP0|]. lra. }
  assert (Hq : BN_is (BN_toFixed (BN_dividedBy (BN_ofNumber totalCost)
                                               (BN_ofNumber price))
                                 bidPrecision ROUND_UP) q).
  { apply BN_is_toFixed, BN_is_dividedBy; assumption. }
  assert (Hexact : exact ->
            (q == Qround ROUND_UP (C / P) (Z.of_nat bidPrecision))%Q /\
            (C <= P * q)%Q).
  { intros [Hbp Hno].
    assert (E : (q == Qround ROUND_UP (C / P) (Z.of_nat bidPrecision))%Q).
    { apply Qround_up_after_half_up; [exact Hquot | lia | exact Hno]. }
    split; [exact E|].
    pose proof (Qround_up_ge (Z.of_nat bidPrecision) (C / P) Hquot) as Hge.
    rewrite <- E in Hge.
    assert (EC : (C == P * (C / P))%Q) by (field; exact HPnz).
    rewrite EC at 1. apply Qmult_le_l; assumption. }
  split; [|split; [|split]].
  - eexists. split; [exact Hq | reflexivity].
  - exact Hexact.
  - intros q' Hq'.
    exists (BN_toFixed (BN_times (BN_ofNumber price)
                                 (BN_ofNumber (QuantityAndAdjustedTotal.quantity r)))
                       askPrecision ROUND_UP).
    assert (Ha : BN_is (BN_toFixed
                          (BN_times (BN_ofNumber price)
                             (BN_ofNumber (QuantityAndAdjustedTotal.quantity r)))
                          askPrecision ROUND_UP)
                       (Qround ROUND_UP (P * q') (Z.of_nat askPrecision))).
    { apply BN_is_toFixed, BN_is_times; assumption. }
    split; [exact Ha|]. split; [|split].
    + destruct (Qround_has_places ROUND_UP (P * q') (Z.of_nat askPrecision))
        as [z Hz].
      exists z. revert Ha. apply BN_is_eq. exact Hz.
    + reflexivity.
    + intros Hex Eq'. destruct (Hexact Hex) as [_ Hge].
      apply Qle_trans with (P * q')%Q.
      * rewrite Eq'. exact Hge.
      * apply Qround_up_ge. rewrite Eq'.
        apply Qle_trans with C; [lra | exact Hge].
  - apply (quantity_read_back price totalCost bidPrecision askPrecision P C);
      assumption.
Qed.

Lemma quantity_and_adjusted_total_witness :
  let r := getQuantityAndAdjustedTotal (num 3 0) (num 1 0) 4 4 in
  let q := Qround ROUND_UP (Qround ROUND_HALF_UP (1 / 3) DECIMAL_PLACES) 4 in
  (q == 3334 # 10000)%Q /\
  (exists quantity : BigNumber,
      BN_is quantity q /\
      QuantityAndAdjustedTotal.quantity r = BN_toNumber quantity) /\
  ((q == Qround ROUND_UP (1 / 3) 4)%Q /\ (1 <= 3 * q)%Q) /\
  (exists adjustedTotal : BigNumber,
      BN_is adjustedTotal (Qround ROUND_UP (3 * q) 4) /\
      QuantityAndAdjustedTotal.adjustedTotal r = BN_toNumber adjustedTotal /\
      (1 <= Qround ROUND_UP (3 * q) 4)%Q).
Proof.
  intros r q.
  assert (Hexact : Z.of_nat 4 <= DECIMAL_PLACES /\
                   ((1 / 3 <= Qround ROUND_HALF_UP (1 / 3) DECIMAL_PLACES)%Q \/
                    ~ (q == Qround ROUND_HALF_UP (1 / 3) DECIMAL_PLACES)%Q)).
  { split; [vm_compute; discriminate|]. right. vm_compute. discriminate. }
  destruct (quantity_and_adjusted_total (num 3 0) (num 1 0) 4 4 3 1)
    as [Hq [Hx [Ha _]]].
  - vm_compute. reflexivity.
  - reflexivity.
  - vm_compute. reflexivity.
  - reflexivity.
  - split; [vm_compute; reflexivity|].
    split; [exact Hq|]. split; [exact (Hx Hexact)|].
    destruct (Ha q) as [adjustedTotal [H1 [_ [H2 H3]]]].
    + vm_compute. reflexivity.
    + exists adjustedTotal. split; [exact H1|]. split; [exact H2|].
      apply H3; [exact Hexact | reflexivity].
Defined.

(** C6 as stated fails on price 1e21 and targetCost 1 with 4 places on
    both sides: the quotient 1e-21 is rounded to 0 at 20 places, so the
    quantity is 0, not round_up(1e-21, 4) = 0.0001, and price * quantity =
    0 is below targetCost. *)
Lemma quantity_lost_in_division :
  let r := getQuantityAndAdjustedTotal (num 1 21) (num 1 0) 4 4 in
  let P := inject_Z (10 ^ 21) in
  BN_is (BN_ofNumber (num 1 21)) P /\
  BN_is (BN_ofNumber (num 1 0)) 1 /\
  QuantityAndAdjustedTotal.quantity r = Number.ofZ 0 /\
  BN_is (BN_ofNumber (QuantityAndAdjustedTotal.quantity r)) 0 /\
  (Qround ROUND_UP (1 / P) 4 == 1 # 10000)%Q /\
  ~ (1 <= P * 0)%Q /\
  QuantityAndAdjustedTotal.adjustedTotal r = Number.ofZ 0.
Proof.
  intros r P.
  refine (conj _ (conj _ (conj _ (conj _ (conj _ (conj _ _))))));
    vm_compute; try reflexivity; intros H; apply H; reflexivity.
Qed.

Lemma ladder_prices_ordered_witness :
  let pairs := [Examples.pair_of (num 1 (-2)) (JsString "AVERAGE")] in
  let reference := startPrice pairs "XPR_XMD" Examples.snapshot in
  let buy := buyPrice pairs "XPR_XMD" Examples.snapshot in
  let sell := sellPrice pairs "XPR_XMD" Examples.snapshot in
  let buyOrderAt index := createBuyOrder pairs "XPR_XMD" Examples.snapshot index in
  let sellOrderAt index := createSellOrder pairs "XPR_XMD" Examples.snapshot index in
  (Number_le (Order.price (buyOrderAt 1%nat)) (Order.price (buyOrderAt 0%nat)) /\
   Number_le (Order.price (sellOrderAt 0%nat)) (Order.price (sellOrderAt 1%nat)) /\
   (forall index,
       Number_le (Order.price (buyOrderAt index)) (BN_toNumber reference)) /\
   (forall index,
       Number_le (BN_toNumber reference) (Order.price (sellOrderAt index)))) /\
  (BN_le (buy 1%nat) (buy 0%nat) /\
   BN_le (sell 0%nat) (sell 1%nat) /\
   (forall index, BN_le (buy index) reference) /\
   (forall index, BN_le reference (sell index))) /\
  BN_lt (buy 1%nat) (buy 0%nat) /\
  BN_lt (sell 0%nat) (sell 1%nat).
Proof.
  intros pairs reference buy sell buyOrderAt sellOrderAt.
  destruct (ladder_prices_ordered pairs "XPR_XMD" Examples.snapshot
              101 (1 # 100) 0 1)
    as [[N1 [N2 [N3 N4]]] [_ [[D1 [D2 [D3 D4]]] [S1 S2]]]].
  - vm_compute. reflexivity.
  - reflexivity.
  - vm_compute. reflexivity.
  - reflexivity.
  - lia.
  - assert (Hexact : BN_is (BN_ofNumber (BN_toNumber reference)) 101)
      by (vm_compute; reflexivity).
    assert (Hapart :
              (tick (Z.of_nat (precision (ask_token
                       (MarketDetails.market Examples.snapshot))))
               <= 101 * ((1 # 100) * inject_Z (Z.of_nat 1 - Z.of_nat 0)))%Q)
      by (vm_compute; discriminate).
    split; [|split; [|split]].
    + split; [exact N1|]. split; [exact N2|].
      split; [exact N3 | exact (N4 Hexact)].
    + split; [exact D1|]. split; [exact D2|].
      split; [exact D3 | exact (D4 Hexact)].
    + apply S1; [exact Hapart | vm_compute; discriminate].
    + exact (S2 Hapart Hexact).
Defined.

(** C7 as stated fails on a reference price 1 with interval 0.001 and an
    ask precision of 2: the buy prices at levels 0 and 1 are both 0.99 and
    the sell prices both 1.01, so neither side is strictly ordered.  And
    order prices, being numbers, can coincide where the decimals differ:
    with a reference price 1, an interval of 1e-20 and 30 decimals the buy
    decimals at levels 0 and 1 are 0.99999999999999999999 and
    0.99999999999999999998 and the sell decimals 1.00000000000000000001 and
    1.00000000000000000002, one unit of the ask precision apart and more,
    and all four orders carry the price 1. *)
Lemma rounded_levels_coincide :
  let pairs := [Examples.pair_of (num 1 (-3)) (JsString "AVERAGE")] in
  let buy := buyPrice pairs "XPR_XMD" Examples.flat in
  let sell := sellPrice pairs "XPR_XMD" Examples.flat in
  let pairs' := [Examples.pair_of (num 1 (-20)) (JsString "AVERAGE")] in
  let buy' := buyPrice pairs' "XPR_XMD" Readings.deep in
  let sell' := sellPrice pairs' "XPR_XMD" Readings.deep in
  let unit20 := (1 # 100000000000000000000)%Q in
  (BN_is (startPrice pairs "XPR_XMD" Examples.flat) 1 /\
   BN_is (BN_ofNumber (getGridInterval pairs "XPR_XMD")) (1 # 1000) /\
   BN_is (buy 0%nat) (99 # 100) /\ BN_is (buy 1%nat) (99 # 100) /\
   BN_is (sell 0%nat) (101 # 100) /\ BN_is (sell 1%nat) (101 # 100) /\
   ~ BN_lt (buy 1%nat) (buy 0%nat) /\
   ~ BN_lt (sell 0%nat) (sell 1%nat)) /\
  (BN_is (startPrice pairs' "XPR_XMD" Readings.deep) 1 /\
   BN_is (BN_ofNumber (BN_toNumber (startPrice pairs' "XPR_XMD" Readings.deep)))
         1 /\
   BN_is (BN_ofNumber (getGridInterval pairs' "XPR_XMD")) unit20 /\
   (tick 30 <= 1 * (unit20 * inject_Z (Z.of_nat 1 - Z.of_nat 0)))%Q /\
   BN_is (buy' 0%nat) (1 - unit20) /\ BN_is (buy' 1%nat) (1 - 2 * unit20) /\
   BN_is (sell' 0%nat) (1 + unit20) /\ BN_is (sell' 1%nat) (1 + 2 * unit20) /\
   BN_lt (buy' 1%nat) (buy' 0%nat) /\ BN_lt (sell' 0%nat) (sell' 1%nat) /\
   Order.price (createBuyOrder pairs' "XPR_XMD" Readings.deep 0) = num 1 0 /\
   Order.price (createBuyOrder pairs' "XPR_XMD" Readings.deep 1) = num 1 0 /\
   Order.price (createSellOrder pairs' "XPR_XMD" Readings.deep 0) = num 1 0 /\
   Order.price (createSellOrder pairs' "XPR_XMD" Readings.deep 1) = num 1 0).
Proof.
  intros pairs buy sell pairs' buy' sell' unit20.
  split.
  - refine (conj _ (conj _ (conj _ (conj _ (conj _ (conj _ (conj _ _)))))));
      vm_compute; try reflexivity; discriminate.
  - refine (conj _ (conj _ (conj _ (conj _ (conj _ (conj _
             (conj _ (conj _ (conj _ (conj _ (conj _ (conj _ (conj _ _)))))))))))));
      vm_compute; try reflexivity; discriminate.
Qed.

(** The conditions of the ordering of sell prices and of the quantity are
    needed.  A sell price can lie below a reference price that no number
    holds exactly: with best bid 1, best ask 1.0000000000000002, an
    interval of 1e-20 and 30 decimals, the reference price is
    1.0000000000000001 and the first sell is priced 1.00000000000000000001. *)
Lemma sell_below_inexact_reference :
  let pairs := [Examples.pair_of (num 1 (-20)) (JsString "AVERAGE")] in
  BN_is (startPrice pairs "XPR_XMD" Examples.fine)
        (10000000000000001 # 10000000000000000) /\
  BN_is (sellPrice pairs "XPR_XMD" Examples.fine 0)
        (100000000000000000001 # 100000000000000000000) /\
  ~ BN_le (startPrice pairs "XPR_XMD" Examples.fine)
          (sellPrice pairs "XPR_XMD" Examples.fine 0).
Proof.
  intros pairs.
  refine (conj _ (conj _ _)); vm_compute; try reflexivity.
  intros H. apply H. reflexivity.
Qed.

(** With more than 20 places asked for, the division has already cut the
    quotient; and a quantity of more digits than a number holds reads back
    smaller, so that price times quantity falls below targetCost. *)
Lemma quantity_conditions_needed :
  ~ (Qround ROUND_UP (Qround ROUND_HALF_UP (2 / 3) DECIMAL_PLACES) 25
     == Qround ROUND_UP (2 / 3) 25)%Q /\
  (let r := getQuantityAndAdjustedTotal (num 3 0) (num 1 20) 4 4 in
   Qround ROUND_UP (Qround ROUND_HALF_UP (inject_Z (10 ^ 20) / 3) DECIMAL_PLACES) 4
   == 333333333333333333333334 # 10000 /\
   BN_is (BN_ofNumber (QuantityAndAdjustedTotal.quantity r))
         (inject_Z 33333333333333330000) /\
   ~ (inject_Z (10 ^ 20) <= 3 * inject_Z 33333333333333330000))%Q.
Proof.
  refine (conj _ (conj _ (conj _ _))); vm_compute; try reflexivity;
    try discriminate.
  intros H. apply H. reflexivity.
Qed.

(** The quantity decimal can lie beyond the numbers: at price 0.1 and
    targetCost 1e308 it is 1e309, which reads as plus infinity, and the
    adjusted total is plus infinity with it. *)
Lemma quantity_beyond_binary64 :
  let r := getQuantityAndAdjustedTotal (num 1 (-1)) (num 1 308) 4 4 in
  BN_is (BN_ofNumber (num 1 (-1))) (1 # 10) /\
  BN_is (BN_ofNumber (num 1 308)) (inject_Z (10 ^ 308)) /\
  QuantityAndAdjustedTotal.quantity r = S754_infinity false /\
  QuantityAndAdjustedTotal.adjustedTotal r = S754_infinity false.
Proof.
  intros r.
  refine (conj _ (conj _ (conj _ _))); vm_compute; reflexivity.
Qed.

(** * Further properties *)

(** ** More on quantity and adjusted total *)

Lemma sizes_at_zero
    (s : bool) (totalCost : Number.t) (bidPrecision askPrecision : nat) (C : Q) :
  BN_is (BN_ofNumber totalCost) C -> (0 < C)%Q ->
  let r := getQuantityAndAdjustedTotal (S754_zero s) totalCost
             bidPrecision askPrecision in
  QuantityAndAdjustedTotal.quantity r = S754_infinity s /\
  QuantityAndAdjustedTotal.adjustedTotal r = S754_nan.
Proof.
  intros HC HC0 r. unfold r, getQuantityAndAdjustedTotal.
  destruct (BN_is_positive _ _ HC HC0) as [c [e ->]].
  cbn [BN_ofNumber BN_dividedBy N.eqb BN_toFixed BN_decimalPlaces BN_toNumber
       BN_times QuantityAndAdjustedTotal.quantity
       QuantityAndAdjustedTotal.adjustedTotal xorb].
  split; reflexivity.
Qed.

(** A NaN price or target cost makes both results NaN. *)
Theorem sizes_of_nan (x : Number.t) (bidPrecision askPrecision : nat) :
  getQuantityAndAdjustedTotal S754_nan x bidPrecision askPrecision
    = QuantityAndAdjustedTotal.mk S754_nan S754_nan /\
  getQuantityAndAdjustedTotal x S754_nan bidPrecision askPrecision
    = QuantityAndAdjustedTotal.mk S754_nan S754_nan.
Proof.
  unfold getQuantityAndAdjustedTotal. split.
  - destruct (BN_ofNumber x); reflexivity.
  - cbn [BN_ofNumber BN_dividedBy BN_toFixed BN_decimalPlaces BN_toNumber].
    destruct (BN_ofNumber x) as [| |s c e]; try reflexivity.
Qed.

(** A higher price never gives a larger quantity, a higher target cost
    never a smaller one. *)
Theorem quantity_monotone
    (price1 price2 cost1 cost2 : Number.t) (bidPrecision askPrecision : nat)
    (P1 P2 C1 C2 : Q) :
  BN_is (BN_ofNumber price1) P1 -> BN_is (BN_ofNumber price2) P2 ->
  BN_is (BN_ofNumber cost1) C1 -> BN_is (BN_ofNumber cost2) C2 ->
  (0 < P1)%Q -> (P1 <= P2)%Q -> (0 <= C2)%Q -> (C2 <= C1)%Q ->
  exists quantity1 quantity2 : BigNumber,
    QuantityAndAdjustedTotal.quantity
      (getQuantityAndAdjustedTotal price1 cost1 bidPrecision askPrecision)
      = BN_toNumber quantity1 /\
    QuantityAndAdjustedTotal.quantity
      (getQuantityAndAdjustedTotal price2 cost2 bidPrecision askPrecision)
      = BN_toNumber quantity2 /\
    BN_le quantity2 quantity1.
Proof.
  intros HP1 HP2 HC1 HC2 H0 HP H0C HC.
  assert (N1 : ~ (P1 == 0)%Q) by (intros E; rewrite E in H0; discriminate).
  assert (N2 : ~ (P2 == 0)%Q) by (intros E; rewrite E in HP; lra).
  pose proof (BN_is_toFixed _ _ bidPrecision ROUND_UP
                (BN_is_dividedBy _ _ _ _ HC1 HP1 N1)) as Q1.
  pose proof (BN_is_toFixed _ _ bidPrecision ROUND_UP
                (BN_is_dividedBy _ _ _ _ HC2 HP2 N2)) as Q2.
  eexists. eexists. split; [reflexivity|]. split; [reflexivity|].
  apply (BN_le_of_values _ _ _ _ Q2 Q1).
  apply Qround_up_mono, Qround_half_up_mono.
  apply Qle_shift_div_l; [lra|].
  assert (E : (C2 / P2 * P1 == C2 * (P1 / P2))%Q) by (field; exact N2).
  rewrite E.
  assert (P1 / P2 <= 1)%Q by (apply Qle_shift_div_r; lra).
  nra.
Qed.

(** ** More on ladder prices *)

Lemma startPrice_value
    (pairs : list PairConfig) (marketSymbol : string)
    (marketDetails : MarketDetails.t) (ask bid : Q) :
  BN_is (BN_ofNumber (MarketDetails.lowestAsk marketDetails)) ask ->
  BN_is (BN_ofNumber (MarketDetails.highestBid marketDetails)) bid ->
  BN_is (startPrice pairs marketSymbol marketDetails)
        (Qround ROUND_HALF_UP ((ask + bid) / 2) DECIMAL_PLACES).
Proof.
  intros Ha Hb. rewrite startPrice_is_average.
  pose proof (BN_is_dividedBy _ _ _ _ (BN_is_plus _ _ _ _ Ha Hb) (BN_is_ofZ 2))
    as H.
  apply H. discriminate.
Qed.

(** The sell price as the code computes it: from the reference price as a
    number holds it. *)
Theorem sell_price_rounded_up
    (pairs : list PairConfig) (marketSymbol : string)
    (marketDetails : MarketDetails.t) (index : nat) (ref interval : Q) :
  BN_is (BN_ofNumber (BN_toNumber (startPrice pairs marketSymbol marketDetails)))
        ref ->
  BN_is (BN_ofNumber (getGridInterval pairs marketSymbol)) interval ->
  let askPrecision :=
    precision (ask_token (MarketDetails.market marketDetails)) in
  exists sellPrice : BigNumber,
    BN_is sellPrice
          (Qround ROUND_UP
             (ref * (1 + interval * inject_Z (Z.of_nat index + 1)))
             (Z.of_nat askPrecision)) /\
    Order.price (createSellOrder pairs marketSymbol marketDetails index)
    = BN_toNumber sellPrice.
Proof.
  intros Href Hint askPrecision.
  exists (sellPrice pairs marketSymbol marketDetails index). split.
  - apply sellPrice_value; assumption.
  - reflexivity.
Qed.

(** Rounding moves the decimal of a level by less than one unit of the
    ask precision: the BigNumber buyPrice lies at most at the level and less
    than one unit below it, the BigNumber sellPrice at least at the level
    and less than one unit above it.  The order's price is the number read
    from that decimal: it lies between the numbers read from any decimal at
    or beyond one end and any decimal at or beyond the other end of that
    stretch. *)
Theorem level_prices_within_one_tick
    (pairs : list PairConfig) (marketSymbol : string)
    (marketDetails : MarketDetails.t) (index : nat) (ref interval : Q) :
  BN_is (startPrice pairs marketSymbol marketDetails) ref -> (0 < ref)%Q ->
  BN_is (BN_ofNumber (BN_toNumber (startPrice pairs marketSymbol marketDetails)))
        ref ->
  BN_is (BN_ofNumber (getGridInterval pairs marketSymbol)) interval ->
  (0 < interval)%Q ->
  (interval * inject_Z (Z.of_nat index + 1) <= 1)%Q ->
  let askPrecision :=
    Z.of_nat (precision (ask_token (MarketDetails.market marketDetails))) in
  let level := (interval * inject_Z (Z.of_nat index + 1))%Q in
  exists buy sell : Q,
    BN_is (buyPrice pairs marketSymbol marketDetails index) buy /\
    BN_is (sellPrice pairs marketSymbol marketDetails index) sell /\
    Order.price (createBuyOrder pairs marketSymbol marketDetails index)
    = BN_toNumber (buyPrice pairs marketSymbol marketDetails index) /\
    Order.price (createSellOrder pairs marketSymbol marketDetails index)
    = BN_toNumber (sellPrice pairs marketSymbol marketDetails index) /\
    (ref * (1 - level) - tick askPrecision < buy)%Q /\
    (buy <= ref * (1 - level))%Q /\
    (ref * (1 + level) <= sell)%Q /\
    (sell < ref * (1 + level) + tick askPrecision)%Q /\
    (forall (z : BigNumber) (v : Q),
        BN_is z v ->
        ((ref * (1 - level) <= v)%Q ->
         Number_le
           (Order.price (createBuyOrder pairs marketSymbol marketDetails index))
           (BN_toNumber z)) /\
        ((v <= ref * (1 - level) - tick askPrecision)%Q ->
         Number_le
           (BN_toNumber z)
           (Order.price (createBuyOrder pairs marketSymbol marketDetails index))) /\
        ((v <= ref * (1 + level))%Q ->
         Number_le
           (BN_toNumber z)
           (Order.price (createSellOrder pairs marketSymbol marketDetails index))) /\
        ((ref * (1 + level) + tick askPrecision <= v)%Q ->
         Number_le
           (Order.price (createSellOrder pairs marketSymbol marketDetails index))
           (BN_toNumber z))).
Proof.
  intros Href Hpos Hexact Hint Hipos Hlevel askPrecision level.
  pose proof (level_factor_pos interval index Hipos) as Hf. fold level in Hf, Hlevel.
  pose proof (buyPrice_value pairs marketSymbol marketDetails index _ _
                Href Hint) as Hbuy.
  pose proof (sellPrice_value pairs marketSymbol marketDetails index _ _
                Hexact Hint) as Hsell.
  fold level in Hbuy, Hsell. fold askPrecision in Hbuy, Hsell.
  assert (H0 : (0 <= ref * (1 - level))%Q) by nra.
  assert (H1 : (0 <= ref * (1 + level))%Q) by nra.
  pose proof (Qround_down_gt askPrecision _ H0) as B1.
  pose proof (Qround_down_le askPrecision _ H0) as B2.
  pose proof (Qround_up_ge askPrecision _ H1) as S1.
  pose proof (Qround_up_lt askPrecision _ H1) as S2.
  eexists. eexists.
  split; [exact Hbuy|]. split; [exact Hsell|].
  split; [reflexivity|]. split; [reflexivity|].
  split; [exact B1|]. split; [exact B2|]. split; [exact S1|].
  split; [exact S2|].
  intros z v Hz. cbv beta iota delta [createBuyOrder createSellOrder Order.price].
  split; [|split; [|split]]; intros Hv; apply BN_toNumber_mono.
  - apply (BN_le_of_values _ _ _ _ Hbuy Hz). lra.
  - apply (BN_le_of_values _ _ _ _ Hz Hbuy). lra.
  - apply (BN_le_of_values _ _ _ _ Hz Hsell). lra.
  - apply (BN_le_of_values _ _ _ _ Hsell Hz). lra.
Qed.

(** Levels one unit of the ask precision apart or more get different
    price decimals, in the order of the levels: the BigNumber buyPrice at
    the farther level is below the one at the nearer level as long as the
    level stays above zero, and the BigNumber sellPrice at the farther level
    is above the one at the nearer level, the distance of sell levels being
    taken on the reference price as a number holds it. *)
Theorem ladder_prices_strict_a_tick_apart
    (pairs : list PairConfig) (marketSymbol : string)
    (marketDetails : MarketDetails.t) (i j : nat) (ref ref' interval : Q) :
  BN_is (startPrice pairs marketSymbol marketDetails) ref -> (0 < ref)%Q ->
  BN_is (BN_ofNumber (BN_toNumber (startPrice pairs marketSymbol marketDetails)))
        ref' ->
  (0 < ref')%Q ->
  BN_is (BN_ofNumber (getGridInterval pairs marketSymbol)) interval ->
  (0 < interval)%Q ->
  let one_tick :=
    tick (Z.of_nat (precision (ask_token (MarketDetails.market marketDetails)))) in
  let distance := (interval * inject_Z (Z.of_nat j - Z.of_nat i))%Q in
  ((interval * inject_Z (Z.of_nat j + 1) <= 1)%Q ->
   (one_tick <= ref * distance)%Q ->
   BN_lt (buyPrice pairs marketSymbol marketDetails j)
         (buyPrice pairs marketSymbol marketDetails i)) /\
  ((one_tick <= ref' * distance)%Q ->
   BN_lt (sellPrice pairs marketSymbol marketDetails i)
         (sellPrice pairs marketSymbol marketDetails j)).
Proof.
  intros Href Hpos Href' Hpos' Hint Hipos one_tick distance. split.
  - intros Hlevel Hgap.
    apply (buyPrice_strict pairs marketSymbol marketDetails ref interval);
      assumption.
  - intros Hgap.
    apply (sellPrice_strict pairs marketSymbol marketDetails ref' interval);
      assumption.
Qed.

(** The two sides never cross: the price of the buy order of any level is
    at most the price of the sell order of any level.  The order prices are
    the numbers read from the decimals buyPrice and sellPrice, and of these
    the BigNumber buyPrice of any level is below the BigNumber sellPrice of
    any level. *)
Theorem buy_below_sell
    (pairs : list PairConfig) (marketSymbol : string)
    (marketDetails : MarketDetails.t) (i j : nat) (ref interval : Q) :
  BN_is (startPrice pairs marketSymbol marketDetails) ref -> (0 < ref)%Q ->
  BN_is (BN_ofNumber (BN_toNumber (startPrice pairs marketSymbol marketDetails)))
        ref ->
  BN_is (BN_ofNumber (getGridInterval pairs marketSymbol)) interval ->
  (0 < interval)%Q ->
  Number_le (Order.price (createBuyOrder pairs marketSymbol marketDetails i))
            (Order.price (createSellOrder pairs marketSymbol marketDetails j)) /\
  BN_lt (buyPrice pairs marketSymbol marketDetails i)
        (sellPrice pairs marketSymbol marketDetails j) /\
  Order.price (createBuyOrder pairs marketSymbol marketDetails i)
  = BN_toNumber (buyPrice pairs marketSymbol marketDetails i) /\
  Order.price (createSellOrder pairs marketSymbol marketDetails j)
  = BN_toNumber (sellPrice pairs marketSymbol marketDetails j).
Proof.
  intros Href Hpos Hexact Hint Hipos.
  assert (Hlt : BN_lt (buyPrice pairs marketSymbol marketDetails i)
                      (sellPrice pairs marketSymbol marketDetails j));
    [|split; [apply (BN_toNumber_mono (buyPrice pairs marketSymbol marketDetails i)
                       (sellPrice pairs marketSymbol marketDetails j)),
                BN_lt_le, Hlt
             |split; [exact Hlt | split; reflexivity]]].
  pose proof (level_factor_pos interval i Hipos) as Hfi.
  pose proof (level_factor_pos interval j Hipos) as Hfj.
  set (fi := (interval * inject_Z (Z.of_nat i + 1))%Q) in *.
  set (fj := (interval * inject_Z (Z.of_nat j + 1))%Q) in *.
  apply (BN_lt_of_values _ _ _ _
           (buyPrice_value pairs marketSymbol marketDetails i _ _ Href Hint)
           (sellPrice_value pairs marketSymbol marketDetails j _ _ Hexact Hint)).
  fold fi. fold fj.
  apply Qlt_le_trans with (ref * (1 + fj))%Q; [|apply Qround_up_ge; nra].
  destruct (Qlt_le_dec 1 fi) as [L|L].
  - apply Qle_lt_trans with 0%Q; [apply Qround_down_nonpos; nra | nra].
  - apply Qle_lt_trans with (ref * (1 - fi))%Q;
      [apply Qround_down_le; nra | nra].
Qed.

Section Levels.

Variables (gridLevels : nat) (pairs : list PairConfig).
Variables (marketSymbol : string) (marketDetails : MarketDetails.t).

Lemma level_orders_past (b b' s s' index : nat) :
  (b <= index)%nat -> (b' <= index)%nat ->
  (s <= index)%nat -> (s' <= index)%nat ->
  level_orders pairs marketSymbol marketDetails b s index =
  level_orders pairs marketSymbol marketDetails b' s' index.
Proof.
  intros. unfold level_orders.
  destruct (Nat.ltb_spec index b), (Nat.ltb_spec index b'),
    (Nat.ltb_spec index s), (Nat.ltb_spec index s'); try lia; reflexivity.
Qed.

Lemma flat_map_levels_ext (b b' s s' : nat) (l : list nat) :
  (forall i, In i l ->
     level_orders pairs marketSymbol marketDetails b s i =
     level_orders pairs marketSymbol marketDetails b' s' i) ->
  flat_map (level_orders pairs marketSymbol marketDetails b s) l =
  flat_map (level_orders pairs marketSymbol marketDetails b' s') l.
Proof.
  induction l as [|i l IH]; intros H; simpl; [reflexivity|].
  rewrite (H i (or_introl eq_refl)), IH; [reflexivity|].
  intros k Hk. apply H. right. exact Hk.
Qed.

(** The loop, level by level. *)
Lemma loop_levels (n index numBuys numSells : nat) (orders : list Order.t) :
  prepareOrders_loop gridLevels pairs marketSymbol marketDetails
    n index numBuys numSells orders =
  orders ++
  flat_map (level_orders pairs marketSymbol marketDetails
              (index + (gridLevels - numBuys))
              (index + (gridLevels - numSells)))
           (seq index n).
Proof.
  revert index numBuys numSells orders.
  induction n as [|n IH]; intros index numBuys numSells orders.
  - simpl. rewrite app_nil_r. reflexivity.
  - set (head := level_orders pairs marketSymbol marketDetails
                   (index + (gridLevels - numBuys))
                   (index + (gridLevels - numSells)) index).
    set (numBuys' := if (numBuys <? gridLevels)%nat
                     then (numBuys + 1)%nat else numBuys).
    set (numSells' := if (numSells <? gridLevels)%nat
                      then (numSells + 1)%nat else numSells).
    assert (Hstep :
      prepareOrders_loop gridLevels pairs marketSymbol marketDetails
        (S n) index numBuys numSells orders =
      prepareOrders_loop gridLevels pairs marketSymbol marketDetails
        n (index + 1) numBuys' numSells' (orders ++ head)).
    { unfold head, numBuys', numSells', level_orders.
      cbn [prepareOrders_loop].
      destruct (Nat.ltb_spec numBuys gridLevels),
        (Nat.ltb_spec numSells gridLevels),
        (Nat.ltb_spec index (index + (gridLevels - numBuys))),
        (Nat.ltb_spec index (index + (gridLevels - numSells)));
        try lia; rewrite ?app_nil_r, <- ?app_assoc; reflexivity. }
    rewrite Hstep, IH. cbn [seq flat_map]. fold head.
    rewrite <- app_assoc. f_equal. f_equal.
    replace (S index) with (index + 1)%nat by lia.
    apply flat_map_levels_ext. intros i Hi. apply in_seq in Hi.
    unfold numBuys', numSells', level_orders.
    destruct (Nat.ltb_spec numBuys gridLevels),
      (Nat.ltb_spec numSells gridLevels);
      repeat match goal with
        | |- context [(?a <? ?b)%nat] => destruct (Nat.ltb_spec a b)
        end; try lia; reflexivity.
Qed.

End Levels.

(** prepareOrders goes through the levels 0 .. gridLevels - 1 once and
    builds at each level the buy, if the buy side is still short, and then
    the sell, if the sell side is. *)
Theorem prepareOrders_level_by_level
    (gridLevels : nat) (pairs : list PairConfig) (marketSymbol : string)
    (marketDetails : MarketDetails.t) (openOrders : list OpenOrder) :
  prepareOrders gridLevels pairs marketSymbol marketDetails openOrders =
  flat_map
    (level_orders pairs marketSymbol marketDetails
       (gridLevels - List.length (filter isBuy openOrders))
       (gridLevels - List.length (filter isSell openOrders)))
    (seq 0 gridLevels).
Proof.
  unfold prepareOrders. rewrite loop_levels. reflexivity.
Qed.

Lemma prepareOrders_In
    (gridLevels : nat) (pairs : list PairConfig) (marketSymbol : string)
    (marketDetails : MarketDetails.t) (openOrders : list OpenOrder)
    (order : Order.t) :
  In order (prepareOrders gridLevels pairs marketSymbol marketDetails openOrders) ->
  exists index, (index < gridLevels)%nat /\
    (order = createBuyOrder pairs marketSymbol marketDetails index \/
     order = createSellOrder pairs marketSymbol marketDetails index).
Proof.
  unfold prepareOrders. rewrite loop_levels. cbn [app].
  intros H. apply in_flat_map in H. destruct H as [index [Hi Ho]].
  apply in_seq in Hi. exists index. split; [lia|].
  unfold level_orders in Ho. apply in_app_or in Ho.
  destruct Ho as [Ho|Ho].
  - destruct (_ <? _)%nat in Ho; simpl in Ho; [|contradiction].
    destruct Ho as [<-|[]]. left. reflexivity.
  - destruct (_ <? _)%nat in Ho; simpl in Ho; [|contradiction].
    destruct Ho as [<-|[]]. right. reflexivity.
Qed.

(** Every order prepareOrders builds is for the market it was asked for,
    at a level below gridLevels, and carries the side of its builder. *)
Theorem prepared_orders_are_for_the_market
    (gridLevels : nat) (pairs : list PairConfig) (marketSymbol : string)
    (marketDetails : MarketDetails.t) (openOrders : list OpenOrder)
    (order : Order.t) :
  In order (prepareOrders gridLevels pairs marketSymbol marketDetails openOrders) ->
  Order.marketSymbol order = marketSymbol /\
  exists index, (index < gridLevels)%nat /\
    (order = createBuyOrder pairs marketSymbol marketDetails index \/
     order = createSellOrder pairs marketSymbol marketDetails index).
Proof.
  intros H. destruct (prepareOrders_In _ _ _ _ _ _ H) as [index [Hi Ho]].
  split; [|exists index; split; assumption].
  destruct Ho as [->| ->]; reflexivity.
Qed.

Section CycleShape.

Variable W : Type.
Variable dexapi : DexApi W.
Variable username : string.
Variable gridLevels : nat.
Variable pairs : list PairConfig.

Lemma getOpenOrders_eval (marketSymbol : string) (market : Market)
    (r : Run W) :
  getMarketBySymbol dexapi marketSymbol = Some market ->
  getOpenOrders W dexapi username marketSymbol r =
  match fetchOpenOrders dexapi username (world r) with
  | (inl error, w) => (inl error, {| world := w; events := events r |})
  | (inr allOrders, w) =>
      (inr (filter (fun order =>
                      order_market_id order =? market_id market)%nat
                   allOrders),
       {| world := w; events := events r |})
  end.
Proof.
  intros Hm. unfold getOpenOrders. rewrite Hm. unfold bind, await, ret.
  destruct (fetchOpenOrders dexapi username (world r)) as [[error|allOrders] w];
    reflexivity.
Qed.

Lemma getMarketDetails_eval (marketSymbol : string) (market : Market)
    (r : Run W) :
  getMarketBySymbol dexapi marketSymbol = Some market ->
  getMarketDetails W dexapi marketSymbol r =
  match fetchLatestPrice dexapi marketSymbol (world r) with
  | (inl error, w) => (inl error, {| world := w; events := events r |})
  | (inr price, w) =>
      match fetchOrderBook dexapi marketSymbol 1 w with
      | (inl error, w') => (inl error, {| world := w'; events := events r |})
      | (inr orderBook, w') =>
          (inr (MarketDetails.mk
                  match bids orderBook with b :: _ => level b | [] => price end
                  match asks orderBook with a :: _ => level a | [] => price end
                  market price),
           {| world := w'; events := events r |})
      end
  end.
Proof.
  intros Hm. unfold getMarketDetails. rewrite Hm. unfold bind, await, ret.
  destruct (fetchLatestPrice dexapi marketSymbol (world r))
    as [[error|price] w]; [reflexivity|].
  cbn [world events].
  destruct (fetchOrderBook dexapi marketSymbol 1 w)
    as [[error|orderBook] w']; reflexivity.
Qed.

(** The three ways the [try] block of one pair can end: by an error, with
    nothing logged or submitted; by the [return], with the no-op line
    logged; or normally, with the prepared orders submitted. *)
Lemma trade_try_cases (pair_i : PairConfig) (r : Run W) :
  (exists error r',
      trade_try W dexapi username gridLevels pairs pair_i r = (inl error, r') /\
      events r' = events r) \/
  (exists r' market allOrders w,
      trade_try W dexapi username gridLevels pairs pair_i r = (inr Return, r') /\
      events r' = events r ++
        [LogInfo ("nothing to do - we have enough orders on the books for "
                  ++ symbol pair_i)] /\
      fetchOpenOrders dexapi username (world r) = (inr allOrders, w) /\
      enough gridLevels
        (filter (fun order => order_market_id order =? market_id market)%nat
                allOrders) = true) \/
  (exists marketDetails openOrders r',
      trade_try W dexapi username gridLevels pairs pair_i r = (inr Normal, r') /\
      events r' = events r ++
        map submission
          (prepareOrders gridLevels pairs (symbol pair_i) marketDetails
                         openOrders)).
Proof.
  remember (trade_try W dexapi username gridLevels pairs pair_i r) as res eqn:E.
  unfold trade_try in E. unfold bind at 1 in E.
  destruct (getMarketBySymbol dexapi (symbol pair_i)) as [market|] eqn:Hm.
  2:{ rewrite getOpenOrders_unknown_market in E by exact Hm. subst res.
      left. eexists. eexists. split; reflexivity. }
  rewrite (getOpenOrders_eval _ _ _ Hm) in E.
  destruct (fetchOpenOrders dexapi username (world r)) as [[error|allOrders] w].
  { subst res. left. eexists. eexists. split; reflexivity. }
  set (openOrders := filter _ allOrders) in E.
  fold (enough gridLevels openOrders) in E.
  destruct (enough gridLevels openOrders) eqn:Hen.
  { subst res. right. left. exists {| world := w; events := events r ++
        [LogInfo ("nothing to do - we have enough orders on the books for "
                  ++ symbol pair_i)] |}, market, allOrders, w.
    repeat split. exact Hen. }
  unfold bind at 1 in E. rewrite (getMarketDetails_eval _ _ _ Hm) in E.
  cbn [world events] in E.
  destruct (fetchLatestPrice dexapi (symbol pair_i) w) as [[error|price] w1].
  { subst res. left. eexists. eexists. split; reflexivity. }
  destruct (fetchOrderBook dexapi (symbol pair_i) 1 w1) as [[error|orderBook] w2].
  { subst res. left. eexists. eexists. split; reflexivity. }
  unfold bind, ret in E.
  match type of E with
  | context [placeOrders W dexapi ?orders ?r0] =>
      pose proof (placeOrders_submits W dexapi orders r0) as [H1 H2];
      destruct (placeOrders W dexapi orders r0) as [[error|[]] r3]
  end.
  { discriminate H1. }
  subst res. right. right. eexists. eexists. eexists. split; [reflexivity|].
  exact H2.
Qed.

Lemma filter_filter_length {A : Type} (f g : A -> bool) (l : list A) :
  (List.length (filter f (filter g l)) <= List.length (filter f l))%nat.
Proof.
  induction l as [|a l IH]; simpl; [lia|].
  destruct (g a); simpl; destruct (f a); simpl; lia.
Qed.

Lemma submissions_of_orders (orders : list Order.t) :
  filter is_submission (map submission orders) = map submission orders.
Proof.
  induction orders as [|o l IH]; simpl; [reflexivity|]. rewrite IH. reflexivity.
Qed.

(** One iteration of the loop: it ends the cycle at the [return], or goes
    on after the line of an error or the submissions of the pair. *)
Lemma trade_from_step (pair_i : PairConfig) (rest : list PairConfig)
    (r : Run W) :
  (exists r' market allOrders w,
      trade_from W dexapi username gridLevels pairs (pair_i :: rest) r
      = (inr tt, r') /\
      events r' = events (announced username pair_i r) ++
        [LogInfo ("nothing to do - we have enough orders on the books for "
                  ++ symbol pair_i)] /\
      fetchOpenOrders dexapi username (world r) = (inr allOrders, w) /\
      enough gridLevels
        (filter (fun order => order_market_id order =? market_id market)%nat
                allOrders) = true) \/
  (exists r' l,
      trade_from W dexapi username gridLevels pairs (pair_i :: rest) r
      = trade_from W dexapi username gridLevels pairs rest r' /\
      events r' = events (announced username pair_i r) ++ l /\
      ((exists msg, l = [LogError msg]) \/
       (exists marketDetails openOrders,
           l = map submission
                 (prepareOrders gridLevels pairs (symbol pair_i) marketDetails
                                openOrders)))).
Proof.
  destruct (trade_try_cases pair_i (announced username pair_i r))
    as [[error [r' [E Hev]]] | [[r' [market [allOrders [w [E [Hev [Hf Hen]]]]]]]
                               | [md [oo [r' [E Hev]]]]]].
  - right. eexists. exists [LogError (message error)].
    split; [apply (trade_catches W dexapi username gridLevels pairs
                     pair_i rest r r' error E)|].
    split; [cbn [events]; rewrite Hev; reflexivity|].
    left. eexists. reflexivity.
  - left. exists r', market, allOrders, w.
    split; [apply (trade_returns W dexapi username gridLevels pairs
                     pair_i rest r r' E)|].
    repeat split; assumption.
  - right. exists r'. eexists.
    split; [apply (trade_continues W dexapi username gridLevels pairs
                     pair_i rest r r' E)|].
    split; [exact Hev|]. right. exists md, oo. reflexivity.
Qed.

(** What a cycle adds to the run. *)
Lemma trade_from_appends (rest : list PairConfig) (r : Run W) :
  fst (trade_from W dexapi username gridLevels pairs rest r) = inr tt /\
  exists l,
    events (snd (trade_from W dexapi username gridLevels pairs rest r))
    = events r ++ l /\
    (List.length (filter is_submission l)
     <= 2 * gridLevels * List.length rest)%nat /\
    (forall s side q p,
        In (SubmitLimitOrder s side q p) l -> In s (map symbol rest)).
Proof.
  revert r. induction rest as [|pair_i rest IH]; intros r.
  - split; [reflexivity|]. exists []. cbn. rewrite app_nil_r.
    split; [reflexivity|]. split; [lia|]. intros ? ? ? ? [].
  - destruct (trade_from_step pair_i rest r)
      as [[r' [market [allOrders [w [E [Hev _]]]]]] | [r' [l [E [Hev Hl]]]]].
    + rewrite E. split; [reflexivity|]. cbn [snd fst].
      eexists. split.
      * rewrite Hev. unfold announced. cbn [events].
        rewrite <- app_assoc. reflexivity.
      * split; [cbn; lia|].
        intros s side q p [H|[H|[]]]; discriminate H.
    + rewrite E. destruct (IH r') as [IH1 [l' [IH2 [IH3 IH4]]]].
      split; [exact IH1|].
      exists (LogInfo ("Executing " ++ symbol pair_i
                       ++ " market maker trades on account " ++ username)
              :: l ++ l').
      split.
      * rewrite IH2, Hev. unfold announced. cbn [events].
        rewrite <- !app_assoc. reflexivity.
      * assert (Hcount : (List.length (filter is_submission l)
                          <= 2 * gridLevels)%nat /\
                         forall s side q p,
                           In (SubmitLimitOrder s side q p) l ->
                           s = symbol pair_i).
        { destruct Hl as [[msg ->] | [md [oo ->]]].
          - split; [cbn; lia|]. intros s side q p [H|[]]. discriminate H.
          - split.
            + rewrite submissions_of_orders, length_map.
              unfold prepareOrders. rewrite loop_length. cbn [List.length]. lia.
            + intros s side q p H. apply in_map_iff in H.
              destruct H as [order [Ho Hin]].
              destruct (prepareOrders_In _ _ _ _ _ _ Hin) as [index [_ [->| ->]]];
                inversion Ho; reflexivity. }
        destruct Hcount as [Hc Hs]. split.
        -- cbn [filter is_submission]. rewrite filter_app, length_app.
           cbn [List.length]. lia.
        -- intros s side q p [H|H]; [discriminate H|].
           apply in_app_or in H. destruct H as [H|H].
           ++ left. symmetry. exact (Hs _ _ _ _ H).
           ++ right. exact (IH4 _ _ _ _ H).
Qed.

End CycleShape.

Section CycleTheorems.

Variable W : Type.
Variable dexapi : DexApi W.
Variable username : string.
Variable gridLevels : nat.
Variable pairs : list PairConfig.

(** No error of a collaborator escapes trade.  With a logger whose calls
    return and thrown values that are Error objects, as the model has
    them, whatever getMarketBySymbol answers and fetchOpenOrders,
    fetchLatestPrice and fetchOrderBook answer or throw, trade returns
    normally and only adds to what has been logged and submitted. *)
Theorem collaborator_errors_stay_in_trade (r : Run W) :
  fst (trade W dexapi username gridLevels pairs r) = inr tt /\
  exists l,
    events (snd (trade W dexapi username gridLevels pairs r)) = events r ++ l.
Proof.
  destruct (trade_from_appends W dexapi username gridLevels pairs pairs r)
    as [H [l [Hl _]]].
  split; [exact H|]. exists l. exact Hl.
Qed.

(** A cycle starts at most 2 * gridLevels submissions per configured pair,
    and only for the symbols of configured pairs. *)
Theorem trade_submissions_bounded (r : Run W) :
  exists l,
    events (snd (trade W dexapi username gridLevels pairs r)) = events r ++ l /\
    (List.length (filter is_submission l)
     <= 2 * gridLevels * List.length pairs)%nat /\
    (forall marketSymbol side quantity price,
        In (SubmitLimitOrder marketSymbol side quantity price) l ->
        In marketSymbol (map symbol pairs)).
Proof.
  destruct (trade_from_appends W dexapi username gridLevels pairs pairs r)
    as [_ H]. exact H.
Qed.

(** A pair whose market is unknown is logged as such, nothing is fetched
    for it, and the loop goes on. *)
Theorem unknown_market_is_skipped (pair_i : PairConfig)
    (rest : list PairConfig) (r : Run W) :
  getMarketBySymbol dexapi (symbol pair_i) = None ->
  trade_from W dexapi username gridLevels pairs (pair_i :: rest) r =
  trade_from W dexapi username gridLevels pairs rest
    {| world := world r;
       events := events r ++
         [LogInfo ("Executing " ++ symbol pair_i
                   ++ " market maker trades on account " ++ username);
          LogError ("Market " ++ symbol pair_i ++ " does not exist")] |}.
Proof.
  intros Hm.
  rewrite (trade_catches W dexapi username gridLevels pairs pair_i rest r
             (announced username pair_i r)
             {| message := "Market " ++ symbol pair_i ++ " does not exist" |}).
  - unfold announced. cbn [world events message].
    rewrite <- app_assoc. reflexivity.
  - unfold trade_try. unfold bind at 1.
    rewrite getOpenOrders_unknown_market by exact Hm. reflexivity.
Qed.

(** When listing the open orders fails, the error is logged with its
    message, no market data is fetched and nothing is submitted for the
    pair, and the loop goes on. *)
Theorem open_orders_failure_is_logged (pair_i : PairConfig)
    (rest : list PairConfig) (r : Run W) (market : Market) (error : Error)
    (w : W) :
  getMarketBySymbol dexapi (symbol pair_i) = Some market ->
  fetchOpenOrders dexapi username (world r) = (inl error, w) ->
  trade_from W dexapi username gridLevels pairs (pair_i :: rest) r =
  trade_from W dexapi username gridLevels pairs rest
    {| world := w;
       events := events r ++
         [LogInfo ("Executing " ++ symbol pair_i
                   ++ " market maker trades on account " ++ username);
          LogError (message error)] |}.
Proof.
  intros Hm Hf.
  rewrite (trade_catches W dexapi username gridLevels pairs pair_i rest r
             {| world := w; events := events (announced username pair_i r) |}
             error).
  - unfold announced. cbn [world events].
    rewrite <- app_assoc. reflexivity.
  - unfold trade_try. unfold bind at 1.
    rewrite (getOpenOrders_eval W dexapi username _ _ _ Hm).
    cbn [announced world]. rewrite Hf. reflexivity.
Qed.

(** When the price or the order book cannot be fetched, the error is
    logged with its message, nothing is submitted for the pair, and the
    loop goes on. *)
Theorem market_data_failure_is_logged (pair_i : PairConfig)
    (rest : list PairConfig) (r : Run W) (market : Market)
    (allOrders : list OpenOrder) (error : Error) (w w' : W) :
  getMarketBySymbol dexapi (symbol pair_i) = Some market ->
  fetchOpenOrders dexapi username (world r) = (inr allOrders, w) ->
  enough gridLevels
    (filter (fun order => order_market_id order =? market_id market)%nat
            allOrders) = false ->
  (fetchLatestPrice dexapi (symbol pair_i) w = (inl error, w') \/
   exists price w1,
     fetchLatestPrice dexapi (symbol pair_i) w = (inr price, w1) /\
     fetchOrderBook dexapi (symbol pair_i) 1 w1 = (inl error, w')) ->
  trade_from W dexapi username gridLevels pairs (pair_i :: rest) r =
  trade_from W dexapi username gridLevels pairs rest
    {| world := w';
       events := events r ++
         [LogInfo ("Executing " ++ symbol pair_i
                   ++ " market maker trades on account " ++ username);
          LogError (message error)] |}.
Proof.
  intros Hm Hf Hen Hdata.
  rewrite (trade_catches W dexapi username gridLevels pairs pair_i rest r
             {| world := w'; events := events (announced username pair_i r) |}
             error).
  - unfold announced. cbn [world events].
    rewrite <- app_assoc. reflexivity.
  - unfold trade_try. unfold bind at 1.
    rewrite (getOpenOrders_eval W dexapi username _ _ _ Hm).
    cbn [announced world]. rewrite Hf.
    fold (enough gridLevels
            (filter (fun order => order_market_id order =? market_id market)%nat
                    allOrders)).
    rewrite Hen. unfold bind at 1.
    rewrite (getMarketDetails_eval W dexapi _ _ _ Hm). cbn [world events].
    destruct Hdata as [Hp | [price [w1 [Hp Hb]]]].
    + rewrite Hp. reflexivity.
    + rewrite Hp, Hb. reflexivity.
Qed.

(** A pair that is short of orders and whose fetches succeed gets exactly
    the orders of prepareOrders submitted, built on the fetched snapshot and
    on the open orders of its own market, and the loop goes on. *)
Theorem short_pair_is_topped_up (pair_i : PairConfig)
    (rest : list PairConfig) (r : Run W) (market : Market)
    (allOrders : list OpenOrder) (price : Number.t) (orderBook : OrderBook)
    (w w1 w2 : W) :
  getMarketBySymbol dexapi (symbol pair_i) = Some market ->
  fetchOpenOrders dexapi username (world r) = (inr allOrders, w) ->
  let openOrders :=
    filter (fun order => order_market_id order =? market_id market)%nat
           allOrders in
  enough gridLevels openOrders = false ->
  fetchLatestPrice dexapi (symbol pair_i) w = (inr price, w1) ->
  fetchOrderBook dexapi (symbol pair_i) 1 w1 = (inr orderBook, w2) ->
  let marketDetails :=
    MarketDetails.mk
      match bids orderBook with b :: _ => level b | [] => price end
      match asks orderBook with a :: _ => level a | [] => price end
      market price in
  exists w' : W,
    trade_from W dexapi username gridLevels pairs (pair_i :: rest) r =
    trade_from W dexapi username gridLevels pairs rest
      {| world := w';
         events := events r ++
           LogInfo ("Executing " ++ symbol pair_i
                    ++ " market maker trades on account " ++ username)
           :: map submission
                (prepareOrders gridLevels pairs (symbol pair_i) marketDetails
                               openOrders) |}.
Proof.
  intros Hm Hf openOrders Hen Hp Hb marketDetails.
  set (orders := prepareOrders gridLevels pairs (symbol pair_i) marketDetails
                               openOrders).
  set (r2 := {| world := w2; events := events (announced username pair_i r) |}).
  destruct (placeOrders_submits W dexapi orders r2) as [H1 H2].
  exists (world (snd (placeOrders W dexapi orders r2))).
  rewrite (trade_continues W dexapi username gridLevels pairs pair_i rest r
             (snd (placeOrders W dexapi orders r2))).
  - f_equal. destruct (snd (placeOrders W dexapi orders r2)) as [w' ev].
    cbn [world events] in *. rewrite H2. unfold r2, announced. cbn [events].
    rewrite <- app_assoc. reflexivity.
  - unfold trade_try. unfold bind at 1.
    rewrite (getOpenOrders_eval W dexapi username _ _ _ Hm).
    cbn [announced world]. rewrite Hf. fold openOrders.
    fold (enough gridLevels openOrders). rewrite Hen. unfold bind at 1.
    rewrite (getMarketDetails_eval W dexapi _ _ _ Hm). cbn [world events].
    rewrite Hp, Hb. fold marketDetails. fold orders.
    unfold bind, ret. fold (announced username pair_i r). fold r2.
    destruct (placeOrders W dexapi orders r2) as [[e|[]] r3];
      [discriminate H1 | reflexivity].
Qed.

(** When the account never has gridLevels open buy orders, no pair takes
    the [return], and every configured pair is visited in the cycle. *)
Theorem every_pair_visited_when_short (r : Run W) :
  (forall w allOrders w',
      fetchOpenOrders dexapi username w = (inr allOrders, w') ->
      (List.length (filter isBuy allOrders) < gridLevels)%nat) ->
  forall pair_i, In pair_i pairs ->
    In (LogInfo ("Executing " ++ symbol pair_i
                 ++ " market maker trades on account " ++ username))
       (events (snd (trade W dexapi username gridLevels pairs r))).
Proof.
  intros Hshort. unfold trade. generalize pairs at 1 3 as rest. intros rest.
  revert r. induction rest as [|p rest IH]; intros r pair_i Hin; [destruct Hin|].
  destruct (trade_from_step W dexapi username gridLevels pairs p rest r)
    as [[r' [market [allOrders [w [_ [_ [Hf Hen]]]]]]] | [r' [l [E [Hev _]]]]].
  - exfalso. pose proof (Hshort _ _ _ Hf) as Hlt.
    unfold enough in Hen. apply andb_prop in Hen. destruct Hen as [Hen _].
    apply Nat.leb_le in Hen.
    pose proof (filter_filter_length isBuy
                  (fun order => order_market_id order =? market_id market)%nat
                  allOrders). lia.
  - rewrite E. destruct Hin as [<-|Hin].
    + destruct (trade_from_appends W dexapi username gridLevels pairs rest r')
        as [_ [l' [Hl' _]]].
      rewrite Hl', Hev. unfold announced. cbn [events].
      apply in_or_app. left. apply in_or_app. left.
      apply in_or_app. right. left. reflexivity.
    + apply IH. exact Hin.
Qed.

End CycleTheorems.

(** ** The remaining listed properties *)

(** At a price of zero the division gives an infinity and the product of
    zero and infinity is NaN: the quantity is an infinity of the sign of
    the zero and the adjusted total is NaN. *)
Theorem sizes_at_price_zero
    (s : bool) (totalCost : Number.t) (bidPrecision askPrecision : nat) (C : Q) :
  BN_is (BN_ofNumber totalCost) C -> (0 < C)%Q ->
  let r := getQuantityAndAdjustedTotal (S754_zero s) totalCost
             bidPrecision askPrecision in
  QuantityAndAdjustedTotal.quantity r = S754_infinity s /\
  QuantityAndAdjustedTotal.adjustedTotal r = S754_nan.
Proof. apply sizes_at_zero. Qed.

(** The reference price in value: the average of best ask and best bid,
    cut to 20 places by dividedBy, whatever the base. *)
Theorem reference_price_value
    (pairs : list PairConfig) (marketSymbol : string)
    (marketDetails : MarketDetails.t) (ask bid : Q) :
  BN_is (BN_ofNumber (MarketDetails.lowestAsk marketDetails)) ask ->
  BN_is (BN_ofNumber (MarketDetails.highestBid marketDetails)) bid ->
  BN_is (startPrice pairs marketSymbol marketDetails)
        (Qround ROUND_HALF_UP ((ask + bid) / 2) DECIMAL_PLACES).
Proof. apply startPrice_value. Qed.

(** A buy level that lies less than one unit of the ask precision from
    zero is priced zero, and the order built there has the size NaN. *)
Theorem buy_order_at_price_zero
    (pairs : list PairConfig) (marketSymbol : string)
    (marketDetails : MarketDetails.t) (index : nat) (ref interval C : Q) :
  BN_is (startPrice pairs marketSymbol marketDetails) ref ->
  BN_is (BN_ofNumber (getGridInterval pairs marketSymbol)) interval ->
  let market := MarketDetails.market marketDetails in
  let one_tick := tick (Z.of_nat (precision (ask_token market))) in
  let level := (ref * (1 - interval * inject_Z (Z.of_nat index + 1)))%Q in
  (- one_tick < level)%Q -> (level < one_tick)%Q ->
  BN_is (BN_ofNumber (Number.div (order_min market)
                                 (multiplier (ask_token market)))) C ->
  (0 < C)%Q ->
  let order := createBuyOrder pairs marketSymbol marketDetails index in
  (exists s, Order.price order = S754_zero s) /\
  Order.quantity order = S754_nan.
Proof.
  intros Href Hint market one_tick level Hlo Hhi HC HC0 order.
  pose proof (buyPrice_value pairs marketSymbol marketDetails index _ _
                Href Hint) as Hb.
  destruct (BN_is_zero _ _ Hb (Qround_down_small _ _ Hlo Hhi)) as [s [e E]].
  unfold order, createBuyOrder. rewrite E. cbn [BN_toNumber Order.price
                                                 Order.quantity].
  split; [exists s; reflexivity|].
  apply (sizes_at_zero s _ _ _ C HC HC0).
Qed.

(** With an empty order book both best prices are the last price, and the
    ladder starts from the last price. *)
Theorem empty_book_anchors_at_last_price
    (W : Type) (dexapi : DexApi W) (pairs : list PairConfig)
    (marketSymbol : string) (market : Market) (r : Run W)
    (price : Number.t) (w1 w2 : W) (P : Q) (z : Z) :
  getMarketBySymbol dexapi marketSymbol = Some market ->
  fetchLatestPrice dexapi marketSymbol (world r) = (inr price, w1) ->
  fetchOrderBook dexapi marketSymbol 1 w1
    = (inr {| bids := []; asks := [] |}, w2) ->
  BN_is (BN_ofNumber price) P ->
  (P * Qpow10 DECIMAL_PLACES == inject_Z z)%Q ->
  exists marketDetails,
    getMarketDetails W dexapi marketSymbol r
      = (inr marketDetails, {| world := w2; events := events r |}) /\
    MarketDetails.highestBid marketDetails = price /\
    MarketDetails.lowestAsk marketDetails = price /\
    BN_is (startPrice pairs marketSymbol marketDetails) P.
Proof.
  intros Hm Hp Hb HP Hz.
  rewrite (getMarketDetails_eval W dexapi _ _ _ Hm), Hp, Hb. cbn [bids asks].
  eexists. split; [reflexivity|]. split; [reflexivity|].
  split; [reflexivity|].
  pose proof (startPrice_value pairs marketSymbol
                (MarketDetails.mk price price market price) P P HP HP) as H.
  revert H. apply BN_is_eq.
  assert (E : ((P + P) / 2 == P)%Q) by field.
  rewrite (Qround_comp ROUND_HALF_UP _ _ E _ _ eq_refl).
  apply (Qround_on_grid _ _ _ z). exact Hz.
Qed.

(** placeOrders starts one submission per order, in the order of the
    list, each with the order's symbol, side, quantity and price, and
    returns normally. *)
Theorem placeOrders_starts_every_order
    (W : Type) (dexapi : DexApi W) (orders : list Order.t) (r : Run W) :
  placeOrders W dexapi orders r =
  (inr tt,
   {| world :=
        fold_left
          (fun w order =>
             submitLimitOrder dexapi (Order.marketSymbol order)
               (Order.orderSide order) (Order.quantity order)
               (Order.price order) w)
          orders (world r);
      events := events r ++ map submission orders |}).
Proof.
  revert r. induction orders as [|order rest IH]; intros r.
  - simpl. rewrite app_nil_r. destruct r. reflexivity.
  - cbn [placeOrders]. unfold bind. rewrite IH. cbn [world events fold_left map].
    rewrite <- app_assoc. reflexivity.
Qed.

(** The grid interval and the base of a symbol are taken from one and
    the same configured pair, or are both the defaults. *)
Theorem interval_and_base_from_one_pair
    (pairs : list PairConfig) (marketSymbol : string) :
  ((forall p, In p pairs -> symbol p <> marketSymbol) /\
   getGridInterval pairs marketSymbol = num 1 (-2) /\
   getBase pairs marketSymbol = JsString "AVERAGE") \/
  (exists p, In p pairs /\ symbol p = marketSymbol /\
     getGridInterval pairs marketSymbol = gridInterval p /\
     getBase pairs marketSymbol = base p).
Proof.
  assert (H : (forall p, In p pairs -> symbol p <> marketSymbol) \/
              exists before p after,
                pairs = before ++ p :: after /\ symbol p = marketSymbol /\
                forall q, In q after -> symbol q <> marketSymbol).
  { induction pairs as [|a l IH]; [left; intros p []|].
    destruct IH as [IH | [before [p [after [-> [Hp Hafter]]]]]].
    - destruct (string_dec (symbol a) marketSymbol) as [E|NE].
      + right. exists [], a, l. repeat split; assumption.
      + left. intros p [<-|Hp]; [exact NE | apply IH, Hp].
    - right. exists (a :: before), p, after. repeat split; assumption. }
  destruct H as [H | [before [p [after [-> [Hp Hafter]]]]]].
  - left. split; [exact H|]. split.
    + apply (lookup_no_match gridInterval). exact H.
    + apply (lookup_no_match base). exact H.
  - right. exists p. split; [apply in_or_app; right; left; reflexivity|].
    split; [exact Hp|]. split.
    + apply (lookup_last_match gridInterval); assumption.
    + apply (lookup_last_match base); assumption.
Qed.

(** ** Instances *)

Lemma sizes_at_price_zero_witness :
  let r := getQuantityAndAdjustedTotal (S754_zero false) (num 1 0) 4 4 in
  QuantityAndAdjustedTotal.quantity r = S754_infinity false /\
  QuantityAndAdjustedTotal.adjustedTotal r = S754_nan.
Proof.
  apply (sizes_at_price_zero false (num 1 0) 4 4 1).
  - vm_compute. reflexivity.
  - reflexivity.
Defined.

Lemma quantity_monotone_witness :
  exists quantity1 quantity2 : BigNumber,
    QuantityAndAdjustedTotal.quantity
      (getQuantityAndAdjustedTotal (num 99 (-2)) (num 1 0) 4 6)
      = BN_toNumber quantity1 /\
    QuantityAndAdjustedTotal.quantity
      (getQuantityAndAdjustedTotal (num 101 (-2)) (num 1 0) 4 6)
      = BN_toNumber quantity2 /\
    BN_le quantity2 quantity1.
Proof.
  apply (quantity_monotone (num 99 (-2)) (num 101 (-2)) (num 1 0) (num 1 0)
           4 6 (99 # 100) (101 # 100) 1 1).
  - vm_compute. reflexivity.
  - vm_compute. reflexivity.
  - vm_compute. reflexivity.
  - vm_compute. reflexivity.
  - reflexivity.
  - vm_compute. discriminate.
  - vm_compute. discriminate.
  - vm_compute. discriminate.
Defined.

Lemma reference_price_value_witness :
  BN_is (startPrice [Examples.pair_of (num 1 (-2)) (JsString "LAST")]
                    "XPR_XMD" Examples.snapshot)
        (Qround ROUND_HALF_UP ((102 + 100) / 2) DECIMAL_PLACES).
Proof.
  apply (reference_price_value
           [Examples.pair_of (num 1 (-2)) (JsString "LAST")]
           "XPR_XMD" Examples.snapshot 102 100).
  - vm_compute. reflexivity.
  - vm_compute. reflexivity.
Defined.

Lemma sell_price_rounded_up_witness :
  exists sellPrice : BigNumber,
    BN_is sellPrice
          (Qround ROUND_UP (101 * (1 + (1 # 100) * inject_Z (Z.of_nat 1 + 1))) 6) /\
    Order.price
      (createSellOrder [Examples.pair_of (num 1 (-2)) (JsString "AVERAGE")]
                       "XPR_XMD" Examples.snapshot 1)
    = BN_toNumber sellPrice.
Proof.
  apply (sell_price_rounded_up
           [Examples.pair_of (num 1 (-2)) (JsString "AVERAGE")]
           "XPR_XMD" Examples.snapshot 1 101 (1 # 100)).
  - vm_compute. reflexivity.
  - vm_compute. reflexivity.
Defined.

Lemma level_prices_within_one_tick_witness :
  let pairs := [Examples.pair_of (num 1 (-2)) (JsString "AVERAGE")] in
  let level := ((1 # 100) * inject_Z (Z.of_nat 1 + 1))%Q in
  exists buy sell : Q,
    BN_is (buyPrice pairs "XPR_XMD" Examples.snapshot 1) buy /\
    BN_is (sellPrice pairs "XPR_XMD" Examples.snapshot 1) sell /\
    Order.price (createBuyOrder pairs "XPR_XMD" Examples.snapshot 1)
    = BN_toNumber (buyPrice pairs "XPR_XMD" Examples.snapshot 1) /\
    Order.price (createSellOrder pairs "XPR_XMD" Examples.snapshot 1)
    = BN_toNumber (sellPrice pairs "XPR_XMD" Examples.snapshot 1) /\
    (101 * (1 - level) - tick 6 < buy)%Q /\
    (buy <= 101 * (1 - level))%Q /\
    (101 * (1 + level) <= sell)%Q /\
    (sell < 101 * (1 + level) + tick 6)%Q /\
    (forall (z : BigNumber) (v : Q),
        BN_is z v ->
        ((101 * (1 - level) <= v)%Q ->
         Number_le
           (Order.price (createBuyOrder pairs "XPR_XMD" Examples.snapshot 1))
           (BN_toNumber z)) /\
        ((v <= 101 * (1 - level) - tick 6)%Q ->
         Number_le
           (BN_toNumber z)
           (Order.price (createBuyOrder pairs "XPR_XMD" Examples.snapshot 1))) /\
        ((v <= 101 * (1 + level))%Q ->
         Number_le
           (BN_toNumber z)
           (Order.price (createSellOrder pairs "XPR_XMD" Examples.snapshot 1))) /\
        ((101 * (1 + level) + tick 6 <= v)%Q ->
         Number_le
           (Order.price (createSellOrder pairs "XPR_XMD" Examples.snapshot 1))
           (BN_toNumber z))).
Proof.
  intros pairs level.
  apply (level_prices_within_one_tick pairs "XPR_XMD" Examples.snapshot 1
           101 (1 # 100)).
  - vm_compute. reflexivity.
  - reflexivity.
  - vm_compute. reflexivity.
  - vm_compute. reflexivity.
  - reflexivity.
  - vm_compute. discriminate.
Defined.

Lemma ladder_prices_strict_a_tick_apart_witness :
  let pairs := [Examples.pair_of (num 1 (-2)) (JsString "AVERAGE")] in
  BN_lt (buyPrice pairs "XPR_XMD" Examples.snapshot 1)
        (buyPrice pairs "XPR_XMD" Examples.snapshot 0) /\
  BN_lt (sellPrice pairs "XPR_XMD" Examples.snapshot 0)
        (sellPrice pairs "XPR_XMD" Examples.snapshot 1).
Proof.
  intros pairs.
  destruct (ladder_prices_strict_a_tick_apart pairs "XPR_XMD"
              Examples.snapshot 0 1 101 101 (1 # 100)) as [Hbuy Hsell].
  - vm_compute. reflexivity.
  - reflexivity.
  - vm_compute. reflexivity.
  - reflexivity.
  - vm_compute. reflexivity.
  - reflexivity.
  - split.
    + apply Hbuy; vm_compute; discriminate.
    + apply Hsell; vm_compute; discriminate.
Defined.

Lemma buy_below_sell_witness :
  let pairs := [Examples.pair_of (num 1 (-2)) (JsString "AVERAGE")] in
  Number_le (Order.price (createBuyOrder pairs "XPR_XMD" Examples.snapshot 0))
            (Order.price (createSellOrder pairs "XPR_XMD" Examples.snapshot 2)) /\
  BN_lt (buyPrice pairs "XPR_XMD" Examples.snapshot 0)
        (sellPrice pairs "XPR_XMD" Examples.snapshot 2) /\
  Order.price (createBuyOrder pairs "XPR_XMD" Examples.snapshot 0)
  = BN_toNumber (buyPrice pairs "XPR_XMD" Examples.snapshot 0) /\
  Order.price (createSellOrder pairs "XPR_XMD" Examples.snapshot 2)
  = BN_toNumber (sellPrice pairs "XPR_XMD" Examples.snapshot 2).
Proof.
  intros pairs.
  apply (buy_below_sell pairs "XPR_XMD" Examples.snapshot 0 2 101 (1 # 100)).
  - vm_compute. reflexivity.
  - reflexivity.
  - vm_compute. reflexivity.
  - vm_compute. reflexivity.
  - reflexivity.
Defined.

Lemma buy_order_at_price_zero_witness :
  let order :=
    createBuyOrder [Examples.pair_of (num 5 (-1)) (JsString "AVERAGE")]
                   "XPR_XMD" Examples.flat 1 in
  (exists s, Order.price order = S754_zero s) /\
  Order.quantity order = S754_nan.
Proof.
  apply (buy_order_at_price_zero
           [Examples.pair_of (num 5 (-1)) (JsString "AVERAGE")]
           "XPR_XMD" Examples.flat 1 1 (1 # 2) 1).
  - vm_compute. reflexivity.
  - vm_compute. reflexivity.
  - vm_compute. reflexivity.
  - vm_compute. reflexivity.
  - vm_compute. reflexivity.
  - reflexivity.
Defined.

Lemma empty_book_anchors_at_last_price_witness :
  exists marketDetails,
    getMarketDetails unit Examples.exchange "XBTC_XMD" Examples.start
      = (inr marketDetails, {| world := tt; events := [] |}) /\
    MarketDetails.highestBid marketDetails = num 1 0 /\
    MarketDetails.lowestAsk marketDetails = num 1 0 /\
    BN_is (startPrice [Examples.pair_for "XBTC_XMD"] "XBTC_XMD" marketDetails) 1.
Proof.
  apply (empty_book_anchors_at_last_price unit Examples.exchange
           [Examples.pair_for "XBTC_XMD"] "XBTC_XMD" Examples.XBTC_XMD
           Examples.start (num 1 0) tt tt 1 (10 ^ 20)).
  - reflexivity.
  - reflexivity.
  - reflexivity.
  - vm_compute. reflexivity.
  - vm_compute. reflexivity.
Defined.

Lemma prepared_orders_are_for_the_market_witness :
  let pairs := [Examples.pair_of (num 1 (-2)) (JsString "AVERAGE")] in
  let order := createSellOrder pairs "XPR_XMD" Examples.snapshot 1 in
  Order.marketSymbol order = "XPR_XMD"%string /\
  exists index, (index < 2)%nat /\
    (order = createBuyOrder pairs "XPR_XMD" Examples.snapshot index \/
     order = createSellOrder pairs "XPR_XMD" Examples.snapshot index).
Proof.
  intros pairs order.
  apply (prepared_orders_are_for_the_market 2 pairs "XPR_XMD"
           Examples.snapshot []).
  unfold prepareOrders. cbn [prepareOrders_loop filter List.length Nat.ltb
                             Nat.leb app].
  right. right. right. left. reflexivity.
Defined.

Lemma unknown_market_is_skipped_witness :
  trade_from unit Examples.exchange "bot" 1 [] 
    [Examples.pair_for "XETH_XMD"; Examples.pair_for "XBTC_XMD"] Examples.start =
  trade_from unit Examples.exchange "bot" 1 []
    [Examples.pair_for "XBTC_XMD"]
    {| world := tt;
       events :=
         [LogInfo "Executing XETH_XMD market maker trades on account bot";
          LogError "Market XETH_XMD does not exist"] |}.
Proof.
  apply (unknown_market_is_skipped unit Examples.exchange "bot" 1 []
           (Examples.pair_for "XETH_XMD") [Examples.pair_for "XBTC_XMD"]
           Examples.start).
  reflexivity.
Defined.

Lemma open_orders_failure_is_logged_witness :
  trade_from unit Scenarios.offline "bot" 1 []
    [Examples.pair_for "XPR_XMD"; Examples.pair_for "XBTC_XMD"] Examples.start =
  trade_from unit Scenarios.offline "bot" 1 []
    [Examples.pair_for "XBTC_XMD"]
    {| world := tt;
       events :=
         [LogInfo "Executing XPR_XMD market maker trades on account bot";
          LogError "request failed"] |}.
Proof.
  apply (open_orders_failure_is_logged unit Scenarios.offline "bot" 1 []
           (Examples.pair_for "XPR_XMD") [Examples.pair_for "XBTC_XMD"]
           Examples.start Examples.XPR_XMD Scenarios.failure tt).
  - reflexivity.
  - reflexivity.
Defined.

Lemma market_data_failure_is_logged_witness :
  trade_from unit Scenarios.no_price "bot" 2 []
    [Examples.pair_for "XPR_XMD"; Examples.pair_for "XBTC_XMD"] Examples.start =
  trade_from unit Scenarios.no_price "bot" 2 []
    [Examples.pair_for "XBTC_XMD"]
    {| world := tt;
       events :=
         [LogInfo "Executing XPR_XMD market maker trades on account bot";
          LogError "request failed"] |}.
Proof.
  apply (market_data_failure_is_logged unit Scenarios.no_price "bot" 2 []
           (Examples.pair_for "XPR_XMD") [Examples.pair_for "XBTC_XMD"]
           Examples.start Examples.XPR_XMD Examples.openOrders
           Scenarios.failure tt tt).
  - reflexivity.
  - reflexivity.
  - reflexivity.
  - left. reflexivity.
Defined.

Lemma short_pair_is_topped_up_witness :
  let pairs := [Examples.pair_for "XBTC_XMD"] in
  exists w' : unit,
    trade_from unit Examples.exchange "bot" 1 pairs pairs Examples.start =
    trade_from unit Examples.exchange "bot" 1 pairs []
      {| world := w';
         events :=
           LogInfo "Executing XBTC_XMD market maker trades on account bot"
           :: map submission
                (prepareOrders 1 pairs "XBTC_XMD"
                   (MarketDetails.mk (num 1 0) (num 1 0) Examples.XBTC_XMD
                                     (num 1 0))
                   []) |}.
Proof.
  intros pairs.
  apply (short_pair_is_topped_up unit Examples.exchange "bot" 1 pairs
           (Examples.pair_for "XBTC_XMD") [] Examples.start Examples.XBTC_XMD
           Examples.openOrders (num 1 0) {| bids := []; asks := [] |}
           tt tt tt).
  - reflexivity.
  - reflexivity.
  - reflexivity.
  - reflexivity.
  - reflexivity.
Defined.

Lemma every_pair_visited_when_short_witness :
  let pairs := [Examples.pair_for "XPR_XMD"; Examples.pair_for "XBTC_XMD"] in
  In (LogInfo "Executing XBTC_XMD market maker trades on account bot")
     (events (snd (trade unit Examples.exchange "bot" 2 pairs Examples.start))).
Proof.
  intros pairs.
  apply (every_pair_visited_when_short unit Examples.exchange "bot" 2 pairs
           Examples.start
           ltac:(intros w allOrders w' H; inversion H; subst; cbn; lia)
           (Examples.pair_for "XBTC_XMD")).
  right. left. reflexivity.
Defined.
